(** * CrossCorrelation: the CUDA cross-correlation kernels and their host
      orchestration (cuda_cross_correlation.cuh), the sweeps of the two
      benchmark programs and the object points of the calibration,
      embedded in Rocq.

    The kernels are embedded thread by thread: a kernel is a function of
    [blockDim], [blockIdx] and [threadIdx]; a launch runs it for every
    thread of the grid.  Machine integers are [Z] with the wrap-around
    written out, [float] is binary32 restricted to the non-negative
    values the host code computes with, and the sample type [T] is an
    unsigned integer of [sizeofT] bytes ([uint8_t] in every caller). *)

From Stdlib Require Import ZArith Lia Bool String Floats.SpecFloat.
From stdpp Require Import base option list numbers.

Local Open Scope Z_scope.

(** ** Machine integers *)

(** [std::size_t] on the 64-bit host and device. *)
Definition size_t (x : Z) : Z := x mod 2 ^ 64.

(** [unsigned int], the type of the fields of [dim3]. *)
Definition uint (x : Z) : Z := x mod 2 ^ 32.

(** Conversion to the unsigned sample type [T] of [sizeofT] bytes. *)
Definition castT (sizeofT : Z) (x : Z) : Z := x mod 2 ^ (8 * sizeofT).

Record dim3 := Dim3 { x : Z; y : Z }.

(** ** binary32

    The host code computes sizes and grid dimensions in [float].  Every
    value it handles is a non-negative number between 2^-64 and 2^128, so
    a float is modelled by its value [Fnum * 2 ^ Fexp] with [0 ≤ Fnum];
    signs, subnormals, infinities and NaN do not arise.  Each operation
    rounds the exact result to a 24-bit significand, to nearest, ties to
    even. *)

Record float := Float { Fnum : Z; Fexp : Z }.

(** The integer nearest to [num / den], ties to even ([0 ≤ num], [0 < den]). *)
Definition round_nearest_even (num den : Z) : Z :=
  let q := num / den in
  let r := num mod den in
  if decide (2 * r < den) then q
  else if decide (den < 2 * r) then q + 1
  else if Z.even q then q else q + 1.

(** [q * 2 ^ l ≤ p], for an exponent [l] of either sign. *)
Definition scaled_le (q l p : Z) : bool :=
  if decide (0 ≤ l) then bool_decide (q * 2 ^ l ≤ p)
  else bool_decide (q ≤ p * 2 ^ (- l)).

(** [⌊log2 (p / q)⌋] for [0 < p], [0 < q]. *)
Definition log2_ratio (p q : Z) : Z :=
  let l := Z.log2 p - Z.log2 q in
  if scaled_le q l p then l else l - 1.

(** The binary32 nearest to [(p / q) * 2 ^ s], for [0 ≤ p] and [0 < q]. *)
Definition float_round (p q s : Z) : float :=
  if decide (p ≤ 0) then Float 0 0
  else
    let t := 23 - log2_ratio p q in
    let m :=
      if decide (0 ≤ t) then round_nearest_even (p * 2 ^ t) q
      else round_nearest_even p (q * 2 ^ (- t)) in
    Float m (s - t).

(** Conversion of an unsigned integer to [float]. *)
Definition float_of_Z (n : Z) : float := float_round n 1 0.

Definition Fmult (a b : float) : float :=
  float_round (Fnum a * Fnum b) 1 (Fexp a + Fexp b).

Definition Fdiv (a b : float) : float :=
  float_round (Fnum a) (Fnum b) (Fexp a - Fexp b).

Definition Fplus (a b : float) : float :=
  let e := Z.min (Fexp a) (Fexp b) in
  float_round (Fnum a * 2 ^ (Fexp a - e) + Fnum b * 2 ^ (Fexp b - e)) 1 e.

(** [ceil], as an integer. *)
Definition Fceil (a : float) : Z :=
  if decide (0 ≤ Fexp a) then Fnum a * 2 ^ Fexp a
  else - (- Fnum a / 2 ^ (- Fexp a)).

(** Conversion of a [float] to an integer type: the fraction is dropped. *)
Definition Ftrunc (a : float) : Z :=
  if decide (0 ≤ Fexp a) then Fnum a * 2 ^ Fexp a
  else Fnum a / 2 ^ (- Fexp a).

(** ** Loops

    [for (v = from; v < to; v++)] over a state [St]; the body may fail
    (an out-of-bounds access), which aborts the loop. *)

Fixpoint for_loop {St : Type} (body : Z → St → option St)
    (from : Z) (n : nat) (s : St) : option St :=
  match n with
  | O => Some s
  | S n' =>
      match body from s with
      | Some s' => for_loop body (from + 1) n' s'
      | None => None
      end
  end.

Definition for_lt {St : Type} (from to : Z) (body : Z → St → option St)
    (s : St) : option St :=
  for_loop body from (Z.to_nat (to - from)) s.

(** [for (v = from; v <= to; v++)]: the same with an inclusive bound (the
    two coincide with the source as long as [to] is not the largest
    [size_t], where the source loop would not stop). *)
Definition for_le {St : Type} (from to : Z) (body : Z → St → option St)
    (s : St) : option St :=
  for_loop body from (Z.to_nat (to + 1 - from)) s.

(** [for (v = 0; v < bound && cond v; v++)]. *)
Fixpoint while_loop {St : Type} (cond : Z → bool)
    (body : Z → St → option St) (from : Z) (n : nat) (s : St) : option St :=
  match n with
  | O => Some s
  | S n' =>
      if cond from then
        match body from s with
        | Some s' => while_loop cond body (from + 1) n' s'
        | None => None
        end
      else Some s
  end.

(** ** Device memory reads *)

(** [*(p + idx)] on a device array: [None] outside the allocation. *)
Definition load (mem : list Z) (idx : Z) : option Z :=
  if decide (0 ≤ idx) then mem !! Z.to_nat idx else None.

(** ** The direct kernel *)

Section Kernel.

Variable sizeofT : Z.

(** [tmp += *(d_src1 + i1) * *(d_src2 + i2)], with [tmp] of type [T]. *)
Definition accumulate (d_src1 d_src2 : list Z) (i1 i2 : Z) (tmp : Z)
    : option Z :=
  match load d_src1 i1, load d_src2 i2 with
  | Some a, Some b => Some (castT sizeofT (tmp + a * b))
  | _, _ => None
  end.

(** The operands of one product: [(j * matrix_src_cols) + k + (i - shift_on_axis)]
    into [d_src1] and [(j * matrix_src_cols) + l] into [d_src2]. *)
Definition src1_index (matrix_src_cols shift_on_axis i j k : Z) : Z :=
  size_t (j * matrix_src_cols) + k + size_t (i - shift_on_axis).

Definition src2_index (matrix_src_cols j l : Z) : Z :=
  size_t (j * matrix_src_cols) + l.

(** The score of offset [i]: the two inner loops of the kernel, over the
    rows [j] and the columns [l] (with [k] running along with [l]; the
    loop condition [k < kernel_size, l <= sCol + shift_on_axis] is a comma
    expression, so only the bound on [l] decides). *)
Definition window_sum (d_src1 d_src2 : list Z)
    (matrix_src_cols shift_on_axis sRow sCol i : Z) : option Z :=
  for_le (size_t (sRow - shift_on_axis)) (size_t (sRow + shift_on_axis))
    (λ j tmp,
       for_le (size_t (sCol - shift_on_axis)) (size_t (sCol + shift_on_axis))
         (λ l tmp,
            let k := l - size_t (sCol - shift_on_axis) in
            accumulate d_src1 d_src2
              (src1_index matrix_src_cols shift_on_axis i j k)
              (src2_index matrix_src_cols j l) tmp)
         tmp)
    0.

(** One step of the search over [i]: the state is [(max, max_idx)]. *)
Definition search_step (score : Z → option Z) (i : Z) (st : Z * Z)
    : option (Z * Z) :=
  match score i with
  | Some tmp =>
      if decide (st.1 ≤ tmp) then Some (tmp, size_t (i - 1)) else Some st
  | None => None
  end.

(** What one thread does: [None] is an access outside an array,
    [Some None] a thread that fails the boundary guard and writes
    nothing, [Some (Some (dPos, v))] the write [*(d_dest + dPos) = v]. *)
Definition crossCorrelationKernel (d_src1 d_src2 : list Z)
    (kernel_size matrix_src_rows matrix_src_cols : Z)
    (blockDim blockIdx threadIdx : dim3) : option (option (Z * Z)) :=
  let shift_on_axis := kernel_size / 2 in
  let dRow := uint (uint (y blockDim * y blockIdx) + y threadIdx) in
  let dCol := uint (uint (x blockDim * x blockIdx) + x threadIdx) in
  let sRow := size_t (dRow + shift_on_axis) in
  let sCol := size_t (dCol + shift_on_axis) in
  let matrix_dest_cols := size_t (matrix_src_cols - size_t (kernel_size - 1)) in
  let matrix_dest_rows := size_t (matrix_src_rows - size_t (kernel_size - 1)) in
  let dPos := size_t (size_t (dRow * matrix_dest_cols) + dCol) in
  if decide (dRow < matrix_dest_rows ∧ dCol < matrix_dest_cols) then
    match
      for_lt shift_on_axis (size_t (matrix_src_cols - shift_on_axis))
        (search_step
           (window_sum d_src1 d_src2 matrix_src_cols shift_on_axis sRow sCol))
        (0, 0)
    with
    | Some (_, max_idx) => Some (Some (dPos, castT sizeofT max_idx))
    | None => None
    end
  else Some None.

End Kernel.

(** ** The shared-memory kernel

    The threads of a block first copy rows of the sources into the
    dynamic shared array [d_shmem] (staging), meet at [__syncthreads()],
    and then search as the direct kernel does, reading the shared copies.
    A shared cell is [None] until it is written.  Between the barrier and
    the search one thread of the grid prints both shared arrays with
    [printf]; the text goes to the device's standard output, which is not
    part of a thread's result, but the reads are. *)

Section SharedKernel.

Variable sizeofT : Z.
Variables d_src1 d_src2 : list Z.
Variables kernel_size matrix_src_rows matrix_src_cols : Z.
(** The third launch parameter: the size of [d_shmem], in bytes. *)
Variable shared : Z.
Variables blockDim blockIdx : dim3.

(** [&d_shmem[(blockDim.y + (2 * (kernel_size / 2))) * matrix_src_cols]],
    as an index into [d_shmem]; [d_shmem1] is at index 0. *)
Definition d_shmem2 : Z :=
  size_t (size_t (y blockDim + size_t (2 * (kernel_size / 2))) * matrix_src_cols).

(** [*(d_shmem + idx) = v], by one thread. *)
Definition store_shared (shmem : list (option Z)) (idx v : Z)
    : option (list (option Z)) :=
  if decide (0 ≤ idx < Z.of_nat (length shmem))
  then Some (<[Z.to_nat idx := Some v]> shmem) else None.

Section Thread.

Variable threadIdx : dim3.

Definition sRow : Z := uint (uint (y blockDim * y blockIdx) + y threadIdx).
Definition sCol : Z := uint (uint (x blockDim * x blockIdx) + x threadIdx).

(** [int((float(matrix_src_cols - 1) / blockDim.x) + 1)]. *)
Definition column_steps : Z :=
  Ftrunc (Fplus (Fdiv (float_of_Z (size_t (matrix_src_cols - 1)))
                      (float_of_Z (x blockDim)))
                (float_of_Z 1)).

(** The copy loop that staging repeats,
    [for (i = 0; i < column_steps && (i * blockDim.x) + threadIdx.x < matrix_src_cols; i++)],
    copying one element of each source per step; [to] and [from] are the
    terms its body adds to the shared and to the global index. *)
Definition copy_columns (to from : Z) (shmem : list (option Z))
    : option (list (option Z)) :=
  while_loop
    (λ i, bool_decide (size_t (size_t (i * x blockDim) + x threadIdx) < matrix_src_cols))
    (λ i shmem,
       let col := size_t (size_t (i * x blockDim) + x threadIdx) in
       let s := col + size_t (y threadIdx * matrix_src_cols) + to in
       let g := col + size_t (sRow * matrix_src_cols) + from in
       match load d_src1 g, load d_src2 g with
       | Some v1, Some v2 =>
           match store_shared shmem s v1 with
           | Some shmem' => store_shared shmem' (d_shmem2 + s) v2
           | None => None
           end
       | _, _ => None
       end)
    0 (Z.to_nat column_steps) shmem.

(** The staging code of one thread, starting from shared memory [shmem]. *)
Definition stage (shmem : list (option Z)) : option (list (option Z)) :=
  if decide (x blockIdx = 0) then
    match copy_columns 0 0 shmem with
    | Some shmem =>
        if decide (x threadIdx = uint (y blockDim - 1)) then
          for_le 1 (kernel_size / 2)
            (λ j shmem,
               copy_columns (size_t (j * matrix_src_cols))
                            (size_t (j * matrix_src_cols)) shmem)
            shmem
        else Some shmem
    | None => None
    end
  else if decide (x blockIdx = uint (x blockDim - 1)) then
    match
      if decide (x threadIdx = 0) then
        (* for (j = 0, k = (blockDim.x - 1) - (kernel_size / 2);
                j < kernel_size / 2 && k <= kernel_size / 2; j++, k++) *)
        let k0 := size_t (uint (x blockDim - 1) - kernel_size / 2) in
        while_loop (λ j, bool_decide (k0 + j ≤ kernel_size / 2))
          (λ j shmem,
             copy_columns 0 (size_t ((k0 + j) * matrix_src_cols)) shmem)
          0 (Z.to_nat (kernel_size / 2)) shmem
      else Some shmem
    with
    | Some shmem =>
        copy_columns (size_t (kernel_size / 2 * matrix_src_cols))
                     (size_t ((kernel_size / 2 + 1) * matrix_src_cols)) shmem
    | None => None
    end
  else Some shmem.

(** A read of the shared array: [None] outside it or at a cell nobody
    wrote. *)
Definition load_shared (shmem : list (option Z)) (idx : Z) : option Z :=
  if decide (0 ≤ idx) then mjoin (shmem !! Z.to_nat idx) else None.

Definition accumulate_shared (shmem : list (option Z)) (i1 i2 : Z) (tmp : Z)
    : option Z :=
  match load_shared shmem i1, load_shared shmem (d_shmem2 + i2) with
  | Some a, Some b => Some (castT sizeofT (tmp + a * b))
  | _, _ => None
  end.

Definition window_sum_shared (shmem : list (option Z)) (shift_on_axis i : Z)
    : option Z :=
  for_lt 0 (y blockDim)
    (λ j tmp,
       for_le (size_t (sCol - shift_on_axis)) (size_t (sCol + shift_on_axis))
         (λ l tmp,
            let k := l - size_t (sCol - shift_on_axis) in
            accumulate_shared shmem
              (src1_index matrix_src_cols shift_on_axis i j k)
              (src2_index matrix_src_cols j l) tmp)
         tmp)
    0.

(** [printf("%d ", p[(i * matrix_src_cols) + j])] for every [i] below
    [blockDim.y + 2 * (kernel_size / 2)] and every [j] below
    [matrix_src_cols], where [p] is [d_shmem + base]: the values printed,
    after [out]. *)
Definition dump_rows (shmem : list (option Z)) (base : Z) (out : list Z)
    : option (list Z) :=
  for_lt 0 (size_t (y blockDim + size_t (2 * (kernel_size / 2))))
    (λ i out,
       for_lt 0 matrix_src_cols
         (λ j out,
            match load_shared shmem (base + size_t (size_t (i * matrix_src_cols) + j)) with
            | Some v => Some (out ++ [v])
            | None => None
            end)
         out)
    out.

(** The dump of [d_shmem1] and [d_shmem2], which the thread (0, 0) of the
    block (1, 0) makes after [__syncthreads()]. *)
Definition dump (shmem : list (option Z)) : option (list Z) :=
  if decide (x blockIdx = 1 ∧ y blockIdx = 0 ∧ y threadIdx = 0 ∧ x threadIdx = 0) then
    match dump_rows shmem 0 [] with
    | Some out => dump_rows shmem d_shmem2 out
    | None => None
    end
  else Some [].

(** The code of one thread after the dump: the guard and the search. *)
Definition search (shmem : list (option Z)) : option (option (Z * Z)) :=
  let shift_on_axis := kernel_size / 2 in
  let dRow := size_t (sRow - shift_on_axis) in
  let dCol := size_t (sCol - shift_on_axis) in
  let matrix_dest_cols := size_t (matrix_src_cols - size_t (kernel_size - 1)) in
  let matrix_dest_rows := size_t (matrix_src_rows - size_t (kernel_size - 1)) in
  let dPos := size_t (size_t (dRow * matrix_dest_cols) + dCol) in
  if decide (sRow ≤ matrix_dest_rows ∧ sCol ≤ matrix_dest_cols
             ∧ shift_on_axis ≤ sRow ∧ shift_on_axis ≤ sCol) then
    match
      for_lt shift_on_axis (size_t (matrix_src_cols - shift_on_axis))
        (search_step (window_sum_shared shmem shift_on_axis)) (0, 0)
    with
    | Some (_, max_idx) => Some (Some (dPos, castT sizeofT max_idx))
    | None => None
    end
  else Some None.

End Thread.

(** Two threads of a block that stage different values into one shared
    cell race; the merge of their writes is then undefined. *)
Fixpoint merge_shared (a b : list (option Z)) : option (list (option Z)) :=
  match a, b with
  | [], [] => Some []
  | va :: a', vb :: b' =>
      match merge_shared a' b' with
      | Some r =>
          match va, vb with
          | Some u, Some v => if decide (u = v) then Some (va :: r) else None
          | Some _, None => Some (va :: r)
          | None, _ => Some (vb :: r)
          end
      | None => None
      end
  | _, _ => None
  end.

(** The shared array at [__syncthreads()]: every thread of the block has
    staged, each from the fresh array. *)
Fixpoint stage_block (ts : list dim3) (shmem : list (option Z))
    : option (list (option Z)) :=
  match ts with
  | [] => Some shmem
  | t :: ts' =>
      match stage t (replicate (length shmem) None) with
      | Some mine =>
          match merge_shared shmem mine with
          | Some shmem' => stage_block ts' shmem'
          | None => None
          end
      | None => None
      end
  end.

Definition block_threads : list dim3 :=
  tiy ← seqZ 0 (y blockDim); tix ← seqZ 0 (x blockDim); [Dim3 tix tiy].

Definition sharedMemoryCrossCorrelationKernel (threadIdx : dim3)
    : option (option (Z * Z)) :=
  match stage_block block_threads (replicate (Z.to_nat (shared / sizeofT)) None) with
  | Some shmem =>
      match dump threadIdx shmem with
      | Some _ => search threadIdx shmem
      | None => None
      end
  | None => None
  end.

End SharedKernel.


(** ** Kernel launches

    [kernel<<<dimGrid, dimBlock>>>(...)] runs the kernel once per thread.
    A thread of these kernels reads the sources and writes at most one
    cell of the destination, so a launch is the list of the threads'
    writes, applied to the destination buffer.  A cell of a device buffer
    is [None] until it is written (fresh device memory holds no defined
    value). *)

Definition threads (dimGrid dimBlock : dim3) : list (dim3 * dim3) :=
  biy ← seqZ 0 (y dimGrid);
  bix ← seqZ 0 (x dimGrid);
  tiy ← seqZ 0 (y dimBlock);
  tix ← seqZ 0 (x dimBlock);
  [(Dim3 bix biy, Dim3 tix tiy)].

(** The writes of the threads, in launch order; [None] when a thread
    makes an access outside an array. *)
Fixpoint collect_writes (rs : list (option (option (Z * Z))))
    : option (list (Z * Z)) :=
  match rs with
  | [] => Some []
  | None :: _ => None
  | Some None :: rs' => collect_writes rs'
  | Some (Some w) :: rs' =>
      match collect_writes rs' with
      | Some ws => Some (w :: ws)
      | None => None
      end
  end.

Definition launch_writes (kernel : dim3 → dim3 → dim3 → option (option (Z * Z)))
    (dimGrid dimBlock : dim3) : option (list (Z * Z)) :=
  collect_writes
    (map (λ t : dim3 * dim3, kernel dimBlock t.1 t.2) (threads dimGrid dimBlock)).

(** [*(d_dest + dPos) = v]: [None] outside the allocation. *)
Definition store (mem : list (option Z)) (w : Z * Z) : option (list (option Z)) :=
  if decide (0 ≤ w.1 < Z.of_nat (length mem)) then Some (<[Z.to_nat w.1 := Some w.2]> mem)
  else None.

Fixpoint store_all (mem : list (option Z)) (ws : list (Z * Z))
    : option (list (option Z)) :=
  match ws with
  | [] => Some mem
  | w :: ws' =>
      match store mem w with
      | Some mem' => store_all mem' ws'
      | None => None
      end
  end.

Definition run_grid (kernel : dim3 → dim3 → dim3 → option (option (Z * Z)))
    (dimGrid dimBlock : dim3) (d_dest : list (option Z))
    : option (list (option Z)) :=
  match launch_writes kernel dimGrid dimBlock with
  | Some ws => store_all d_dest ws
  | None => None
  end.

(** ** The host process

    A host function runs against the CUDA runtime, which decides the
    status of every call: [rt n] is the [cudaError_t] the [n]-th runtime
    call of the process returns.  The process state is the trace of the
    calls made so far, each with its status, and what was sent to
    [std::cerr]. *)

Inductive call :=
  | cudaMalloc_call (size : Z)
  | cudaMemcpy_call (size : Z)
  | launch_call (dimGrid dimBlock : dim3) (shared : Z)
  | cudaDeviceSynchronize_call
  | cudaFree_call
  | cudaEvent_call.

(** What is sent to a stream with [<<]. *)
Inductive item :=
  | Str (s : string)
  | Newline
  | ErrorString (err : Z)     (* cudaGetErrorString(err) *)
  | File                      (* __FILE__ *)
  | Int (n : Z)
  | Endl.

Record process := Process { trace : list (call * Z); stderr : list item }.

Inductive result (A : Type) :=
  | Returned (a : A)
  | Exited (status : Z)        (* exit(status) *)
  | Undefined.                 (* an access outside an array *)
Arguments Returned {A} a.
Arguments Exited {A} status.
Arguments Undefined {A}.

Definition M (A : Type) : Type := process → result A * process.

Definition ret {A} (a : A) : M A := λ p, (Returned a, p).

Definition bind {A B} (m : M A) (f : A → M B) : M B :=
  λ p, match m p with
       | (Returned a, p') => f a p'
       | (Exited st, p') => (Exited st, p')
       | (Undefined, p') => (Undefined, p')
       end.

Declare Scope host_scope.
Delimit Scope host_scope with host.
Notation "x <- m ;; k" := (bind m (λ x, k))
  (at level 100, m at next level, right associativity) : host_scope.
Notation "m ;; k" := (bind m (λ _, k))
  (at level 100, right associativity) : host_scope.

Definition exit {A} (status : Z) : M A := λ p, (Exited status, p).
Definition undefined {A} : M A := λ p, (Undefined, p).

Definition cerr (out : list item) : M unit :=
  λ p, (Returned (), Process (trace p) (stderr p ++ out)).

Definition cudaSuccess : Z := 0.
Definition EXIT_FAILURE : Z := 1.

(** [checkCudaError(err, func, line)]; the callers pass [__LINE__], the
    line of the call in cuda_cross_correlation.cuh. *)
Definition checkCudaError (err : Z) (func : string) (line : Z) : M unit :=
  if decide (err ≠ cudaSuccess) then
    (cerr [Endl; Str func; Str " error!"; Newline; Str "Error → ";
           ErrorString err; Newline; Str "File → "; File; Newline;
           Str "Line → "; Int line; Endl] ;;
     exit EXIT_FAILURE)%host
  else ret ().

Section Host.

Variable rt : nat → Z.
Variable sizeofT : Z.

(** A runtime call: it is appended to the trace with the status the
    runtime gives it. *)
Definition api (c : call) : M Z :=
  λ p, let err := rt (length (trace p)) in
       (Returned err, Process (trace p ++ [(c, err)]) (stderr p)).

(** [cudaMalloc(&d, size)]: a fresh buffer of [size] bytes. *)
Definition cudaMalloc (size : Z) : M (list (option Z) * Z) :=
  (err <- api (cudaMalloc_call size) ;;
   ret (if decide (err = cudaSuccess)
        then replicate (Z.to_nat (size / sizeofT)) None else [], err))%host.

(** [cudaMemcpy(d, h, size, cudaMemcpyHostToDevice)] into a buffer that was
    allocated with the same [size]. *)
Definition cudaMemcpyHostToDevice (h : list Z) (size : Z) : M (list Z * Z) :=
  (err <- api (cudaMemcpy_call size) ;;
   if decide (err = cudaSuccess) then
     if decide (size / sizeofT ≤ Z.of_nat (length h))
     then ret (take (Z.to_nat (size / sizeofT)) h, err)
     else undefined
   else ret ([], err))%host.

(** [cudaMemcpy(h, d, size, cudaMemcpyDeviceToHost)]: what arrives in the
    first [size] bytes of the host array. *)
Definition cudaMemcpyDeviceToHost (d : list (option Z)) (size : Z)
    : M (list (option Z) * Z) :=
  (err <- api (cudaMemcpy_call size) ;;
   if decide (err = cudaSuccess) then
     if decide (size / sizeofT ≤ Z.of_nat (length d))
     then ret (take (Z.to_nat (size / sizeofT)) d, err)
     else undefined
   else ret ([], err))%host.

(** A launch whose status is not [cudaSuccess] runs no thread. *)
Definition launch (kernel : dim3 → dim3 → dim3 → option (option (Z * Z)))
    (dimGrid dimBlock : dim3) (shared : Z) (d_dest : list (option Z))
    : M (list (option Z)) :=
  (err <- api (launch_call dimGrid dimBlock shared) ;;
   if decide (err = cudaSuccess) then
     match run_grid kernel dimGrid dimBlock d_dest with
     | Some d => ret d
     | None => undefined
     end
   else ret d_dest)%host.

(** The locals every orchestration function starts with. *)
Definition src_size (matrix_rows matrix_cols : Z) : Z :=
  size_t (size_t (matrix_rows * matrix_cols) * sizeofT).

Definition dest_rows (kernel_size matrix_rows : Z) : float :=
  float_of_Z (size_t (matrix_rows - size_t (kernel_size - 1))).

Definition dest_cols (kernel_size matrix_cols : Z) : float :=
  float_of_Z (size_t (matrix_cols - size_t (kernel_size - 1))).

Definition dest_size (kernel_size matrix_rows matrix_cols : Z) : Z :=
  size_t (Ftrunc (Fmult (Fmult (dest_rows kernel_size matrix_rows)
                               (dest_cols kernel_size matrix_cols))
                        (float_of_Z sizeofT))).

(** [dim3 dimGrid(ceil(dest_cols / block_dim_y), ceil(dest_rows / block_dim_x), 1)]. *)
Definition dimGrid (kernel_size matrix_rows matrix_cols block_dim_x block_dim_y : Z)
    : dim3 :=
  Dim3 (uint (Fceil (Fdiv (dest_cols kernel_size matrix_cols) (float_of_Z block_dim_y))))
       (uint (Fceil (Fdiv (dest_rows kernel_size matrix_rows) (float_of_Z block_dim_x)))).

(** [dim3 dimBlock(block_dim_y, block_dim_x, 1)]. *)
Definition dimBlock (block_dim_x block_dim_y : Z) : dim3 :=
  Dim3 (uint block_dim_y) (uint block_dim_x).

Local Open Scope host_scope.

Definition crossCorrelation (h_src1 h_src2 : list Z)
    (kernel_size matrix_rows matrix_cols block_dim_x block_dim_y : Z)
    : M (list (option Z)) :=
  let src_size := src_size matrix_rows matrix_cols in
  let dest_size := dest_size kernel_size matrix_rows matrix_cols in
  let dimGrid := dimGrid kernel_size matrix_rows matrix_cols block_dim_x block_dim_y in
  let dimBlock := dimBlock block_dim_x block_dim_y in
  r <- cudaMalloc src_size ;;
  checkCudaError r.2 "cudaMalloc" 165 ;;
  r <- cudaMemcpyHostToDevice h_src1 src_size ;;
  let d_src1 := r.1 in
  checkCudaError r.2 "cudaMemcpy" 168 ;;
  r <- cudaMalloc src_size ;;
  checkCudaError r.2 "cudaMalloc" 171 ;;
  r <- cudaMemcpyHostToDevice h_src2 src_size ;;
  let d_src2 := r.1 in
  checkCudaError r.2 "cudaMemcpy" 174 ;;
  r <- cudaMalloc dest_size ;;
  let d_dest := r.1 in
  checkCudaError r.2 "cudaMalloc" 177 ;;
  d_dest <- launch (crossCorrelationKernel sizeofT d_src1 d_src2
                      kernel_size matrix_rows matrix_cols)
              dimGrid dimBlock 0 d_dest ;;
  api cudaDeviceSynchronize_call ;;
  r <- cudaMemcpyDeviceToHost d_dest dest_size ;;
  let h_dest := r.1 in
  checkCudaError r.2 "cudaMemcpy" 184 ;;
  api cudaFree_call ;; api cudaFree_call ;; api cudaFree_call ;;
  ret h_dest.

(** [dim3 dimGrid(ceil(float(matrix_cols) / block_dim_y), ceil(float(matrix_rows) / block_dim_x), 1)]
    of [sharedMemoryCrossCorrelation]. *)
Definition sharedMemory_dimGrid (matrix_rows matrix_cols block_dim_x block_dim_y : Z)
    : dim3 :=
  Dim3 (uint (Fceil (Fdiv (float_of_Z matrix_cols) (float_of_Z block_dim_y))))
       (uint (Fceil (Fdiv (float_of_Z matrix_rows) (float_of_Z block_dim_x)))).

Definition sharedMemoryCrossCorrelation (h_src1 h_src2 : list Z)
    (kernel_size matrix_rows matrix_cols block_dim_x block_dim_y : Z)
    : M (list (option Z)) :=
  let src_size := src_size matrix_rows matrix_cols in
  let dest_size := dest_size kernel_size matrix_rows matrix_cols in
  let dimGrid := sharedMemory_dimGrid matrix_rows matrix_cols block_dim_x block_dim_y in
  let dimBlock := dimBlock block_dim_x block_dim_y in
  let shared :=
    size_t (size_t (2 * size_t (size_t (block_dim_y + size_t (2 * (kernel_size / 2)))
                                * matrix_cols)) * sizeofT) in
  r <- cudaMalloc src_size ;;
  checkCudaError r.2 "cudaMalloc" 388 ;;
  r <- cudaMemcpyHostToDevice h_src1 src_size ;;
  let d_src1 := r.1 in
  checkCudaError r.2 "cudaMemcpy" 391 ;;
  r <- cudaMalloc src_size ;;
  checkCudaError r.2 "cudaMalloc" 394 ;;
  r <- cudaMemcpyHostToDevice h_src2 src_size ;;
  let d_src2 := r.1 in
  checkCudaError r.2 "cudaMemcpy" 397 ;;
  r <- cudaMalloc dest_size ;;
  let d_dest := r.1 in
  checkCudaError r.2 "cudaMalloc" 400 ;;
  d_dest <- launch (sharedMemoryCrossCorrelationKernel sizeofT d_src1 d_src2
                      kernel_size matrix_rows matrix_cols shared)
              dimGrid dimBlock shared d_dest ;;
  api cudaDeviceSynchronize_call ;;
  r <- cudaMemcpyDeviceToHost d_dest dest_size ;;
  let h_dest := r.1 in
  checkCudaError r.2 "cudaMemcpy" 407 ;;
  api cudaFree_call ;; api cudaFree_call ;; api cudaFree_call ;;
  ret h_dest.

(** The timed variants bracket part of the work with two events and
    return the elapsed time the runtime measures, [elapsedTime]. *)
Variable elapsedTime : float.

Definition crossCorrelationTimeWithAllocation (h_src1 h_src2 : list Z)
    (kernel_size matrix_rows matrix_cols dim_block_x dim_block_y : Z)
    : M (list (option Z) * float) :=
  let src_size := src_size matrix_rows matrix_cols in
  let dest_size := dest_size kernel_size matrix_rows matrix_cols in
  let dimGrid := dimGrid kernel_size matrix_rows matrix_cols dim_block_x dim_block_y in
  let dimBlock := dimBlock dim_block_x dim_block_y in
  r <- cudaMalloc src_size ;;
  checkCudaError r.2 "cudaMalloc" 455 ;;
  r <- cudaMalloc src_size ;;
  checkCudaError r.2 "cudaMalloc" 458 ;;
  r <- cudaMalloc dest_size ;;
  let d_dest := r.1 in
  checkCudaError r.2 "cudaMalloc" 461 ;;
  api cudaEvent_call ;; api cudaEvent_call ;;        (* cudaEventCreate *)
  api cudaEvent_call ;;                              (* cudaEventRecord *)
  r <- cudaMemcpyHostToDevice h_src1 src_size ;;
  let d_src1 := r.1 in
  checkCudaError r.2 "cudaMemcpy" 474 ;;
  r <- cudaMemcpyHostToDevice h_src2 src_size ;;
  let d_src2 := r.1 in
  checkCudaError r.2 "cudaMemcpy" 477 ;;
  d_dest <- launch (crossCorrelationKernel sizeofT d_src1 d_src2
                      kernel_size matrix_rows matrix_cols)
              dimGrid dimBlock 0 d_dest ;;
  r <- cudaMemcpyDeviceToHost d_dest dest_size ;;
  let h_dest := r.1 in
  checkCudaError r.2 "cudaMemcpy" 482 ;;
  api cudaEvent_call ;;                              (* cudaEventRecord *)
  api cudaEvent_call ;;                              (* cudaEventSynchronize *)
  api cudaEvent_call ;;                              (* cudaEventElapsedTime *)
  api cudaEvent_call ;; api cudaEvent_call ;;        (* cudaEventDestroy *)
  api cudaFree_call ;; api cudaFree_call ;; api cudaFree_call ;;
  ret (h_dest, elapsedTime).

Definition crossCorrelationTimeWithoutAllocation (h_src1 h_src2 : list Z)
    (kernel_size matrix_rows matrix_cols dim_block_x dim_block_y : Z)
    : M (list (option Z) * float) :=
  let src_size := src_size matrix_rows matrix_cols in
  let dest_size := dest_size kernel_size matrix_rows matrix_cols in
  let dimGrid := dimGrid kernel_size matrix_rows matrix_cols dim_block_x dim_block_y in
  let dimBlock := dimBlock dim_block_x dim_block_y in
  r <- cudaMalloc src_size ;;
  checkCudaError r.2 "cudaMalloc" 542 ;;
  r <- cudaMemcpyHostToDevice h_src1 src_size ;;
  let d_src1 := r.1 in
  checkCudaError r.2 "cudaMemcpy" 545 ;;
  r <- cudaMalloc src_size ;;
  checkCudaError r.2 "cudaMalloc" 548 ;;
  r <- cudaMemcpyHostToDevice h_src2 src_size ;;
  let d_src2 := r.1 in
  checkCudaError r.2 "cudaMemcpy" 551 ;;
  r <- cudaMalloc dest_size ;;
  let d_dest := r.1 in
  checkCudaError r.2 "cudaMalloc" 554 ;;
  api cudaEvent_call ;; api cudaEvent_call ;;        (* cudaEventCreate *)
  api cudaEvent_call ;;                              (* cudaEventRecord *)
  d_dest <- launch (crossCorrelationKernel sizeofT d_src1 d_src2
                      kernel_size matrix_rows matrix_cols)
              dimGrid dimBlock 0 d_dest ;;
  api cudaEvent_call ;;                              (* cudaEventRecord *)
  api cudaEvent_call ;;                              (* cudaEventSynchronize *)
  api cudaEvent_call ;;                              (* cudaEventElapsedTime *)
  r <- cudaMemcpyDeviceToHost d_dest dest_size ;;
  let h_dest := r.1 in
  checkCudaError r.2 "cudaMemcpy" 574 ;;
  api cudaEvent_call ;; api cudaEvent_call ;;        (* cudaEventDestroy *)
  api cudaFree_call ;; api cudaFree_call ;; api cudaFree_call ;;
  ret (h_dest, elapsedTime).

End Host.

(** ** The benchmark programs (benchmark.cu, standard_formats_benchmark.cu)

    Each [main] sweeps matrix sizes, block sizes and window sizes and
    calls [benchmark<uint8_t>] (benchmark.hpp) once per combination.  A
    program is modelled by the arguments of these calls, in order (each
    call is taken to return), as a
    function of [max_thread_per_block], the integer part of the square
    root of the device's [maxThreadsPerBlock].  The banner printed after
    each call depends on no variable and is left out. *)

Record benchmark_args := BenchmarkArgs {
  b_rows : Z;
  b_cols : Z;
  b_kernel_size : Z;
  b_block_dim_x : Z;
  b_block_dim_y : Z;
  b_folder : string;
  b_iterations : Z
}.

(** [for (size_t v = init; cond v; v = next v) body], collecting the calls
    of the iterations; [None] when [fuel] iterations do not end the
    loop. *)
Fixpoint for_each (fuel : nat) (cond : Z → bool) (next : Z → Z) (v : Z)
    (body : Z → option (list benchmark_args)) : option (list benchmark_args) :=
  match fuel with
  | O => None
  | S fuel' =>
      if cond v then
        match body v with
        | Some l =>
            match for_each fuel' cond next (next v) body with
            | Some l' => Some (l ++ l')
            | None => None
            end
        | None => None
        end
      else Some []
  end.

(** A doubling [size_t] counter is 0 after 64 steps and stays 0, and the
    window size stops at [KERNEL_SIZE_MAX]: a loop of these programs that
    has not ended after 65 iterations does not end. *)
Definition loop_fuel : nat := 65.

Module benchmark.

Definition MIN_SIZE : Z := 32.
Definition MAX_SIZE : Z := 512.
Definition KERNEL_SIZE_MIN : Z := 3.
Definition KERNEL_SIZE_MAX : Z := 11.
Definition BLOCK_DIM_MIN : Z := 8.
Definition ITERATIONS : Z := 10.

Definition main (max_thread_per_block : Z) : option (list benchmark_args) :=
  for_each loop_fuel (λ rows_cols, bool_decide (rows_cols ≤ MAX_SIZE))
    (λ rows_cols, size_t (rows_cols * 2)) MIN_SIZE
    (λ rows_cols,
       for_each loop_fuel
         (λ block_dim_x_y,
            bool_decide (block_dim_x_y ≤ rows_cols)
            && bool_decide (block_dim_x_y ≤ max_thread_per_block))
         (λ block_dim_x_y, size_t (block_dim_x_y * 2)) BLOCK_DIM_MIN
         (λ block_dim_x_y,
            for_each loop_fuel
              (λ kernel_size,
                 bool_decide (kernel_size ≤ rows_cols)
                 && bool_decide (kernel_size ≤ KERNEL_SIZE_MAX))
              (λ kernel_size, size_t (kernel_size + 2)) KERNEL_SIZE_MIN
              (λ kernel_size,
                 Some [BenchmarkArgs rows_cols rows_cols kernel_size
                         block_dim_x_y block_dim_x_y
                         "results/32-512_formats" ITERATIONS]))).

End benchmark.

(** [for (auto format : form)]. *)
Fixpoint for_formats (form : list (Z * Z))
    (body : Z * Z → option (list benchmark_args)) : option (list benchmark_args) :=
  match form with
  | [] => Some []
  | format :: form' =>
      match body format with
      | Some l =>
          match for_formats form' body with
          | Some l' => Some (l ++ l')
          | None => None
          end
      | None => None
      end
  end.

Module standard_formats_benchmark.

Definition KERNEL_SIZE_MIN : Z := 3.
Definition KERNEL_SIZE_MAX : Z := 11.
Definition BLOCK_DIM_MIN : Z := 8.
Definition ITERATIONS : Z := 5.

(** [form] holds the [(getRows(), getCols())] of the formats, which are
    defined outside this program. *)
Definition main (form : list (Z * Z)) (max_thread_per_block : Z)
    : option (list benchmark_args) :=
  for_formats form
    (λ format,
       let rows := format.1 in
       let cols := format.2 in
       for_each loop_fuel
         (λ block_dim_x_y,
            bool_decide (block_dim_x_y ≤ rows) && bool_decide (block_dim_x_y ≤ cols)
            && bool_decide (block_dim_x_y ≤ max_thread_per_block))
         (λ block_dim_x_y, size_t (block_dim_x_y * 2)) BLOCK_DIM_MIN
         (λ block_dim_x_y,
            for_each loop_fuel
              (λ kernel_size,
                 bool_decide (kernel_size ≤ rows) && bool_decide (kernel_size ≤ cols)
                 && bool_decide (kernel_size ≤ KERNEL_SIZE_MAX))
              (λ kernel_size, size_t (kernel_size + 2)) KERNEL_SIZE_MIN
              (λ kernel_size,
                 Some [BenchmarkArgs rows cols kernel_size
                         block_dim_x_y block_dim_x_y
                         "results/standard_formats" ITERATIONS]))).

End standard_formats_benchmark.

(** ** The object points of the calibration (calibration.cpp) *)

(** [cv::Point3f]. *)
Record Point3f := Point3f_ { p_x : float; p_y : float; p_z : float }.

(** The world coordinates of the checkerboard corners, as
    [calibrateSingleCamera] builds them before it reads any image:
    [for (int i{0}; i < CHECKERBOARD[1]; i++)
       for (int j{0}; j < CHECKERBOARD[0]; j++)
         objp.push_back(cv::Point3f(j, i, 0));]
    with [CHECKERBOARD = {checkerboard_rows, checkerboard_cols}].  The
    counters are not negative and are converted to [float]. *)
Definition objp (checkerboard_rows checkerboard_cols : Z) : option (list Point3f) :=
  for_lt 0 checkerboard_cols
    (λ i objp,
       for_lt 0 checkerboard_rows
         (λ j objp,
            Some (objp ++ [Point3f_ (float_of_Z j) (float_of_Z i) (float_of_Z 0)]))
         objp)
    [].

(** ** The vocabulary of the statements *)

(** The preconditions of the orchestration functions: an odd window
    of size at least 3 that fits the sources. *)
Definition valid_input (kernel_size rows cols : Z) : Prop :=
  Z.odd kernel_size = true ∧ 3 ≤ kernel_size
  ∧ kernel_size ≤ rows ∧ kernel_size ≤ cols.

(** [m[r, c]] of a row-major matrix with [cols] columns. *)
Definition pixel (m : list Z) (cols r c : Z) : Z :=
  default 0 (m !! Z.to_nat (r * cols + c)).

(** [Σ_{v = from}^{from + n - 1} f v]. *)
Fixpoint sumZ (from : Z) (n : nat) (f : Z → Z) : Z :=
  match n with
  | O => 0
  | S n' => f from + sumZ (from + 1) n' f
  end.

(** The windowed dot product of offset [i] for the destination cell
    [(r, c)]: the window of [A] starts at column [i - k/2], the window of
    [B] at column [c], both at row [r]. *)
Definition correlation (A B : list Z) (cols k r c i : Z) : Z :=
  sumZ r (Z.to_nat k) (λ j,
    sumZ 0 (Z.to_nat k) (λ m,
      pixel A cols j (m + (i - k / 2)) * pixel B cols j (c + m))).

(** The score as the kernel holds it, in a variable of type [T]. *)
Definition score (sizeofT : Z) (A B : list Z) (cols k r c i : Z) : Z :=
  castT sizeofT (correlation A B cols k r c i).

(** [i] is the last offset of [[lo, hi)] whose score is the greatest. *)
Definition last_argmax (f : Z → Z) (lo hi i : Z) : Prop :=
  lo ≤ i < hi
  ∧ (∀ i', lo ≤ i' < hi → f i' ≤ f i)
  ∧ (∀ i', i < i' < hi → f i' < f i).

(** The search loop on total scores: the state [(max, max_idx)] after the
    offsets [from, from + 1, ..., from + n - 1]. *)
Fixpoint scan (f : Z → Z) (from : Z) (n : nat) (st : Z * Z) : Z * Z :=
  match n with
  | O => st
  | S n' =>
      scan f (from + 1) n'
        (if decide (st.1 ≤ f from) then (f from, size_t (from - 1)) else st)
  end.

(** The value the direct kernel stores in the destination cell [(r, c)]. *)
Definition cell_value (sizeofT : Z) (A B : list Z) (k cols r c : Z) : Z :=
  castT sizeofT
    (scan (score sizeofT A B cols k r c) (k / 2)
       (Z.to_nat (cols - k / 2 - k / 2)) (0, 0)).2.

(** The float of an integer [0 ≤ n < 2^24], as [float_round] builds it. *)
Definition Fint (n : Z) : float :=
  if decide (n ≤ 0) then Float 0 0
  else Float (n * 2 ^ (23 - Z.log2 n)) (Z.log2 n - 23).

(** The write of the thread [t] of a kernel that stores [val r c] in the
    cell [(r, c)] of a [dr × dc] destination, for blocks of [bx × by_]
    threads. *)
Definition thread_write (val : Z → Z → Z) (dr dc bx by_ : Z) (t : dim3 * dim3)
    : option (Z * Z) :=
  let r := by_ * y t.1 + y t.2 in
  let c := bx * x t.1 + x t.2 in
  if decide (r < dr ∧ c < dc) then Some (r * dc + c, val r c) else None.

(** The destination matrix of the direct kernel, row-major. *)
Definition destination (sizeofT : Z) (A B : list Z) (k rows cols : Z)
    : list (option Z) :=
  (λ p, Some (cell_value sizeofT A B k cols
                (p / (cols - (k - 1))) (p mod (cols - (k - 1)))))
  <$> seqZ 0 ((rows - (k - 1)) * (cols - (k - 1))).

(** The row and the column of a thread in the grid. *)
Definition global_row (blockDim blockIdx threadIdx : dim3) : Z :=
  uint (uint (y blockDim * y blockIdx) + y threadIdx).

Definition global_col (blockDim blockIdx threadIdx : dim3) : Z :=
  uint (uint (x blockDim * x blockIdx) + x threadIdx).

(** The score and the winning offset in the words of the specification:
    [score(i) = Σ_{j=r}^{r+k-1} Σ_{m=0}^{k-1} A[j, m + (i - shift)] · B[j, c - shift + m]],
    computed exactly, and the last offset in scan order whose score is
    greater than or equal to every score seen so far. *)
Definition claimed_score (A B : list Z) (cols k r c i : Z) : Z :=
  sumZ r (Z.to_nat k) (λ j,
    sumZ 0 (Z.to_nat k) (λ m,
      pixel A cols j (m + (i - k / 2)) * pixel B cols j (c - k / 2 + m))).

Fixpoint claimed_scan (f : Z → Z) (from : Z) (n : nat) (seen : list Z)
    (winner : Z) : Z :=
  match n with
  | O => winner
  | S n' =>
      claimed_scan f (from + 1) n' (f from :: seen)
        (if forallb (λ s, s <=? f from) seen then from else winner)
  end.

Definition claimed_offset (A B : list Z) (k cols r c : Z) : Z :=
  claimed_scan (claimed_score A B cols k r c) (k / 2)
    (Z.to_nat (cols - k / 2 - k / 2)) [] 0.

(** Two matrices agree away from the border: on every pixel at distance
    at least [shift] from the four edges. *)
Definition agree_inside (shift rows cols : Z) (m m' : list Z) : Prop :=
  ∀ r c, shift ≤ r < rows - shift → shift ≤ c < cols - shift →
         pixel m cols r c = pixel m' cols r c.

(** The sources of the example program (main.cu): 5 rows of 10. *)
Definition src3 : list Z :=
  [0; 0; 0; 0; 0; 0; 0; 0; 0; 0;
   0; 0; 0; 0; 0; 0; 1; 0; 0; 0;
   0; 0; 0; 0; 0; 0; 0; 0; 0; 0;
   0; 0; 0; 0; 0; 0; 0; 0; 0; 0;
   0; 0; 0; 0; 0; 0; 1; 0; 0; 0].

Definition src4 : list Z :=
  [1; 1; 1; 1; 1; 1; 0; 0; 0; 0;
   1; 1; 1; 0; 0; 0; 1; 0; 0; 0;
   1; 1; 1; 1; 1; 1; 0; 0; 0; 0;
   0; 0; 0; 0; 0; 0; 0; 0; 0; 0;
   1; 1; 1; 1; 1; 1; 1; 1; 1; 1].

(** An all-zero matrix of [n] elements. *)
Definition zeros (n : Z) : list Z := replicate (Z.to_nat n) 0.

(** An all-one matrix of [n] elements. *)
Definition ones (n : Z) : list Z := replicate (Z.to_nat n) 1.

(** A 3 × 5 matrix whose last column adds up to 256. *)
Definition heavy_column : list Z :=
  [1; 0; 0; 0; 128;
   0; 0; 0; 0; 128;
   0; 0; 0; 0; 0].

(** A matrix of [n] elements whose only non-zero element is a 1 at [at_]. *)
Definition one_at (n at_ : Z) : list Z := <[Z.to_nat at_ := 1]> (zeros n).

(** The same value in the Standard Library's specification of IEEE 754
    arithmetic, where binary32 is precision 24 with [emax = 128]. *)
Definition binary32_of_Z (n : Z) : spec_float :=
  binary_normalize 24 128 n 0 false.

Definition same_value (a : float) (b : spec_float) : bool :=
  match b with
  | S754_zero _ => bool_decide (Fnum a = 0)
  | S754_finite false m e =>
      let e0 := Z.min (Fexp a) e in
      bool_decide (Fnum a * 2 ^ (Fexp a - e0) = Z.pos m * 2 ^ (e - e0))
  | _ => false
  end.

(** Integers around the rounding boundaries of binary32. *)
Definition test_integers : list Z :=
  [0; 1; 2; 3; 5; 7; 8; 1024; 4097; 16777215; 16777216; 16777217;
   16777219; 16785409; 25165828; 33554433; 33554435; 123456789;
   4294967297; 18446744073709551615].

(** The process before the host function is called. *)
Definition start : process := Process [] [].

(** A runtime whose calls all succeed. *)
Definition ok : nat → Z := λ _, cudaSuccess.

(** [hoare P m Q E U]: from a state in [P], [m] returns [a] in a state in
    [Q a], exits with status [s] in a state in [E s], or is undefined in
    a state in [U]. *)
Definition hoare {A} (P : process → Prop) (m : M A)
    (Q : A → process → Prop) (E : Z → process → Prop) (U : process → Prop)
    : Prop :=
  ∀ p, P p →
    match m p with
    | (Returned a, p') => Q a p'
    | (Exited s, p') => E s p'
    | (Undefined, p') => U p'
    end.

(** The calls whose status the host functions pass to [checkCudaError],
    with the name they pass along. *)
Definition checked (c : call) : option string :=
  match c with
  | cudaMalloc_call _ => Some "cudaMalloc"%string
  | cudaMemcpy_call _ => Some "cudaMemcpy"%string
  | _ => None
  end.

(** What [checkCudaError] sends to [std::cerr]. *)
Definition diagnostic (func : string) (err line : Z) : list item :=
  [Endl; Str func; Str " error!"; Newline; Str "Error → "; ErrorString err;
   Newline; Str "File → "; File; Newline; Str "Line → "; Int line; Endl].

Definition all_checked_ok (tr : list (call * Z)) : Prop :=
  ∀ c err, (c, err) ∈ tr → is_Some (checked c) → err = cudaSuccess.

(** No allocation or copy has failed so far, and nothing was reported. *)
Definition quiet (p : process) : Prop :=
  all_checked_ok (trace p) ∧ stderr p = [].

(** How many calls of the trace are of the kind [f]. *)
Fixpoint count (f : call → bool) (tr : list (call * Z)) : Z :=
  match tr with
  | [] => 0
  | (c, _) :: tr' => (if f c then 1 else 0) + count f tr'
  end.

(** Whether the status of a call goes through [checkCudaError]. *)
Definition is_checked (c : call) : bool :=
  match checked c with Some _ => true | None => false end.

(** The calls of [checkCudaError] in each host function, in the order of
    the source: the name each passes and its line in
    cuda_cross_correlation.cuh, which is what [__LINE__] stands for. *)
Definition crossCorrelation_check_sites : list (string * Z) :=
  [("cudaMalloc", 165); ("cudaMemcpy", 168); ("cudaMalloc", 171);
   ("cudaMemcpy", 174); ("cudaMalloc", 177); ("cudaMemcpy", 184)]%string.

Definition sharedMemoryCrossCorrelation_check_sites : list (string * Z) :=
  [("cudaMalloc", 388); ("cudaMemcpy", 391); ("cudaMalloc", 394);
   ("cudaMemcpy", 397); ("cudaMalloc", 400); ("cudaMemcpy", 407)]%string.

Definition crossCorrelationTimeWithAllocation_check_sites : list (string * Z) :=
  [("cudaMalloc", 455); ("cudaMalloc", 458); ("cudaMalloc", 461);
   ("cudaMemcpy", 474); ("cudaMemcpy", 477); ("cudaMemcpy", 482)]%string.

Definition crossCorrelationTimeWithoutAllocation_check_sites : list (string * Z) :=
  [("cudaMalloc", 542); ("cudaMemcpy", 545); ("cudaMalloc", 548);
   ("cudaMemcpy", 551); ("cudaMalloc", 554); ("cudaMemcpy", 574)]%string.

(** Nothing has failed or been reported so far, and [n] allocations and
    copies have been made. *)
Definition quiet_after (n : nat) (p : process) : Prop :=
  quiet p ∧ count is_checked (trace p) = Z.of_nat n.

(** The last call was an allocation or a copy, with status [err], not yet
    examined; [n] allocations and copies came before it. *)
Definition pending (n : nat) (func : string) (err : Z) (p : process) : Prop :=
  ∃ tr c, trace p = tr ++ [(c, err)] ∧ checked c = Some func
          ∧ all_checked_ok tr ∧ stderr p = []
          ∧ count is_checked tr = Z.of_nat n.

(** The process stopped on a failed allocation or copy, its last call,
    and reported it: when [n] allocations and copies came before the
    failed one, [std::cerr] holds the diagnostic with the name and the
    line of the [n]-th entry of [sites] (counting from 0), the check that
    follows the failed call in the source. *)
Definition reported (sites : list (string * Z)) (status : Z) (p : process)
    : Prop :=
  status = EXIT_FAILURE
  ∧ ∃ tr c err func line,
      trace p = tr ++ [(c, err)] ∧ err ≠ cudaSuccess ∧ checked c = Some func
      ∧ all_checked_ok tr
      ∧ sites !! Z.to_nat (count is_checked tr) = Some (func, line)
      ∧ stderr p = diagnostic func err line.

(** Every kernel launch of the trace has the grid [g]. *)
Definition launches_with (g : dim3) (tr : list (call * Z)) : Prop :=
  ∀ g' b s err, (launch_call g' b s, err) ∈ tr → g' = g.

(** The trace has a kernel launch with the grid [g]. *)
Definition launched_with (g : dim3) (tr : list (call * Z)) : Prop :=
  ∃ b s err, (launch_call g b s, err) ∈ tr.

(** Every allocation of the trace has one of the sizes [sizes]. *)
Definition allocates_only (sizes : list Z) (tr : list (call * Z)) : Prop :=
  ∀ size err, (cudaMalloc_call size, err) ∈ tr → size ∈ sizes.

(** [m] keeps the property [T] of the trace, however it ends. *)
Definition keeps {A} (T : list (call * Z) → Prop) (m : M A) : Prop :=
  hoare (λ p, T (trace p)) m (λ _ p, T (trace p)) (λ _ p, T (trace p))
    (λ p, T (trace p)).

(** Each host function launches with its grid only, and has launched with
    it when it returns. *)
Definition launches_grid {A} (g : dim3) (m : M A) : Prop :=
  (∀ p, launches_with g (trace p) → launches_with g (trace (m p).2))
  ∧ (∀ p a p', m p = (Returned a, p') → launched_with g (trace p')).

(** The kinds of runtime calls. *)
Definition is_malloc (c : call) : bool :=
  match c with cudaMalloc_call _ => true | _ => false end.

Definition is_memcpy (c : call) : bool :=
  match c with cudaMemcpy_call _ => true | _ => false end.

Definition is_launch (c : call) : bool :=
  match c with launch_call _ _ _ => true | _ => false end.

Definition is_free (c : call) : bool :=
  match c with cudaFree_call => true | _ => false end.

(** The outcomes of a host function called in the state [start]: [Q] of
    the result and the trace when it returns, [E] of the trace when it
    exits or makes an access outside an array. *)
Definition from_start {A} (m : M A) (Q : A → list (call * Z) → Prop)
    (E : list (call * Z) → Prop) : Prop :=
  match m start with
  | (Returned a, p) => Q a (trace p)
  | (_, p) => E (trace p)
  end.

(** Three allocations and two copies, all successful, and no launch. *)
Definition setup_done (pre : list (call * Z)) : Prop :=
  count is_malloc pre = 3 ∧ count is_memcpy pre = 2
  ∧ count is_launch pre = 0 ∧ all_checked_ok pre.

(** Whenever the trace has a kernel launch, the calls before it are three
    allocations and two copies that succeeded, and no other launch. *)
Definition launch_after_setup (tr : list (call * Z)) : Prop :=
  ∀ tr1 c err tr2, tr = tr1 ++ (c, err) :: tr2 → is_launch c = true →
    setup_done tr1.

(** The same, call by call: [P] holds of the calls before each launch
    of [tr], when [pre] are the calls before [tr]. *)
Fixpoint launches_after (P : list (call * Z) → Prop)
    (pre tr : list (call * Z)) : Prop :=
  match tr with
  | [] => True
  | (c, err) :: tr' =>
      (is_launch c = true → P pre) ∧ launches_after P (pre ++ [(c, err)]) tr'
  end.

(** Event calls: [cudaEventCreate], [cudaEventRecord],
    [cudaEventSynchronize], [cudaEventElapsedTime], [cudaEventDestroy]. *)
Definition is_event (c : call) : bool :=
  match c with cudaEvent_call => true | _ => false end.

(** The calls after the [n]-th event call of a trace. *)
Fixpoint after_event (n : nat) (tr : list (call * Z)) : list (call * Z) :=
  match n, tr with
  | O, _ => tr
  | S _, [] => []
  | S n', (c, _) :: tr' =>
      if is_event c then after_event n' tr' else after_event n tr'
  end.

(** The calls before the first event call of a trace. *)
Fixpoint before_event (tr : list (call * Z)) : list call :=
  match tr with
  | [] => []
  | (c, _) :: tr' => if is_event c then [] else c :: before_event tr'
  end.

(** What a timed variant measures: the calls between
    [cudaEventRecord(start, 0)] and [cudaEventRecord(stop, 0)], which are
    the third and the fourth event call of the function (the first two
    are the [cudaEventCreate] calls). *)
Definition timed_region (tr : list (call * Z)) : list call :=
  before_event (after_event 3 tr).

(** A runtime whose sixth call, the kernel launch of [crossCorrelation],
    fails with status [err], and whose other calls succeed. *)
Definition launch_fails (err : Z) : nat → Z :=
  λ n, if decide (n = 5%nat) then err else cudaSuccess.

(** What every call of a sweep over [rows × cols] matrices satisfies: a
    valid window of size at most 11 and a square block whose side is a
    power of two, at least 8 and no larger than the matrix or than
    [max_thread_per_block]. *)
Definition swept (max_thread_per_block rows cols : Z) (folder : string)
    (iterations : Z) (a : benchmark_args) : Prop :=
  b_rows a = rows ∧ b_cols a = cols
  ∧ valid_input (b_kernel_size a) rows cols
  ∧ b_kernel_size a ≤ 11
  ∧ b_block_dim_x a = b_block_dim_y a
  ∧ (∃ j, 3 ≤ j ∧ b_block_dim_x a = 2 ^ j)
  ∧ b_block_dim_x a ≤ rows ∧ b_block_dim_x a ≤ cols
  ∧ b_block_dim_x a ≤ max_thread_per_block
  ∧ b_folder a = folder ∧ b_iterations a = iterations.

(** * Proofs *)

(** ** Machine integers *)

Lemma size_t_small x : 0 ≤ x < 2 ^ 64 → size_t x = x.
Proof. intros. unfold size_t. by apply Z.mod_small. Qed.

Lemma uint_small x : 0 ≤ x < 2 ^ 32 → uint x = x.
Proof. intros. unfold uint. by apply Z.mod_small. Qed.

Lemma uint_range x : 0 ≤ uint x < 2 ^ 32.
Proof. unfold uint. apply Z.mod_pos_bound. lia. Qed.

Lemma castT_range sizeofT x : 0 < sizeofT → 0 ≤ castT sizeofT x < 2 ^ (8 * sizeofT).
Proof. intros. unfold castT. apply Z.mod_pos_bound. apply Z.pow_pos_nonneg; lia. Qed.

Lemma castT_idemp sizeofT x : castT sizeofT (castT sizeofT x) = castT sizeofT x.
Proof. unfold castT. apply Zmod_mod. Qed.

Lemma castT_add_l sizeofT a b :
  castT sizeofT (castT sizeofT a + b) = castT sizeofT (a + b).
Proof. unfold castT. apply Zplus_mod_idemp_l. Qed.

Lemma odd_half k : Z.odd k = true → 2 * (k / 2) = k - 1.
Proof.
  intros Hodd. rewrite (Z.div_mod k 2) at 2 by lia.
  rewrite Zmod_odd, Hodd. lia.
Qed.

Lemma product_bounds a b c n :
  0 < a → 0 < b → 0 < c → a * b * c < n → a < n ∧ b < n ∧ a * b < n.
Proof.
  intros Ha Hb Hc Hn.
  assert (a * b ≤ a * b * c) by (apply Z.le_mul_diag_r; lia).
  assert (a ≤ a * b) by (apply Z.le_mul_diag_r; lia).
  assert (b ≤ a * b) by (rewrite Z.mul_comm; apply Z.le_mul_diag_r; lia).
  lia.
Qed.

Lemma pow2_lt_inv j n : 0 ≤ n → 2 ^ j < 2 ^ n → j < n.
Proof.
  intros Hn Hlt. destruct (decide (j < n)); [done|].
  assert (2 ^ n ≤ 2 ^ j) by (apply Z.pow_le_mono_r; lia). lia.
Qed.

(** ** Loops *)

Lemma for_loop_ext {St} (f g : Z → St → option St) from n s :
  (∀ v s, from ≤ v < from + Z.of_nat n → f v s = g v s) →
  for_loop f from n s = for_loop g from n s.
Proof.
  revert from s. induction n as [|n IH]; intros from s Hfg; [done|].
  cbn [for_loop]. rewrite Hfg by lia.
  destruct (g from s); [|done]. apply IH. intros. apply Hfg. lia.
Qed.

(** A loop that adds [g v] to an accumulator of type [T]. *)
Lemma for_loop_sum sizeofT (body : Z → Z → option Z) (g : Z → Z) from n tmp :
  (∀ v t, from ≤ v < from + Z.of_nat n → castT sizeofT t = t →
          body v t = Some (castT sizeofT (t + g v))) →
  castT sizeofT tmp = tmp →
  for_loop body from n tmp = Some (castT sizeofT (tmp + sumZ from n g)).
Proof.
  revert from tmp. induction n as [|n IH]; intros from tmp Hb Htmp.
  - cbn. by rewrite Z.add_0_r, Htmp.
  - cbn [for_loop sumZ]. rewrite Hb by (done || lia).
    rewrite IH.
    + by rewrite castT_add_l, Z.add_assoc.
    + intros. apply Hb; [lia|done].
    + by apply castT_idemp.
Qed.

Lemma sumZ_ext f g from n :
  (∀ v, from ≤ v < from + Z.of_nat n → f v = g v) → sumZ from n f = sumZ from n g.
Proof.
  revert from. induction n as [|n IH]; intros from H; [done|].
  cbn [sumZ]. rewrite H by lia. f_equal. apply IH. intros. apply H. lia.
Qed.

Lemma sumZ_shift f from n d :
  sumZ (from + d) n f = sumZ from n (λ v, f (v + d)).
Proof.
  revert from. induction n as [|n IH]; intros from; [done|].
  cbn [sumZ]. f_equal. rewrite <- IH. f_equal. lia.
Qed.

Lemma sumZ_zero from n f :
  (∀ v, from ≤ v < from + Z.of_nat n → f v = 0) → sumZ from n f = 0.
Proof.
  revert from. induction n as [|n IH]; intros from H; [done|].
  cbn [sumZ]. rewrite H by lia. rewrite IH; [done|]. intros. apply H. lia.
Qed.

(** ** The search loop *)

Lemma for_loop_scan (sc : Z → option Z) (f : Z → Z) from n st :
  (∀ i, from ≤ i < from + Z.of_nat n → sc i = Some (f i)) →
  for_loop (search_step sc) from n st = Some (scan f from n st).
Proof.
  revert from st. induction n as [|n IH]; intros from st H; [done|].
  cbn [for_loop scan]. unfold search_step at 1. rewrite H by lia.
  destruct (decide (st.1 ≤ f from)); apply IH; intros; apply H; lia.
Qed.

Lemma scan_spec f from n m idx :
  (scan f from n (m, idx) = (m, idx)
   ∧ ∀ i, from ≤ i < from + Z.of_nat n → f i < m)
  ∨ (∃ i, from ≤ i < from + Z.of_nat n
        ∧ scan f from n (m, idx) = (f i, size_t (i - 1))
        ∧ m ≤ f i
        ∧ (∀ i', from ≤ i' < from + Z.of_nat n → f i' ≤ f i)
        ∧ (∀ i', i < i' < from + Z.of_nat n → f i' < f i)).
Proof.
  revert from m idx. induction n as [|n IH]; intros from m idx.
  - left. split; [done|]. intros; lia.
  - cbn [scan fst]. destruct (decide (m ≤ f from)) as [Hle|Hlt].
    + right. destruct (IH (from + 1) (f from) (size_t (from - 1)))
        as [[Heq Hall]|(i & Hi & Heq & Hm & Hmax & Hlast)].
      * exists from. rewrite Heq. repeat split; try lia.
        -- intros i' Hi'. destruct (decide (i' = from)) as [->|]; [lia|].
           specialize (Hall i'). lia.
        -- intros i' Hi'. apply Hall. lia.
      * exists i. rewrite Heq. repeat split; try lia.
        -- intros i' Hi'. destruct (decide (i' = from)) as [->|]; [lia|].
           apply Hmax. lia.
        -- intros i' Hi'. apply Hlast. lia.
    + destruct (IH (from + 1) m idx)
        as [[Heq Hall]|(i & Hi & Heq & Hm & Hmax & Hlast)].
      * left. split; [done|]. intros i' Hi'.
        destruct (decide (i' = from)) as [->|]; [lia|]. apply Hall. lia.
      * right. exists i. rewrite Heq. repeat split; try lia.
        -- intros i' Hi'. destruct (decide (i' = from)) as [->|]; [lia|].
           apply Hmax. lia.
        -- intros i' Hi'. apply Hlast. lia.
Qed.

(** From the initial state [(0, 0)] and on scores that are not negative,
    the search ends on the last offset of greatest score. *)
Lemma scan_last_argmax f from n :
  (0 < n)%nat → (∀ i, from ≤ i < from + Z.of_nat n → 0 ≤ f i) →
  ∃ i, last_argmax f from (from + Z.of_nat n) i
       ∧ scan f from n (0, 0) = (f i, size_t (i - 1)).
Proof.
  intros Hn Hpos.
  destruct (scan_spec f from n 0 0) as [[_ Hall]|(i & Hi & Heq & _ & Hmax & Hlast)].
  - specialize (Hall from). specialize (Hpos from). lia.
  - exists i. split; [|done]. split; [done|]. split; done.
Qed.

Lemma last_argmax_unique f lo hi i1 i2 :
  last_argmax f lo hi i1 → last_argmax f lo hi i2 → i1 = i2.
Proof.
  intros (H1 & M1 & L1) (H2 & M2 & L2).
  destruct (Z.lt_trichotomy i1 i2) as [Hlt|[->|Hgt]]; [|done|].
  - specialize (L1 i2). specialize (M2 i1). lia.
  - specialize (L2 i1). specialize (M1 i2). lia.
Qed.

(** ** The direct kernel *)

Section DirectKernel.

Variables (sizeofT : Z) (A B : list Z) (k rows cols : Z).
Hypothesis Hvalid : valid_input k rows cols.
Hypothesis Hfit : rows * cols < 2 ^ 64.
Hypothesis HA : Z.of_nat (length A) = rows * cols.
Hypothesis HB : Z.of_nat (length B) = rows * cols.

Lemma load_pixel (m : list Z) r c :
  Z.of_nat (length m) = rows * cols → 0 ≤ r < rows → 0 ≤ c < cols →
  load m (r * cols + c) = Some (pixel m cols r c).
Proof using Type.
  clear. intros Hm Hr Hc. unfold load, pixel.
  rewrite decide_True by nia.
  destruct (m !! Z.to_nat (r * cols + c)) eqn:E; [done|].
  apply lookup_ge_None in E. nia.
Qed.

Lemma half_bounds : 1 ≤ k / 2 ∧ 2 * (k / 2) = k - 1.
Proof using Hvalid.
  clear -Hvalid. destruct Hvalid as (Hodd & H3 & _). split; [|by apply odd_half].
  apply Z.div_le_lower_bound; lia.
Qed.

Lemma window_sum_spec r c i :
  0 ≤ r < rows - (k - 1) → 0 ≤ c < cols - (k - 1) →
  k / 2 ≤ i < cols - k / 2 →
  window_sum sizeofT A B cols (k / 2) (size_t (r + k / 2)) (size_t (c + k / 2)) i
  = Some (score sizeofT A B cols k r c i).
Proof using All.
  intros Hr Hc Hi. destruct half_bounds as [Hh1 Hh2].
  destruct Hvalid as (Hodd & H3 & Hkr & Hkc).
  set (h := k / 2) in *.
  assert (Hrows : rows < 2 ^ 64) by nia.
  assert (Hcols : cols < 2 ^ 64) by nia.
  unfold window_sum, for_le, score, correlation. fold h.
  rewrite (size_t_small (r + h)), (size_t_small (c + h)) by lia.
  replace (r + h - h) with r by lia. replace (c + h - h) with c by lia.
  rewrite (size_t_small r), (size_t_small c) by lia.
  rewrite (size_t_small (r + h + h)), (size_t_small (c + h + h)) by lia.
  replace (Z.to_nat (r + h + h + 1 - r)) with (Z.to_nat k) by lia.
  replace (Z.to_nat (c + h + h + 1 - c)) with (Z.to_nat k) by lia.
  erewrite for_loop_sum; [rewrite Z.add_0_l; reflexivity| |done].
  intros j t Hj Ht. cbn beta.
  rewrite (for_loop_sum sizeofT _
             (λ l, pixel A cols j (l - c + (i - h)) * pixel B cols j l));
    [| |done].
  - rewrite <- (Z.add_0_l c) at 1. rewrite sumZ_shift.
    do 3 f_equal. apply sumZ_ext. intros m Hm. cbn beta.
    f_equal; f_equal; lia.
  - intros l t' Hl Ht'. cbn beta. unfold accumulate, src1_index, src2_index.
    rewrite (size_t_small (j * cols)), (size_t_small (i - h)) by nia.
    replace (j * cols + (l - c) + (i - h)) with (j * cols + (l - c + (i - h))) by lia.
    rewrite (load_pixel A), (load_pixel B) by (done || lia).
    done.
Qed.

Lemma score_nonneg r c i :
  0 < sizeofT → 0 ≤ score sizeofT A B cols k r c i.
Proof using Type. intros. unfold score. by apply castT_range. Qed.

(** The kernel, thread by thread: a thread whose cell [(r, c)] lies in
    the destination writes [cell_value] there; any other thread writes
    nothing. *)
Lemma crossCorrelationKernel_spec blockDim blockIdx threadIdx :
  let r := uint (uint (y blockDim * y blockIdx) + y threadIdx) in
  let c := uint (uint (x blockDim * x blockIdx) + x threadIdx) in
  crossCorrelationKernel sizeofT A B k rows cols blockDim blockIdx threadIdx
  = if decide (r < rows - (k - 1) ∧ c < cols - (k - 1))
    then Some (Some (r * (cols - (k - 1)) + c, cell_value sizeofT A B k cols r c))
    else Some None.
Proof using All.
  intros r c. destruct half_bounds as [Hh1 Hh2].
  pose proof Hvalid as (Hodd & H3 & Hkr & Hkc).
  assert (Hrows : rows < 2 ^ 64) by nia.
  assert (Hcols : cols < 2 ^ 64) by nia.
  pose proof (uint_range (uint (y blockDim * y blockIdx) + y threadIdx)) as Hr.
  pose proof (uint_range (uint (x blockDim * x blockIdx) + x threadIdx)) as Hc.
  unfold crossCorrelationKernel. fold r c in Hr, Hc |- *.
  rewrite (size_t_small (k - 1)) by lia.
  rewrite (size_t_small (rows - (k - 1))), (size_t_small (cols - (k - 1))) by lia.
  destruct (decide (r < rows - (k - 1) ∧ c < cols - (k - 1))) as [[Hrd Hcd]|]; [|done].
  rewrite (size_t_small (cols - k / 2)) by lia.
  unfold for_lt.
  rewrite (for_loop_scan _ (score sizeofT A B cols k r c)).
  - unfold cell_value.
    destruct (scan _ _ _ _) as [mx idx] eqn:E. cbn [snd].
    assert (0 ≤ r * (cols - (k - 1)) ≤ (rows - (k - 1) - 1) * (cols - (k - 1))).
    { split; [apply Z.mul_nonneg_nonneg; lia|].
      apply Z.mul_le_mono_nonneg_r; lia. }
    assert ((rows - (k - 1) - 1) * (cols - (k - 1)) + (cols - (k - 1))
            = (rows - (k - 1)) * (cols - (k - 1))) by ring.
    assert ((rows - (k - 1)) * (cols - (k - 1)) ≤ rows * cols)
      by (apply Z.mul_le_mono_nonneg; lia).
    rewrite (size_t_small (r * (cols - (k - 1)))) by lia.
    rewrite (size_t_small (r * (cols - (k - 1)) + c)) by lia.
    done.
  - intros i Hi. apply window_sum_spec; lia.
Qed.

End DirectKernel.

(** ** binary32 against the Standard Library's specification *)

Example float_of_Z_agrees :
  forallb (λ n, same_value (float_of_Z n) (binary32_of_Z n)) test_integers = true.
Proof. by vm_compute. Qed.

Example Fmult_agrees :
  forallb (λ a, forallb (λ b,
      same_value (Fmult (float_of_Z a) (float_of_Z b))
        (SFmul 24 128 (binary32_of_Z a) (binary32_of_Z b)))
    (take 19 test_integers)) test_integers = true.
Proof. by vm_compute. Qed.

Example Fdiv_agrees :
  forallb (λ a, forallb (λ b,
      same_value (Fdiv (float_of_Z a) (float_of_Z b))
        (SFdiv 24 128 (binary32_of_Z a) (binary32_of_Z b)))
    (drop 1 test_integers)) test_integers = true.
Proof. by vm_compute. Qed.

Example Fplus_agrees :
  forallb (λ a, forallb (λ b,
      same_value (Fplus (Fdiv (float_of_Z a) (float_of_Z b)) (float_of_Z 1))
        (SFadd 24 128 (SFdiv 24 128 (binary32_of_Z a) (binary32_of_Z b))
           (binary32_of_Z 1)))
    (drop 1 test_integers)) test_integers = true.
Proof. by vm_compute. Qed.

(** ** binary32 on integers below 2^24 *)

Lemma round_nearest_even_exact x den :
  0 < den → round_nearest_even (x * den) den = x.
Proof.
  intros. unfold round_nearest_even.
  rewrite Z.div_mul, Z.mod_mul by lia. by rewrite decide_True by lia.
Qed.

Lemma round_nearest_even_1 x : round_nearest_even x 1 = x.
Proof. rewrite <- (Z.mul_1_r x) at 1. by apply round_nearest_even_exact. Qed.

Lemma round_nearest_even_bounds num den :
  0 < den →
  2 * num - den ≤ 2 * (round_nearest_even num den * den) ≤ 2 * num + den.
Proof.
  intros Hden. unfold round_nearest_even.
  pose proof (Z.div_mod num den) as Hdm.
  pose proof (Z.mod_pos_bound num den Hden) as Hr.
  set (q := num / den) in *. set (r := num mod den) in *.
  repeat case_decide; try destruct (Z.even q); nia.
Qed.

Lemma log2_small n : 0 < n < 2 ^ 24 → 0 ≤ Z.log2 n ≤ 23.
Proof.
  intros [Hn Hlt]. split; [apply Z.log2_nonneg|].
  apply Z.log2_lt_pow2 in Hlt; lia.
Qed.

Lemma pow2_pos e : 0 ≤ e → 0 < 2 ^ e.
Proof. intros. apply Z.pow_pos_nonneg; lia. Qed.

Lemma log2_ratio_den1 p : 0 < p → log2_ratio p 1 = Z.log2 p.
Proof.
  intros Hp. unfold log2_ratio, scaled_le. cbn [Z.log2]. rewrite Z.sub_0_r.
  pose proof (Z.log2_nonneg p). pose proof (Z.log2_spec p Hp).
  rewrite decide_True by lia. rewrite bool_decide_eq_true_2; [done|lia].
Qed.

Lemma float_of_Z_Fint n : 0 ≤ n < 2 ^ 24 → float_of_Z n = Fint n.
Proof.
  intros Hn. unfold float_of_Z, float_round, Fint.
  destruct (decide (n ≤ 0)); [done|].
  rewrite log2_ratio_den1 by lia.
  pose proof (log2_small n ltac:(lia)).
  rewrite decide_True by lia.
  rewrite round_nearest_even_1. f_equal. lia.
Qed.

Lemma Fmult_Fint a b :
  0 ≤ a → 0 ≤ b → a * b < 2 ^ 24 → Fmult (Fint a) (Fint b) = Fint (a * b).
Proof.
  intros Ha Hb Hab. unfold Fmult, Fint.
  destruct (decide (a ≤ 0)) as [Ha0|Ha0].
  { cbn. unfold float_round. rewrite decide_True by lia.
    rewrite decide_True by nia. done. }
  destruct (decide (b ≤ 0)) as [Hb0|Hb0].
  { cbn. unfold float_round. rewrite decide_True by lia.
    rewrite decide_True by nia. done. }
  rewrite (decide_False (P := a * b ≤ 0)) by nia.
  cbn [Fnum Fexp].
  assert (Ha24 : a < 2 ^ 24) by nia. assert (Hb24 : b < 2 ^ 24) by nia.
  pose proof (log2_small a ltac:(lia)) as Hla.
  pose proof (log2_small b ltac:(lia)) as Hlb.
  pose proof (log2_small (a * b) ltac:(nia)) as Hlab.
  set (ta := 23 - Z.log2 a) in *. set (tb := 23 - Z.log2 b) in *.
  set (tab := 23 - Z.log2 (a * b)) in *.
  assert (HP : a * 2 ^ ta * (b * 2 ^ tb) = a * b * 2 ^ (ta + tb)).
  { rewrite Z.pow_add_r by lia. ring. }
  rewrite HP. unfold float_round.
  pose proof (pow2_pos (ta + tb) ltac:(lia)) as Hpp.
  rewrite decide_False by nia.
  rewrite log2_ratio_den1 by nia.
  rewrite Z.log2_mul_pow2 by (lia || nia).
  destruct (decide (0 ≤ 23 - (ta + tb + Z.log2 (a * b)))) as [Ht|Ht].
  - rewrite round_nearest_even_1.
    rewrite <- Z.mul_assoc, <- Z.pow_add_r by lia.
    f_equal; [f_equal; f_equal|]; lia.
  - rewrite Z.mul_1_l.
    replace (ta + tb) with (tab + - (23 - (ta + tb + Z.log2 (a * b)))) at 1 by lia.
    rewrite Z.pow_add_r, Z.mul_assoc by lia.
    rewrite round_nearest_even_exact by (apply pow2_pos; lia).
    f_equal; lia.
Qed.

Lemma Ftrunc_Fint n : 0 ≤ n < 2 ^ 24 → Ftrunc (Fint n) = n.
Proof.
  intros Hn. unfold Ftrunc, Fint.
  destruct (decide (n ≤ 0)); [by replace n with 0 by lia|].
  cbn [Fnum Fexp]. pose proof (log2_small n ltac:(lia)).
  destruct (decide (0 ≤ Z.log2 n - 23)).
  - replace (Z.log2 n - 23) with 0 by lia. replace (23 - Z.log2 n) with 0 by lia.
    lia.
  - replace (- (Z.log2 n - 23)) with (23 - Z.log2 n) by lia.
    apply Z.div_mul. pose proof (pow2_pos (23 - Z.log2 n)). lia.
Qed.

(** [ceil] of a quotient of two integers below 2^24 is the exact one. *)
Lemma Fceil_Fdiv_Fint a b :
  0 ≤ a < 2 ^ 24 → 0 < b < 2 ^ 24 →
  Fceil (Fdiv (Fint a) (Fint b)) = (a + b - 1) / b.
Proof.
  intros Ha Hb. unfold Fdiv, Fint.
  rewrite (decide_False (P := b ≤ 0)) by lia.
  destruct (decide (a ≤ 0)) as [Ha0|Ha0].
  { cbn [Fnum Fexp]. unfold float_round. rewrite decide_True by lia.
    cbn. replace a with 0 by lia. symmetry. apply Z.div_small. lia. }
  cbn [Fnum Fexp].
  pose proof (log2_small a ltac:(lia)) as Hla.
  pose proof (log2_small b ltac:(lia)) as Hlb.
  pose proof (Z.log2_spec a ltac:(lia)) as Hsa.
  pose proof (Z.log2_spec b ltac:(lia)) as Hsb.
  set (ta := 23 - Z.log2 a) in *. set (tb := 23 - Z.log2 b) in *.
  pose proof (pow2_pos ta ltac:(lia)) as Hpa.
  pose proof (pow2_pos tb ltac:(lia)) as Hpb.
  set (p := a * 2 ^ ta). set (q := b * 2 ^ tb).
  assert (Hp : 2 ^ 23 ≤ p < 2 ^ 24).
  { unfold p. replace 23 with (Z.log2 a + ta) at 1 by lia.
    replace 24 with (Z.succ (Z.log2 a) + ta) by lia.
    rewrite !Z.pow_add_r by lia. nia. }
  assert (Hq : 2 ^ 23 ≤ q < 2 ^ 24).
  { unfold q. replace 23 with (Z.log2 b + tb) at 1 by lia.
    replace 24 with (Z.succ (Z.log2 b) + tb) by lia.
    rewrite !Z.pow_add_r by lia. nia. }
  assert (Hlp : Z.log2 p = 23) by (apply Z.log2_unique; [lia|exact Hp]).
  assert (Hlq : Z.log2 q = 23) by (apply Z.log2_unique; [lia|exact Hq]).
  unfold float_round. rewrite decide_False by lia.
  unfold log2_ratio, scaled_le. rewrite Hlp, Hlq, Z.sub_diag.
  rewrite (decide_True (P := 0 ≤ 0)) by lia. rewrite Z.pow_0_r, Z.mul_1_r.
  set (t := 23 - (if bool_decide (q ≤ p) then 0 else 0 - 1)).
  assert (Ht : 23 ≤ t ≤ 24) by (unfold t; case_bool_decide; lia).
  rewrite (decide_True (P := 0 ≤ t)) by lia.
  set (m := round_nearest_even (p * 2 ^ t) q).
  (* the exponent of the quotient is [- E] with [0 ≤ E] *)
  set (E := t + ta - tb).
  assert (HE : 0 ≤ E) by (unfold E; lia).
  replace (Z.log2 a - 23 - (Z.log2 b - 23) - t) with (- E) by (unfold E; lia).
  assert (Hceil : Fceil (Float m (- E)) = - (- m / 2 ^ E)).
  { unfold Fceil. cbn [Fnum Fexp]. case_decide.
    - replace E with 0 by lia. cbn. rewrite Z.div_1_r. lia.
    - by rewrite Z.opp_involutive. }
  rewrite Hceil.
  pose proof (pow2_pos E HE) as HpE.
  pose proof (round_nearest_even_bounds (p * 2 ^ t) q ltac:(lia)) as Hm.
  fold m in Hm.
  assert (Hnum : p * 2 ^ t = a * 2 ^ E * 2 ^ tb).
  { unfold p. rewrite <- !Z.mul_assoc, <- !Z.pow_add_r by lia.
    do 2 f_equal. unfold E. lia. }
  rewrite Hnum in Hm. unfold q in Hm.
  assert (Hm' : 2 * (a * 2 ^ E) - b ≤ 2 * (m * b) ≤ 2 * (a * 2 ^ E) + b) by nia.
  assert (HbE : b < 2 * 2 ^ E).
  { replace (2 * 2 ^ E) with (2 ^ (Z.succ E)) by (rewrite Z.pow_succ_r; lia).
    eapply Z.lt_le_trans; [apply Hsb|].
    apply Z.pow_le_mono_r; [lia|]. unfold E. lia. }
  set (c := (a + b - 1) / b).
  assert (Hc : (c - 1) * b < a ≤ c * b).
  { pose proof (Z.div_mod (a + b - 1) b ltac:(lia)).
    pose proof (Z.mod_pos_bound (a + b - 1) b ltac:(lia)). fold c in H. nia. }
  (* (c - 1) * 2^E < m ≤ c * 2^E *)
  assert (Hup : m ≤ c * 2 ^ E) by nia.
  assert (Hlo : (c - 1) * 2 ^ E < m) by nia.
  assert (Hq' : - m / 2 ^ E = - c).
  { symmetry. apply (Z.div_unique_pos (- m) (2 ^ E) (- c) (c * 2 ^ E - m)); lia. }
  lia.
Qed.

(** ** Launches *)

Lemma elem_of_threads g b bi ti :
  (bi, ti) ∈ threads g b
  ↔ (0 ≤ x bi < x g ∧ 0 ≤ y bi < y g) ∧ (0 ≤ x ti < x b ∧ 0 ≤ y ti < y b).
Proof.
  unfold threads. destruct bi as [bix biy], ti as [tix tiy]. cbn [x y].
  split.
  - intros H.
    apply list_elem_of_bind in H as (biy' & H & Hbiy%elem_of_seqZ).
    apply list_elem_of_bind in H as (bix' & H & Hbix%elem_of_seqZ).
    apply list_elem_of_bind in H as (tiy' & H & Htiy%elem_of_seqZ).
    apply list_elem_of_bind in H as (tix' & H & Htix%elem_of_seqZ).
    apply list_elem_of_singleton in H. simplify_eq. lia.
  - intros [[Hbx Hby] [Htx Hty]].
    apply list_elem_of_bind. exists biy. split; [|apply elem_of_seqZ; lia].
    apply list_elem_of_bind. exists bix. split; [|apply elem_of_seqZ; lia].
    apply list_elem_of_bind. exists tiy. split; [|apply elem_of_seqZ; lia].
    apply list_elem_of_bind. exists tix. split; [|apply elem_of_seqZ; lia].
    by apply list_elem_of_singleton.
Qed.

Lemma collect_writes_total {X} (kern : X → option (option (Z * Z)))
    (f : X → option (Z * Z)) ts :
  (∀ t, t ∈ ts → kern t = Some (f t)) →
  collect_writes (map kern ts) = Some (omap f ts).
Proof.
  induction ts as [|t ts IH]; intros H; [done|].
  specialize (IH ltac:(intros; apply H, elem_of_cons; auto)).
  cbn [map]. cbn [collect_writes]. rewrite (H t) by (apply elem_of_cons; auto).
  cbn [omap list_omap]. destruct (f t); by rewrite IH.
Qed.

Lemma store_all_spec (val : Z → Z) ws mem :
  (∀ w, w ∈ ws → 0 ≤ w.1 < Z.of_nat (length mem) ∧ w.2 = val w.1) →
  ∃ mem', store_all mem ws = Some mem'
    ∧ length mem' = length mem
    ∧ ∀ n : nat, mem' !! n = if decide (Z.of_nat n ∈ ws.*1)
                             then Some (Some (val (Z.of_nat n))) else mem !! n.
Proof.
  revert mem. induction ws as [|[p v] ws IH]; intros mem H.
  - exists mem. split; [done|]. split; [done|].
    intros n. rewrite decide_False; [done|]. cbn. apply not_elem_of_nil.
  - destruct (H (p, v)) as [Hp Hv]; [apply elem_of_cons; auto|].
    cbn [fst snd] in Hp, Hv.
    cbn [store_all]. unfold store. cbn [fst snd]. rewrite decide_True by done.
    destruct (IH (<[Z.to_nat p:=Some v]> mem)) as (mem' & Hst & Hlen & Hlk).
    { intros w Hw. rewrite length_insert. apply H, elem_of_cons. auto. }
    exists mem'. rewrite length_insert in Hlen. split; [done|]. split; [done|].
    intros n. rewrite Hlk. cbn [fmap list_fmap fst].
    destruct (decide (Z.of_nat n ∈ ws.*1)) as [Hin|Hnin].
    + rewrite decide_True; [done|]. apply elem_of_cons. auto.
    + destruct (decide (Z.of_nat n = p)) as [<-|Hne].
      * rewrite decide_True by (apply elem_of_cons; auto).
        rewrite Nat2Z.id, list_lookup_insert_eq by lia. by rewrite Hv.
      * rewrite decide_False.
        -- apply list_lookup_insert_ne. lia.
        -- intros [?|?]%elem_of_cons; done.
Qed.

Lemma NoDup_threads g b : NoDup (threads g b).
Proof.
  unfold threads.
  apply NoDup_bind; [|intros biy _|apply NoDup_seqZ].
  { intros biy1 biy2 [bi ti] _ _ H1 H2.
    apply list_elem_of_bind in H1 as (bix1 & H1 & _).
    apply list_elem_of_bind in H1 as (tiy1 & H1 & _).
    apply list_elem_of_bind in H1 as (tix1 & H1%list_elem_of_singleton & _).
    apply list_elem_of_bind in H2 as (bix2 & H2 & _).
    apply list_elem_of_bind in H2 as (tiy2 & H2 & _).
    apply list_elem_of_bind in H2 as (tix2 & H2%list_elem_of_singleton & _).
    by simplify_eq. }
  apply NoDup_bind; [|intros bix _|apply NoDup_seqZ].
  { intros bix1 bix2 [bi ti] _ _ H1 H2.
    apply list_elem_of_bind in H1 as (tiy1 & H1 & _).
    apply list_elem_of_bind in H1 as (tix1 & H1%list_elem_of_singleton & _).
    apply list_elem_of_bind in H2 as (tiy2 & H2 & _).
    apply list_elem_of_bind in H2 as (tix2 & H2%list_elem_of_singleton & _).
    by simplify_eq. }
  apply NoDup_bind; [|intros tiy _|apply NoDup_seqZ].
  { intros tiy1 tiy2 [bi ti] _ _ H1 H2.
    apply list_elem_of_bind in H1 as (tix1 & H1%list_elem_of_singleton & _).
    apply list_elem_of_bind in H2 as (tix2 & H2%list_elem_of_singleton & _).
    by simplify_eq. }
  apply NoDup_bind; [|intros tix _; apply NoDup_singleton|apply NoDup_seqZ].
  intros tix1 tix2 [bi ti] _ _ H1%list_elem_of_singleton H2%list_elem_of_singleton.
  by simplify_eq.
Qed.

(** Writes that come from different threads go to different cells. *)
Lemma NoDup_omap_fst {X} (f : X → option (Z * Z)) l :
  NoDup l →
  (∀ t1 t2 w1 w2, t1 ∈ l → t2 ∈ l → f t1 = Some w1 → f t2 = Some w2 →
                  w1.1 = w2.1 → t1 = t2) →
  NoDup (omap f l).*1.
Proof.
  induction 1 as [|t l Hnin Hnd IH]; intros Hinj; [constructor|].
  cbn [omap list_omap]. destruct (f t) as [w|] eqn:Hw.
  - cbn [fmap list_fmap]. constructor.
    + intros (w' & Heq & (t' & Ht' & Hw')%list_elem_of_omap)%list_elem_of_fmap.
      assert (t = t') as <-; [|done].
      eapply Hinj; eauto; apply elem_of_cons; auto.
    + apply IH. intros. eapply Hinj; eauto; apply elem_of_cons; auto.
  - apply IH. intros. eapply Hinj; eauto; apply elem_of_cons; auto.
Qed.

Section Grid.

Variable kern : dim3 → dim3 → dim3 → option (option (Z * Z)).
Variable val : Z → Z → Z.
Variables dr dc gx gy bx by_ : Z.
Hypothesis Hdr : 0 < dr.
Hypothesis Hdc : 0 < dc.
Hypothesis Hbx : 0 < bx.
Hypothesis Hby : 0 < by_.
Hypothesis Hgx : 0 ≤ gx ∧ gx * bx < 2 ^ 32.
Hypothesis Hgy : 0 ≤ gy ∧ gy * by_ < 2 ^ 32.
Hypothesis Hkern : ∀ bi ti,
  kern (Dim3 bx by_) bi ti =
    let r := uint (uint (by_ * y bi) + y ti) in
    let c := uint (uint (bx * x bi) + x ti) in
    if decide (r < dr ∧ c < dc)
    then Some (Some (r * dc + c, val r c)) else Some None.

Lemma kern_thread_write t :
  t ∈ threads (Dim3 gx gy) (Dim3 bx by_) →
  kern (Dim3 bx by_) t.1 t.2 = Some (thread_write val dr dc bx by_ t).
Proof using Hkern Hgx Hgy Hbx Hby.
  destruct t as [bi ti]. intros [[Hx Hy] [Htx Hty]]%elem_of_threads.
  cbn [x y fst snd] in *. rewrite Hkern. cbn zeta. unfold thread_write. cbn [fst snd].
  rewrite (uint_small (by_ * y bi)), (uint_small (bx * x bi)) by nia.
  rewrite (uint_small (by_ * y bi + y ti)), (uint_small (bx * x bi + x ti)) by nia.
  by case_decide.
Qed.

(** Which cells a launch writes: those whose row and column some thread
    of the grid has. *)
Lemma launch_writes_spec :
  ∃ ws, launch_writes kern (Dim3 gx gy) (Dim3 bx by_) = Some ws
    ∧ (∀ w, w ∈ ws → 0 ≤ w.1 < dr * dc
                     ∧ w.2 = val (w.1 / dc) (w.1 mod dc))
    ∧ (∀ p, p ∈ ws.*1 ↔ 0 ≤ p < dr * dc
                        ∧ p / dc < gy * by_ ∧ p mod dc < gx * bx)
    ∧ NoDup ws.*1.
Proof using All.
  exists (omap (thread_write val dr dc bx by_) (threads (Dim3 gx gy) (Dim3 bx by_))).
  split; [|split; [|split]]; cycle 3.
  { apply NoDup_omap_fst; [apply NoDup_threads|].
    intros [bi1 ti1] [bi2 ti2] w1 w2
      [[Hx1 Hy1] [Htx1 Hty1]]%elem_of_threads
      [[Hx2 Hy2] [Htx2 Hty2]]%elem_of_threads Hw1 Hw2 Heq.
    cbn [x y] in *. unfold thread_write in Hw1, Hw2. cbn [fst snd] in Hw1, Hw2.
    repeat case_decide; simplify_eq. cbn [fst] in Heq.
    destruct bi1 as [bix1 biy1], ti1 as [tix1 tiy1],
             bi2 as [bix2 biy2], ti2 as [tix2 tiy2]. cbn [x y] in *.
    set (r1 := by_ * biy1 + tiy1) in *. set (r2 := by_ * biy2 + tiy2) in *.
    set (c1 := bx * bix1 + tix1) in *. set (c2 := bx * bix2 + tix2) in *.
    assert (0 ≤ c1 ∧ 0 ≤ c2) as [Hc1 Hc2] by (unfold c1, c2; nia).
    assert (r1 = r2) as Hr by (destruct (Z.lt_trichotomy r1 r2) as [?|[?|?]]; nia).
    assert (c1 = c2) as Hc by nia.
    unfold r1, r2, c1, c2 in Hr, Hc.
    assert (biy1 = biy2) by (destruct (Z.lt_trichotomy biy1 biy2) as [?|[?|?]]; nia).
    assert (bix1 = bix2) by (destruct (Z.lt_trichotomy bix1 bix2) as [?|[?|?]]; nia).
    f_equal; f_equal; lia. }
  - unfold launch_writes. apply collect_writes_total.
    intros t Ht. by apply kern_thread_write.
  - intros w (t & Ht & Hw)%list_elem_of_omap.
    destruct t as [bi ti]. apply elem_of_threads in Ht as [[Hx Hy] [Htx Hty]].
    cbn [x y] in *. unfold thread_write in Hw. cbn [fst snd] in Hw.
    case_decide as Hg; [|done]. simplify_eq. cbn [fst snd].
    set (r := by_ * y bi + y ti) in *. set (c := bx * x bi + x ti) in *.
    assert (0 ≤ r) by nia. assert (0 ≤ c) by nia.
    rewrite Z.div_add_l, Z.div_small, Z.add_0_r by lia.
    rewrite Z.add_comm, Z.mod_add, Z.mod_small by lia.
    split; [nia|done].
  - intros p. split.
    + intros ([p' v] & -> & (t & Ht & Hw)%list_elem_of_omap)%list_elem_of_fmap.
      destruct t as [bi ti]. apply elem_of_threads in Ht as [[Hx Hy] [Htx Hty]].
      cbn [x y] in *. unfold thread_write in Hw. cbn [fst snd] in Hw.
      case_decide as Hg; [|done]. simplify_eq. cbn [fst snd].
      set (r := by_ * y bi + y ti) in *. set (c := bx * x bi + x ti) in *.
      assert (0 ≤ r) by nia. assert (0 ≤ c) by nia.
      rewrite Z.div_add_l, Z.div_small, Z.add_0_r by lia.
      rewrite Z.add_comm, Z.mod_add, Z.mod_small by lia.
      split; [nia|]. split; nia.
    + intros (Hp & Hr & Hc).
      pose proof (Z.div_mod p dc ltac:(lia)) as Hdm.
      pose proof (Z.mod_pos_bound p dc Hdc) as Hm.
      set (r := p / dc) in *. set (c := p mod dc) in *.
      assert (Hr0 : 0 ≤ r) by (apply Z.div_pos; lia).
      assert (Hrd : r < dr) by (apply Z.div_lt_upper_bound; lia).
      apply list_elem_of_fmap.
      exists (p, val r c). split; [done|].
      apply list_elem_of_omap.
      exists (Dim3 (c / bx) (r / by_), Dim3 (c mod bx) (r mod by_)).
      pose proof (Z.div_mod r by_ ltac:(lia)).
      pose proof (Z.div_mod c bx ltac:(lia)).
      pose proof (Z.mod_pos_bound r by_ Hby).
      pose proof (Z.mod_pos_bound c bx Hbx).
      split.
      * apply elem_of_threads. cbn [x y].
        assert (0 ≤ c / bx) by (apply Z.div_pos; lia).
        assert (0 ≤ r / by_) by (apply Z.div_pos; lia).
        assert (c / bx < gx) by (apply Z.div_lt_upper_bound; lia).
        assert (r / by_ < gy) by (apply Z.div_lt_upper_bound; lia).
        lia.
      * unfold thread_write. cbn [x y fst snd].
        replace (by_ * (r / by_) + r mod by_) with r by lia.
        replace (bx * (c / bx) + c mod bx) with c by lia.
        rewrite decide_True by lia. do 2 f_equal. lia.
Qed.

(** The destination buffer after the launch. *)
Lemma run_grid_spec :
  run_grid kern (Dim3 gx gy) (Dim3 bx by_) (replicate (Z.to_nat (dr * dc)) None)
  = Some ((λ p, if decide (p / dc < gy * by_ ∧ p mod dc < gx * bx)
                then Some (val (p / dc) (p mod dc)) else None)
          <$> seqZ 0 (dr * dc)).
Proof using All.
  destruct launch_writes_spec as (ws & Hws & Hval & Hdom & _).
  unfold run_grid. rewrite Hws.
  destruct (store_all_spec (λ p, val (p / dc) (p mod dc)) ws
              (replicate (Z.to_nat (dr * dc)) None))
    as (mem' & Hst & Hlen & Hlk).
  { intros w Hw. rewrite length_replicate. destruct (Hval w Hw). split; [nia|done]. }
  rewrite Hst. f_equal. rewrite length_replicate in Hlen.
  apply list_eq. intros n. rewrite Hlk, list_lookup_fmap.
  destruct (decide (Z.of_nat n < dr * dc)) as [Hn|Hn].
  - rewrite lookup_seqZ_lt by lia. cbn [fmap option_fmap option_map].
    rewrite Z.add_0_l. rewrite lookup_replicate_2 by nia.
    destruct (decide (Z.of_nat n ∈ ws.*1)) as [Hin|Hnin].
    + apply Hdom in Hin as (_ & ? & ?). by rewrite decide_True.
    + rewrite decide_False; [done|]. intros [? ?]. apply Hnin, Hdom. lia.
  - rewrite lookup_seqZ_ge by lia. cbn.
    rewrite decide_False by (intros Hin%Hdom; lia).
    apply lookup_replicate_None. nia.
Qed.

End Grid.

(** ** The host functions when every runtime call succeeds *)

Section Success.

Variable rt : nat → Z.
Variable sizeofT : Z.
Hypothesis Hrt : ∀ n, rt n = cudaSuccess.

Lemma api_ok c p :
  api rt c p = (Returned cudaSuccess, Process (trace p ++ [(c, cudaSuccess)]) (stderr p)).
Proof using Hrt. unfold api. by rewrite Hrt. Qed.

Lemma cudaMalloc_ok size p :
  cudaMalloc rt sizeofT size p
  = (Returned (replicate (Z.to_nat (size / sizeofT)) None, cudaSuccess),
     Process (trace p ++ [(cudaMalloc_call size, cudaSuccess)]) (stderr p)).
Proof using Hrt. unfold cudaMalloc, bind. rewrite api_ok. done. Qed.

Lemma cudaMemcpyHostToDevice_ok h size p :
  size / sizeofT = Z.of_nat (length h) →
  cudaMemcpyHostToDevice rt sizeofT h size p
  = (Returned (h, cudaSuccess),
     Process (trace p ++ [(cudaMemcpy_call size, cudaSuccess)]) (stderr p)).
Proof using Hrt.
  intros Hlen. unfold cudaMemcpyHostToDevice, bind. rewrite api_ok.
  rewrite decide_True by done. rewrite decide_True by lia.
  rewrite Hlen, Nat2Z.id, firstn_all. done.
Qed.

Lemma cudaMemcpyDeviceToHost_ok d size p :
  size / sizeofT = Z.of_nat (length d) →
  cudaMemcpyDeviceToHost rt sizeofT d size p
  = (Returned (d, cudaSuccess),
     Process (trace p ++ [(cudaMemcpy_call size, cudaSuccess)]) (stderr p)).
Proof using Hrt.
  intros Hlen. unfold cudaMemcpyDeviceToHost, bind. rewrite api_ok.
  rewrite decide_True by done. rewrite decide_True by lia.
  rewrite Hlen, Nat2Z.id, firstn_all. done.
Qed.

Lemma launch_ok kernel g b shared d_dest d p :
  run_grid kernel g b d_dest = Some d →
  launch rt kernel g b shared d_dest p
  = (Returned d, Process (trace p ++ [(launch_call g b shared, cudaSuccess)]) (stderr p)).
Proof using Hrt.
  intros Hrun. unfold launch, bind. rewrite api_ok.
  rewrite decide_True by done. by rewrite Hrun.
Qed.

Lemma checkCudaError_ok func line p :
  checkCudaError cudaSuccess func line p = (Returned (), p).
Proof. done. Qed.

End Success.

(** ** Sizes and launch geometry below 2^24 *)

Section Geometry.

Variables (sizeofT k rows cols : Z).
Hypothesis HT : 0 < sizeofT.
Hypothesis Hvalid : valid_input k rows cols.

Lemma dest_size_exact :
  rows < 2 ^ 64 → cols < 2 ^ 64 →
  (rows - (k - 1)) * (cols - (k - 1)) * sizeofT < 2 ^ 24 →
  dest_size sizeofT k rows cols = (rows - (k - 1)) * (cols - (k - 1)) * sizeofT.
Proof using HT Hvalid.
  intros Hr Hc Hsmall. destruct Hvalid as (_ & H3 & Hkr & Hkc).
  unfold dest_size, dest_rows, dest_cols.
  rewrite (size_t_small (k - 1)) by lia.
  rewrite (size_t_small (rows - (k - 1))), (size_t_small (cols - (k - 1))) by lia.
  set (dr := rows - (k - 1)) in *. set (dc := cols - (k - 1)) in *.
  assert (0 < dr) by (unfold dr; lia). assert (0 < dc) by (unfold dc; lia).
  assert (dr * dc < 2 ^ 24) by nia.
  rewrite !float_of_Z_Fint by nia.
  rewrite !Fmult_Fint by nia. rewrite Ftrunc_Fint by nia.
  apply size_t_small. nia.
Qed.

Lemma src_size_exact :
  rows * cols * sizeofT < 2 ^ 64 →
  src_size sizeofT rows cols = rows * cols * sizeofT.
Proof using HT Hvalid.
  intros Hfit. destruct Hvalid as (_ & H3 & Hkr & Hkc). unfold src_size.
  assert (0 ≤ rows * cols) by nia.
  assert (rows * cols ≤ rows * cols * sizeofT) by nia.
  rewrite (size_t_small (rows * cols)) by lia. apply size_t_small. lia.
Qed.

(** The grid of the three functions that launch the direct kernel. *)
Lemma dimGrid_exact block_dim_x block_dim_y :
  rows < 2 ^ 64 → cols < 2 ^ 64 →
  rows - (k - 1) < 2 ^ 24 → cols - (k - 1) < 2 ^ 24 →
  0 < block_dim_x < 2 ^ 24 → 0 < block_dim_y < 2 ^ 24 →
  dimGrid k rows cols block_dim_x block_dim_y
  = Dim3 ((cols - (k - 1) + block_dim_y - 1) / block_dim_y)
         ((rows - (k - 1) + block_dim_x - 1) / block_dim_x).
Proof using Hvalid.
  intros Hr Hc Hdr Hdc Hbx Hby. destruct Hvalid as (_ & H3 & Hkr & Hkc).
  unfold dimGrid, dest_rows, dest_cols.
  rewrite (size_t_small (k - 1)) by lia.
  rewrite (size_t_small (rows - (k - 1))), (size_t_small (cols - (k - 1))) by lia.
  set (dr := rows - (k - 1)) in *. set (dc := cols - (k - 1)) in *.
  assert (0 < dr < 2 ^ 24) by (unfold dr in *; lia).
  assert (0 < dc < 2 ^ 24) by (unfold dc in *; lia).
  rewrite !float_of_Z_Fint by lia. rewrite !Fceil_Fdiv_Fint by lia.
  assert (Hq : ∀ a b, 0 < a < 2 ^ 24 → 0 < b → 0 ≤ (a + b - 1) / b < 2 ^ 32).
  { intros a b Ha Hb. split; [apply Z.div_pos; lia|].
    apply Z.div_lt_upper_bound; nia. }
  rewrite !uint_small by (apply Hq; lia). done.
Qed.

(** The grid of [sharedMemoryCrossCorrelation]. *)
Lemma sharedMemory_dimGrid_exact block_dim_x block_dim_y :
  rows < 2 ^ 24 → cols < 2 ^ 24 →
  0 < block_dim_x < 2 ^ 24 → 0 < block_dim_y < 2 ^ 24 →
  sharedMemory_dimGrid rows cols block_dim_x block_dim_y
  = Dim3 ((cols + block_dim_y - 1) / block_dim_y)
         ((rows + block_dim_x - 1) / block_dim_x).
Proof using Hvalid.
  intros Hr Hc Hbx Hby. destruct Hvalid as (_ & H3 & Hkr & Hkc).
  unfold sharedMemory_dimGrid.
  rewrite !float_of_Z_Fint by lia. rewrite !Fceil_Fdiv_Fint by lia.
  assert (Hq : ∀ a b, 0 < a < 2 ^ 24 → 0 < b → 0 ≤ (a + b - 1) / b < 2 ^ 32).
  { intros a b Ha Hb. split; [apply Z.div_pos; lia|].
    apply Z.div_lt_upper_bound; nia. }
  rewrite !uint_small by (apply Hq; lia). done.
Qed.

End Geometry.

(** ** [crossCorrelation] when every runtime call succeeds *)

Lemma ceil_div_covers a b : 0 < b → a ≤ (a + b - 1) / b * b < a + b.
Proof.
  intros Hb. pose proof (Z.div_mod (a + b - 1) b ltac:(lia)).
  pose proof (Z.mod_pos_bound (a + b - 1) b Hb). nia.
Qed.

Section DirectRun.

Variable rt : nat → Z.
Variables (sizeofT : Z) (A B : list Z) (k rows cols bdx bdy : Z).
Hypothesis Hrt : ∀ n, rt n = cudaSuccess.
Hypothesis HT : 0 < sizeofT.
Hypothesis Hvalid : valid_input k rows cols.
Hypothesis Hfit : rows * cols * sizeofT < 2 ^ 64.
Hypothesis HA : Z.of_nat (length A) = rows * cols.
Hypothesis HB : Z.of_nat (length B) = rows * cols.
Hypothesis Hsmall : (rows - (k - 1)) * (cols - (k - 1)) * sizeofT < 2 ^ 24.
Hypothesis Hbx : 0 < bdx < 2 ^ 24.
Hypothesis Hby : 0 < bdy < 2 ^ 24.

Lemma direct_run_grid :
  run_grid (crossCorrelationKernel sizeofT A B k rows cols)
    (Dim3 ((cols - (k - 1) + bdy - 1) / bdy) ((rows - (k - 1) + bdx - 1) / bdx))
    (Dim3 bdy bdx)
    (replicate (Z.to_nat ((rows - (k - 1)) * (cols - (k - 1)))) None)
  = Some (destination sizeofT A B k rows cols).
Proof using HT Hvalid Hfit HA HB Hsmall Hbx Hby.
  pose proof Hvalid as (_ & H3 & Hkr & Hkc).
  set (dr := rows - (k - 1)) in *. set (dc := cols - (k - 1)) in *.
  assert (Hdr : 0 < dr) by (unfold dr; lia).
  assert (Hdc : 0 < dc) by (unfold dc; lia).
  assert (Hdr24 : dr < 2 ^ 24) by nia. assert (Hdc24 : dc < 2 ^ 24) by nia.
  assert (Hfit' : rows * cols < 2 ^ 64) by nia.
  pose proof (ceil_div_covers dc bdy ltac:(lia)) as Hcx.
  pose proof (ceil_div_covers dr bdx ltac:(lia)) as Hcy.
  rewrite (run_grid_spec _ (cell_value sizeofT A B k cols) dr dc _ _ bdy bdx);
    try lia.
  - f_equal. unfold destination. fold dr dc. apply list_fmap_ext.
    intros i p Hp. apply lookup_seqZ in Hp as [-> Hp].
    pose proof (Z.mod_pos_bound (0 + Z.of_nat i) dc Hdc).
    assert (0 ≤ (0 + Z.of_nat i) / dc < dr).
    { split; [apply Z.div_pos; lia|apply Z.div_lt_upper_bound; lia]. }
    rewrite decide_True by lia. done.
  - intros bi ti.
    pose proof (crossCorrelationKernel_spec sizeofT A B k rows cols
                  Hvalid Hfit' HA HB (Dim3 bdy bdx) bi ti) as Hk.
    cbv zeta in Hk |- *. exact Hk.
Qed.

(** The direct kernel, launched as the host functions launch it, writes
    every cell of the destination exactly once and nothing else. *)
Lemma direct_kernel_writes_each_cell_once :
  ∃ ws,
    launch_writes (crossCorrelationKernel sizeofT A B k rows cols)
      (dimGrid k rows cols bdx bdy) (dimBlock bdx bdy) = Some ws
    ∧ NoDup ws.*1
    ∧ ∀ p, p ∈ ws.*1 ↔ 0 ≤ p < (rows - (k - 1)) * (cols - (k - 1)).
Proof using HT Hvalid Hfit HA HB Hsmall Hbx Hby.
  pose proof Hvalid as (_ & H3 & Hkr & Hkc).
  set (dr := rows - (k - 1)) in *. set (dc := cols - (k - 1)) in *.
  assert (Hdr : 0 < dr) by (unfold dr; lia).
  assert (Hdc : 0 < dc) by (unfold dc; lia).
  assert (Hdr24 : dr < 2 ^ 24) by nia. assert (Hdc24 : dc < 2 ^ 24) by nia.
  assert (Hfit' : rows * cols < 2 ^ 64) by nia.
  assert (Hrows : rows < 2 ^ 64) by nia. assert (Hcols : cols < 2 ^ 64) by nia.
  pose proof (ceil_div_covers dc bdy ltac:(lia)) as Hcx.
  pose proof (ceil_div_covers dr bdx ltac:(lia)) as Hcy.
  rewrite dimGrid_exact by done. fold dr dc.
  unfold dimBlock. rewrite !uint_small by lia.
  destruct (launch_writes_spec
              (crossCorrelationKernel sizeofT A B k rows cols)
              (cell_value sizeofT A B k cols) dr dc
              ((dc + bdy - 1) / bdy) ((dr + bdx - 1) / bdx) bdy bdx)
    as (ws & Hws & _ & Hdom & Hnd); try lia.
  { intros bi ti.
    pose proof (crossCorrelationKernel_spec sizeofT A B k rows cols
                  Hvalid Hfit' HA HB (Dim3 bdy bdx) bi ti) as Hk.
    cbv zeta in Hk |- *. exact Hk. }
  exists ws. split; [done|]. split; [done|].
  intros p. rewrite Hdom. split; [tauto|]. intros Hp. split; [done|].
  pose proof (Z.mod_pos_bound p dc Hdc).
  assert (p / dc < dr) by (apply Z.div_lt_upper_bound; lia). lia.
Qed.

Theorem crossCorrelation_run p :
  crossCorrelation rt sizeofT A B k rows cols bdx bdy p
  = (Returned (destination sizeofT A B k rows cols),
     Process
       (trace p ++
        [(cudaMalloc_call (rows * cols * sizeofT), cudaSuccess);
         (cudaMemcpy_call (rows * cols * sizeofT), cudaSuccess);
         (cudaMalloc_call (rows * cols * sizeofT), cudaSuccess);
         (cudaMemcpy_call (rows * cols * sizeofT), cudaSuccess);
         (cudaMalloc_call ((rows - (k - 1)) * (cols - (k - 1)) * sizeofT), cudaSuccess);
         (launch_call
            (Dim3 ((cols - (k - 1) + bdy - 1) / bdy) ((rows - (k - 1) + bdx - 1) / bdx))
            (Dim3 bdy bdx) 0, cudaSuccess);
         (cudaDeviceSynchronize_call, cudaSuccess);
         (cudaMemcpy_call ((rows - (k - 1)) * (cols - (k - 1)) * sizeofT), cudaSuccess);
         (cudaFree_call, cudaSuccess); (cudaFree_call, cudaSuccess);
         (cudaFree_call, cudaSuccess)])
       (stderr p)).
Proof using All.
  pose proof Hvalid as (_ & H3 & Hkr & Hkc).
  assert (Hdr : 0 < rows - (k - 1)) by lia.
  assert (Hdc : 0 < cols - (k - 1)) by lia.
  destruct (product_bounds rows cols sizeofT (2 ^ 64)) as (Hrows & Hcols & Hrc');
    [lia..|].
  assert (Hrc0 : 0 < rows * cols) by (apply Z.mul_pos_pos; lia).
  assert (Hrc : 0 ≤ rows * cols ≤ rows * cols * sizeofT)
    by (split; [lia|apply Z.le_mul_diag_r; lia]).
  destruct (product_bounds (rows - (k - 1)) (cols - (k - 1)) sizeofT (2 ^ 24))
    as (Hdr24 & Hdc24 & Hdd24); [lia..|].
  assert (Hdd : 0 < (rows - (k - 1)) * (cols - (k - 1)))
    by (apply Z.mul_pos_pos; lia).
  unfold crossCorrelation.
  rewrite (src_size_exact sizeofT k rows cols) by done.
  rewrite dest_size_exact by done.
  rewrite dimGrid_exact by done.
  unfold dimBlock. rewrite !uint_small by lia.
  unfold bind.
  rewrite cudaMalloc_ok by done. cbn [fst snd]. rewrite checkCudaError_ok.
  rewrite cudaMemcpyHostToDevice_ok by (done || rewrite Z.div_mul; lia).
  cbn [fst snd]. rewrite checkCudaError_ok.
  rewrite cudaMalloc_ok by done. cbn [fst snd]. rewrite checkCudaError_ok.
  rewrite cudaMemcpyHostToDevice_ok by (done || rewrite Z.div_mul; lia).
  cbn [fst snd]. rewrite checkCudaError_ok.
  rewrite cudaMalloc_ok by done. cbn [fst snd]. rewrite checkCudaError_ok.
  rewrite Z.div_mul by lia.
  erewrite launch_ok by (done || apply direct_run_grid).
  rewrite api_ok by done.
  rewrite cudaMemcpyDeviceToHost_ok.
  2: done.
  2: { rewrite Z.div_mul by lia. unfold destination.
       rewrite length_fmap, length_seqZ. lia. }
  cbn [fst snd]. rewrite checkCudaError_ok.
  rewrite !api_ok by done. unfold ret. cbn [trace stderr].
  rewrite <- !(assoc_L (++)). done.
Qed.

End DirectRun.

(** ** [crossCorrelation] for any grid *)

Section GridRun.

Variable rt : nat → Z.
Variables (sizeofT : Z) (A B : list Z) (k rows cols bdx bdy gx gy : Z).
Hypothesis Hrt : ∀ n, rt n = cudaSuccess.
Hypothesis HT : 0 < sizeofT.
Hypothesis Hvalid : valid_input k rows cols.
Hypothesis Hfit : rows * cols * sizeofT < 2 ^ 64.
Hypothesis HA : Z.of_nat (length A) = rows * cols.
Hypothesis HB : Z.of_nat (length B) = rows * cols.
Hypothesis Hsize :
  dest_size sizeofT k rows cols = (rows - (k - 1)) * (cols - (k - 1)) * sizeofT.
Hypothesis Hgrid : dimGrid k rows cols bdx bdy = Dim3 gx gy.
Hypothesis Hbx : 0 < bdx < 2 ^ 32.
Hypothesis Hby : 0 < bdy < 2 ^ 32.
Hypothesis Hgx : 0 ≤ gx ∧ gx * bdy < 2 ^ 32.
Hypothesis Hgy : 0 ≤ gy ∧ gy * bdx < 2 ^ 32.

(** [crossCorrelation] for a grid of [gx × gy] blocks, whether or not it
    covers the destination: the cells whose row and column some thread
    has are written, the others come back as the fresh buffer held
    them. *)
Lemma crossCorrelation_run_grid p :
  (crossCorrelation rt sizeofT A B k rows cols bdx bdy p).1
  = Returned
      ((λ q, if decide (q / (cols - (k - 1)) < gy * bdx
                        ∧ q mod (cols - (k - 1)) < gx * bdy)
             then Some (cell_value sizeofT A B k cols
                          (q / (cols - (k - 1))) (q mod (cols - (k - 1))))
             else None)
       <$> seqZ 0 ((rows - (k - 1)) * (cols - (k - 1)))).
Proof using All.
  pose proof Hvalid as (_ & H3 & Hkr & Hkc).
  assert (Hdr : 0 < rows - (k - 1)) by lia.
  assert (Hdc : 0 < cols - (k - 1)) by lia.
  destruct (product_bounds rows cols sizeofT (2 ^ 64)) as (Hrows & Hcols & Hrc');
    [lia..|].
  assert (Hrc0 : 0 < rows * cols) by (apply Z.mul_pos_pos; lia).
  assert (Hdd : 0 < (rows - (k - 1)) * (cols - (k - 1)))
    by (apply Z.mul_pos_pos; lia).
  unfold crossCorrelation.
  rewrite (src_size_exact sizeofT k rows cols) by done.
  rewrite Hsize, Hgrid.
  unfold dimBlock. rewrite !uint_small by lia.
  unfold bind.
  rewrite cudaMalloc_ok by done. cbn [fst snd]. rewrite checkCudaError_ok.
  rewrite cudaMemcpyHostToDevice_ok by (done || rewrite Z.div_mul; lia).
  cbn [fst snd]. rewrite checkCudaError_ok.
  rewrite cudaMalloc_ok by done. cbn [fst snd]. rewrite checkCudaError_ok.
  rewrite cudaMemcpyHostToDevice_ok by (done || rewrite Z.div_mul; lia).
  cbn [fst snd]. rewrite checkCudaError_ok.
  rewrite cudaMalloc_ok by done. cbn [fst snd]. rewrite checkCudaError_ok.
  rewrite Z.div_mul by lia.
  erewrite launch_ok; [|done|].
  2: { apply (run_grid_spec _ (cell_value sizeofT A B k cols)
                (rows - (k - 1)) (cols - (k - 1)) gx gy bdy bdx); try lia.
       intros bi ti.
       pose proof (crossCorrelationKernel_spec sizeofT A B k rows cols
                     Hvalid Hrc' HA HB (Dim3 bdy bdx) bi ti) as Hk.
       cbv zeta in Hk |- *. exact Hk. }
  rewrite api_ok by done.
  rewrite cudaMemcpyDeviceToHost_ok.
  2: done.
  2: { rewrite Z.div_mul by lia. rewrite length_fmap, length_seqZ. lia. }
  cbn [fst snd]. rewrite checkCudaError_ok.
  rewrite !api_ok by done. done.
Qed.

End GridRun.

(** ** A program logic for host functions *)

Lemma hoare_ret {A} (a : A) (P : process → Prop) Q E U :
  (∀ p, P p → Q a p) → hoare P (ret a) Q E U.
Proof. intros H p Hp. by apply H. Qed.

Lemma hoare_bind {A B} (m : M A) (f : A → M B) P R Q E U :
  hoare P m R E U → (∀ a, hoare (R a) (f a) Q E U) →
  hoare P (bind m f) Q E U.
Proof.
  intros Hm Hf p Hp. unfold bind. specialize (Hm p Hp).
  destruct (m p) as [[a| |] p']; [|done..]. by apply Hf.
Qed.

Lemma hoare_api rt c (P : process → Prop) (Q : Z → process → Prop) E U :
  (∀ p, P p → Q (rt (length (trace p)))
                (Process (trace p ++ [(c, rt (length (trace p)))]) (stderr p))) →
  hoare P (api rt c) Q E U.
Proof. intros H p Hp. by apply H. Qed.

Lemma all_checked_ok_snoc tr c err :
  all_checked_ok tr → (is_Some (checked c) → err = cudaSuccess) →
  all_checked_ok (tr ++ [(c, err)]).
Proof.
  intros Htr Hc c' err' [Hin|Hin%list_elem_of_singleton]%elem_of_app Hch.
  - by eapply Htr.
  - simplify_eq. by apply Hc.
Qed.

Lemma count_snoc f tr c err :
  count f (tr ++ [(c, err)]) = count f tr + (if f c then 1 else 0).
Proof.
  induction tr as [|[c' e'] tr IH]; cbn [app count]; [lia|]. rewrite IH. lia.
Qed.

Lemma pending_quiet n func p : pending n func cudaSuccess p → quiet_after (S n) p.
Proof.
  intros (tr & c & Htr & Hc & Hok & Herr & Hn). split; [split; [|done]|].
  - rewrite Htr. by apply all_checked_ok_snoc.
  - rewrite Htr, count_snoc.
    replace (is_checked c) with true by (unfold is_checked; by rewrite Hc). lia.
Qed.

Section Checks.

Variable rt : nat → Z.
Variable sizeofT : Z.
Variable sites : list (string * Z).

Lemma hoare_unchecked n c :
  checked c = None →
  hoare (quiet_after n) (api rt c) (λ _, quiet_after n) (reported sites) quiet.
Proof using Type.
  intros Hc. apply hoare_api. intros p [[Hok Herr] Hn].
  split; [split; [|done]|]; cbn [trace].
  - apply all_checked_ok_snoc; [done|]. rewrite Hc. by intros [? ?].
  - rewrite count_snoc.
    replace (is_checked c) with false by (unfold is_checked; by rewrite Hc). lia.
Qed.

Lemma hoare_checked n c func :
  checked c = Some func →
  hoare (quiet_after n) (api rt c) (pending n func) (reported sites) quiet.
Proof using Type.
  intros Hc. apply hoare_api. intros p [[Hok Herr] Hn].
  by exists (trace p), c.
Qed.

Lemma hoare_cudaMalloc n size :
  hoare (quiet_after n) (cudaMalloc rt sizeofT size)
    (λ r, pending n "cudaMalloc" r.2) (reported sites) quiet.
Proof using Type.
  unfold cudaMalloc. eapply hoare_bind.
  - by apply hoare_checked.
  - intros err. apply hoare_ret. intros p Hp. done.
Qed.

Lemma hoare_cudaMemcpyHostToDevice n h size :
  hoare (quiet_after n) (cudaMemcpyHostToDevice rt sizeofT h size)
    (λ r, pending n "cudaMemcpy" r.2) (reported sites) quiet.
Proof using Type.
  unfold cudaMemcpyHostToDevice. eapply hoare_bind.
  - by apply hoare_checked.
  - intros err. destruct (decide (err = cudaSuccess)) as [->|].
    + case_decide; [by apply hoare_ret|].
      intros p Hp. by apply (pending_quiet n "cudaMemcpy").
    + by apply hoare_ret.
Qed.

Lemma hoare_cudaMemcpyDeviceToHost n d size :
  hoare (quiet_after n) (cudaMemcpyDeviceToHost rt sizeofT d size)
    (λ r, pending n "cudaMemcpy" r.2) (reported sites) quiet.
Proof using Type.
  unfold cudaMemcpyDeviceToHost. eapply hoare_bind.
  - by apply hoare_checked.
  - intros err. destruct (decide (err = cudaSuccess)) as [->|].
    + case_decide; [by apply hoare_ret|].
      intros p Hp. by apply (pending_quiet n "cudaMemcpy").
    + by apply hoare_ret.
Qed.

Lemma hoare_launch n kernel g b shared d_dest :
  hoare (quiet_after n) (launch rt kernel g b shared d_dest)
    (λ _, quiet_after n) (reported sites) quiet.
Proof using Type.
  unfold launch. eapply hoare_bind.
  - by apply hoare_unchecked.
  - intros err. cbn beta. case_decide; [|by apply hoare_ret].
    destruct (run_grid _ _ _ _); [by apply hoare_ret|]. intros p [Hp _]. done.
Qed.

(** The check of the [n]-th allocation or copy prints the name and the
    line of the [n]-th site. *)
Lemma hoare_checkCudaError n err func line :
  sites !! n = Some (func, line) →
  hoare (pending n func err) (checkCudaError err func line)
    (λ _, quiet_after (S n)) (reported sites) quiet.
Proof using Type.
  intros Hsite. unfold checkCudaError.
  destruct (decide (err ≠ cudaSuccess)) as [Hne|Heq].
  - intros p (tr & c & Htr & Hc & Hok & Herr & Hn). cbn.
    split; [done|]. exists tr, c, err, func, line. rewrite Herr, Hn, Nat2Z.id. done.
  - apply dec_stable in Heq as ->. apply hoare_ret. intros p.
    apply pending_quiet.
Qed.

End Checks.

(** One step of a host function, for whichever call comes next. *)
Ltac hoare_step :=
  lazymatch goal with
  | |- hoare _ (bind _ _) _ _ _ =>
      eapply hoare_bind;
      [ first [ apply hoare_cudaMalloc
              | apply hoare_cudaMemcpyHostToDevice
              | apply hoare_cudaMemcpyDeviceToHost
              | apply hoare_checkCudaError; reflexivity
              | apply hoare_launch
              | apply hoare_unchecked; reflexivity ]
      | intros ? ]
  | |- hoare _ (ret _) _ _ _ => apply hoare_ret; intros ? [? ?]; assumption
  end.

Section CheckedFunctions.

Variable rt : nat → Z.
Variable sizeofT : Z.
Variable elapsedTime : float.

Lemma crossCorrelation_checks h_src1 h_src2 k rows cols bdx bdy :
  hoare (quiet_after 0)
    (crossCorrelation rt sizeofT h_src1 h_src2 k rows cols bdx bdy)
    (λ _, quiet) (reported crossCorrelation_check_sites) quiet.
Proof using Type. unfold crossCorrelation. cbv zeta. repeat hoare_step. Qed.

Lemma sharedMemoryCrossCorrelation_checks h_src1 h_src2 k rows cols bdx bdy :
  hoare (quiet_after 0)
    (sharedMemoryCrossCorrelation rt sizeofT h_src1 h_src2 k rows cols bdx bdy)
    (λ _, quiet) (reported sharedMemoryCrossCorrelation_check_sites) quiet.
Proof using Type. unfold sharedMemoryCrossCorrelation. cbv zeta. repeat hoare_step. Qed.

Lemma crossCorrelationTimeWithAllocation_checks h_src1 h_src2 k rows cols bdx bdy :
  hoare (quiet_after 0)
    (crossCorrelationTimeWithAllocation rt sizeofT elapsedTime
       h_src1 h_src2 k rows cols bdx bdy)
    (λ _, quiet) (reported crossCorrelationTimeWithAllocation_check_sites) quiet.
Proof using Type.
  unfold crossCorrelationTimeWithAllocation. cbv zeta. repeat hoare_step.
Qed.

Lemma crossCorrelationTimeWithoutAllocation_checks h_src1 h_src2 k rows cols bdx bdy :
  hoare (quiet_after 0)
    (crossCorrelationTimeWithoutAllocation rt sizeofT elapsedTime
       h_src1 h_src2 k rows cols bdx bdy)
    (λ _, quiet) (reported crossCorrelationTimeWithoutAllocation_check_sites) quiet.
Proof using Type.
  unfold crossCorrelationTimeWithoutAllocation. cbv zeta. repeat hoare_step.
Qed.

End CheckedFunctions.

(** ** The grid of every launch *)

(** Properties of the trace that a host function keeps, call by call:
    [T] is kept by every call in [allowed]. *)
Section Keeps.

Variable rt : nat → Z.
Variable sizeofT : Z.
Variable T : list (call * Z) → Prop.
Variable allowed : call → Prop.
Hypothesis Hstep : ∀ tr c err, T tr → allowed c → T (tr ++ [(c, err)]).

Lemma keeps_api c : allowed c → keeps T (api rt c).
Proof using Hstep. intros Hc. apply hoare_api. intros p Hp. by apply Hstep. Qed.

Lemma keeps_cudaMalloc size :
  allowed (cudaMalloc_call size) → keeps T (cudaMalloc rt sizeofT size).
Proof using Hstep.
  intros Hc. unfold cudaMalloc. eapply hoare_bind; [by apply keeps_api|].
  intros err. by apply hoare_ret.
Qed.

Lemma keeps_cudaMemcpyHostToDevice h size :
  allowed (cudaMemcpy_call size) → keeps T (cudaMemcpyHostToDevice rt sizeofT h size).
Proof using Hstep.
  intros Hc. unfold cudaMemcpyHostToDevice.
  eapply hoare_bind; [by apply keeps_api|].
  intros err. cbn beta. repeat case_decide; (by apply hoare_ret) || by intros p Hp.
Qed.

Lemma keeps_cudaMemcpyDeviceToHost d size :
  allowed (cudaMemcpy_call size) → keeps T (cudaMemcpyDeviceToHost rt sizeofT d size).
Proof using Hstep.
  intros Hc. unfold cudaMemcpyDeviceToHost.
  eapply hoare_bind; [by apply keeps_api|].
  intros err. cbn beta. repeat case_decide; (by apply hoare_ret) || by intros p Hp.
Qed.

Lemma keeps_checkCudaError err func line : keeps T (checkCudaError err func line).
Proof using Type.
  unfold checkCudaError. case_decide; [|by apply hoare_ret]. by intros p Hp.
Qed.

Lemma keeps_launch kernel g b shared d_dest :
  allowed (launch_call g b shared) → keeps T (launch rt kernel g b shared d_dest).
Proof using Hstep.
  intros Hc. unfold launch. eapply hoare_bind; [by apply keeps_api|].
  intros err. cbn beta. case_decide; [|by apply hoare_ret].
  destruct (run_grid _ _ _ _); [by apply hoare_ret|]. by intros p Hp.
Qed.

End Keeps.

Lemma launches_with_step g tr c err :
  launches_with g tr → (∀ g' b s, c = launch_call g' b s → g' = g) →
  launches_with g (tr ++ [(c, err)]).
Proof.
  intros Htr Hc g' b s err' [Hin|Hin%list_elem_of_singleton]%elem_of_app.
  - by eapply Htr.
  - simplify_eq. by eapply Hc.
Qed.

Lemma launched_with_step g tr c err :
  launched_with g tr → True → launched_with g (tr ++ [(c, err)]).
Proof.
  intros (b & s & e & Hin) _. exists b, s, e. apply elem_of_app. by left.
Qed.

Lemma allocates_only_step sizes tr c err :
  allocates_only sizes tr → (∀ size, c = cudaMalloc_call size → size ∈ sizes) →
  allocates_only sizes (tr ++ [(c, err)]).
Proof.
  intros Htr Hc size err' [Hin|Hin%list_elem_of_singleton]%elem_of_app.
  - by eapply Htr.
  - simplify_eq. by eapply Hc.
Qed.

(** A launch with the grid [g], from any state. *)
Lemma launch_launched rt kernel g b shared d_dest :
  hoare (λ _, True) (launch rt kernel g b shared d_dest)
    (λ _ p, launched_with g (trace p)) (λ _ _, True) (λ _, True).
Proof.
  unfold launch. eapply hoare_bind.
  - apply hoare_api with (Q := λ _ p, launched_with g (trace p)).
    intros p _. exists b, shared, (rt (length (trace p))). cbn [trace].
    apply elem_of_app. right. by apply list_elem_of_singleton.
  - intros err. cbn beta. case_decide; [|by apply hoare_ret].
    destruct (run_grid _ _ _ _); [by apply hoare_ret|]. by intros p Hp.
Qed.

Lemma hoare_exit_weaken {A} P (m : M A) Q (E E' : Z → process → Prop) (U U' : process → Prop) :
  hoare P m Q E U → (∀ s p, E s p → E' s p) → (∀ p, U p → U' p) →
  hoare P m Q E' U'.
Proof.
  intros Hm HE HU p Hp. specialize (Hm p Hp).
  destruct (m p) as [[a| |] p']; auto.
Qed.

Lemma hoare_True {A} (P : process → Prop) (m : M A) :
  hoare P m (λ _ _, True) (λ _ _, True) (λ _, True).
Proof. intros p _. by destruct (m p) as [[a| |] p']. Qed.

(** One call of a host function under a property of the trace that the
    call keeps ([Hstep] is the lemma that says so). *)
Ltac keeps_step Hstep :=
  lazymatch goal with
  | |- hoare _ (bind _ _) _ _ _ =>
      eapply hoare_bind;
      [ first [ apply (keeps_cudaMalloc _ _ _ _ Hstep)
              | apply (keeps_cudaMemcpyHostToDevice _ _ _ _ Hstep)
              | apply (keeps_cudaMemcpyDeviceToHost _ _ _ _ Hstep)
              | apply (keeps_checkCudaError _ _)
              | apply (keeps_launch _ _ _ Hstep)
              | apply (keeps_api _ _ _ Hstep) ];
        first [ exact I | discriminate | (intros; by simplify_eq)
              | (intros; simplify_eq; repeat constructor) ]
      | intros ? ]
  | |- hoare _ (ret _) _ _ _ => apply hoare_ret; intros ? ?; assumption
  end.

(** The calls before the launch, of which nothing is asked, and the
    launch. *)
Ltac reach_launch :=
  lazymatch goal with
  | |- hoare _ (bind (launch _ _ _ _ _ _) _) _ _ _ =>
      eapply hoare_bind;
      [ eapply hoare_exit_weaken; [apply launch_launched|done..] | intros ? ];
      cbv beta; eapply hoare_exit_weaken; [|done..]
  | |- hoare _ (bind _ _) _ _ _ =>
      eapply hoare_bind; [ apply hoare_True | intros ? ]; reach_launch
  end.

Section LaunchGrids.

Variable rt : nat → Z.
Variable sizeofT : Z.
Variable elapsedTime : float.

Lemma launches_grid_intro {A} g (m : M A) :
  keeps (launches_with g) m →
  hoare (λ _, True) m (λ _ p, launched_with g (trace p)) (λ _ _, True) (λ _, True) →
  launches_grid g m.
Proof using Type.
  intros Hk Hl. split.
  - intros p Hp. specialize (Hk p Hp). by destruct (m p) as [[a| |] p'].
  - intros p a p' Hm. specialize (Hl p I). by rewrite Hm in Hl.
Qed.

Lemma crossCorrelation_launches h_src1 h_src2 k rows cols bdx bdy :
  launches_grid (dimGrid k rows cols bdx bdy)
    (crossCorrelation rt sizeofT h_src1 h_src2 k rows cols bdx bdy).
Proof using Type.
  apply launches_grid_intro; unfold crossCorrelation, keeps; cbv zeta.
  - repeat keeps_step (launches_with_step (dimGrid k rows cols bdx bdy)).
  - reach_launch.
    repeat keeps_step (launched_with_step (dimGrid k rows cols bdx bdy)).
Qed.

(** [crossCorrelation] allocates buffers of [src_size] and of [dest_size]
    bytes and no other. *)
Lemma crossCorrelation_allocates h_src1 h_src2 k rows cols bdx bdy :
  keeps (allocates_only [src_size sizeofT rows cols; dest_size sizeofT k rows cols])
    (crossCorrelation rt sizeofT h_src1 h_src2 k rows cols bdx bdy).
Proof using Type.
  unfold crossCorrelation, keeps; cbv zeta.
  repeat keeps_step
    (allocates_only_step [src_size sizeofT rows cols; dest_size sizeofT k rows cols]).
Qed.

Lemma sharedMemoryCrossCorrelation_launches h_src1 h_src2 k rows cols bdx bdy :
  launches_grid (sharedMemory_dimGrid rows cols bdx bdy)
    (sharedMemoryCrossCorrelation rt sizeofT h_src1 h_src2 k rows cols bdx bdy).
Proof using Type.
  apply launches_grid_intro; unfold sharedMemoryCrossCorrelation, keeps; cbv zeta.
  - repeat keeps_step (launches_with_step (sharedMemory_dimGrid rows cols bdx bdy)).
  - reach_launch.
    repeat keeps_step (launched_with_step (sharedMemory_dimGrid rows cols bdx bdy)).
Qed.

Lemma crossCorrelationTimeWithAllocation_launches h_src1 h_src2 k rows cols bdx bdy :
  launches_grid (dimGrid k rows cols bdx bdy)
    (crossCorrelationTimeWithAllocation rt sizeofT elapsedTime
       h_src1 h_src2 k rows cols bdx bdy).
Proof using Type.
  apply launches_grid_intro;
    unfold crossCorrelationTimeWithAllocation, keeps; cbv zeta.
  - repeat keeps_step (launches_with_step (dimGrid k rows cols bdx bdy)).
  - reach_launch.
    repeat keeps_step (launched_with_step (dimGrid k rows cols bdx bdy)).
Qed.

Lemma crossCorrelationTimeWithoutAllocation_launches h_src1 h_src2 k rows cols bdx bdy :
  launches_grid (dimGrid k rows cols bdx bdy)
    (crossCorrelationTimeWithoutAllocation rt sizeofT elapsedTime
       h_src1 h_src2 k rows cols bdx bdy).
Proof using Type.
  apply launches_grid_intro;
    unfold crossCorrelationTimeWithoutAllocation, keeps; cbv zeta.
  - repeat keeps_step (launches_with_step (dimGrid k rows cols bdx bdy)).
  - reach_launch.
    repeat keeps_step (launched_with_step (dimGrid k rows cols bdx bdy)).
Qed.

End LaunchGrids.

(** * The claims *)

(** ** The direct kernel *)

Lemma crossCorrelationKernel_cell sizeofT A B k rows cols blockDim blockIdx threadIdx :
  valid_input k rows cols → rows * cols < 2 ^ 64 →
  Z.of_nat (length A) = rows * cols → Z.of_nat (length B) = rows * cols →
  global_row blockDim blockIdx threadIdx < rows - (k - 1) →
  global_col blockDim blockIdx threadIdx < cols - (k - 1) →
  crossCorrelationKernel sizeofT A B k rows cols blockDim blockIdx threadIdx
  = Some (Some (global_row blockDim blockIdx threadIdx * (cols - (k - 1))
                + global_col blockDim blockIdx threadIdx,
                cell_value sizeofT A B k cols
                  (global_row blockDim blockIdx threadIdx)
                  (global_col blockDim blockIdx threadIdx))).
Proof.
  intros Hvalid Hfit HA HB Hr Hc.
  pose proof (crossCorrelationKernel_spec sizeofT A B k rows cols
                Hvalid Hfit HA HB blockDim blockIdx threadIdx) as Hk.
  cbv zeta in Hk. rewrite Hk. unfold global_row, global_col in *.
  by rewrite decide_True.
Qed.

(** C9. For every thread of the direct kernel that passes the boundary
    guard, on sources of [rows * cols] elements and a valid window, every
    index the kernel reads [d_src1] and [d_src2] at lies in
    [[0, rows * cols)], and the kernel, whose reads return an option,
    never takes the out-of-bounds branch: it ends with a write. *)
Theorem direct_kernel_reads_in_bounds
    sizeofT d_src1 d_src2 k rows cols blockDim blockIdx threadIdx :
  valid_input k rows cols → rows * cols < 2 ^ 64 →
  Z.of_nat (length d_src1) = rows * cols →
  Z.of_nat (length d_src2) = rows * cols →
  global_row blockDim blockIdx threadIdx < rows - (k - 1) →
  global_col blockDim blockIdx threadIdx < cols - (k - 1) →
  (∀ i j l,
     k / 2 ≤ i < cols - k / 2 →
     global_row blockDim blockIdx threadIdx ≤ j
       ≤ global_row blockDim blockIdx threadIdx + 2 * (k / 2) →
     global_col blockDim blockIdx threadIdx ≤ l
       ≤ global_col blockDim blockIdx threadIdx + 2 * (k / 2) →
     0 ≤ src1_index cols (k / 2) i j (l - global_col blockDim blockIdx threadIdx)
       < rows * cols
     ∧ 0 ≤ src2_index cols j l < rows * cols)
  ∧ ∃ w, crossCorrelationKernel sizeofT d_src1 d_src2 k rows cols
           blockDim blockIdx threadIdx = Some (Some w).
Proof.
  intros Hvalid Hfit H1 H2 Hr Hc. split.
  - intros i j l Hi Hj Hl.
    pose proof (half_bounds k rows cols Hvalid) as [Hh1 Hh2].
    destruct Hvalid as (_ & H3 & Hkr & Hkc).
    pose proof (uint_range (uint (y blockDim * y blockIdx) + y threadIdx)) as Hr0.
    pose proof (uint_range (uint (x blockDim * x blockIdx) + x threadIdx)) as Hc0.
    fold (global_row blockDim blockIdx threadIdx) in Hr0.
    fold (global_col blockDim blockIdx threadIdx) in Hc0.
    unfold src1_index, src2_index.
    rewrite (size_t_small (j * cols)), (size_t_small (i - k / 2)) by nia.
    nia.
  - eexists. by apply crossCorrelationKernel_cell.
Qed.

Lemma direct_kernel_reads_in_bounds_witness :
  (valid_input 3 5 10 ∧ 5 * 10 < 2 ^ 64
   ∧ Z.of_nat (length src3) = 5 * 10 ∧ Z.of_nat (length src4) = 5 * 10
   ∧ global_row (Dim3 4 2) (Dim3 1 1) (Dim3 3 0) < 5 - (3 - 1)
   ∧ global_col (Dim3 4 2) (Dim3 1 1) (Dim3 3 0) < 10 - (3 - 1))
  ∧ (∀ i j l,
       3 / 2 ≤ i < 10 - 3 / 2 →
       global_row (Dim3 4 2) (Dim3 1 1) (Dim3 3 0) ≤ j
         ≤ global_row (Dim3 4 2) (Dim3 1 1) (Dim3 3 0) + 2 * (3 / 2) →
       global_col (Dim3 4 2) (Dim3 1 1) (Dim3 3 0) ≤ l
         ≤ global_col (Dim3 4 2) (Dim3 1 1) (Dim3 3 0) + 2 * (3 / 2) →
       0 ≤ src1_index 10 (3 / 2) i j
             (l - global_col (Dim3 4 2) (Dim3 1 1) (Dim3 3 0)) < 5 * 10
       ∧ 0 ≤ src2_index 10 j l < 5 * 10)
  ∧ ∃ w, crossCorrelationKernel 1 src3 src4 3 5 10
           (Dim3 4 2) (Dim3 1 1) (Dim3 3 0) = Some (Some w).
Proof.
  assert (Hv : valid_input 3 5 10) by (repeat split; lia).
  split; [repeat split; (reflexivity || lia || apply Hv)|].
  refine (direct_kernel_reads_in_bounds 1 src3 src4 3 5 10
            (Dim3 4 2) (Dim3 1 1) (Dim3 3 0) Hv _ _ _ _ _);
    (reflexivity || lia).
Defined.

(** The value of a cell, by the last offset of greatest score. *)
Lemma cell_value_last_argmax sizeofT A B k rows cols r c :
  0 < sizeofT → valid_input k rows cols → rows * cols < 2 ^ 64 →
  ∃ i, last_argmax (score sizeofT A B cols k r c) (k / 2) (cols - k / 2) i
       ∧ cell_value sizeofT A B k cols r c = castT sizeofT (i - 1).
Proof.
  intros HT Hvalid Hfit.
  pose proof (half_bounds k rows cols Hvalid) as [Hh1 Hh2].
  pose proof Hvalid as (_ & H3 & Hkr & Hkc).
  destruct (scan_last_argmax (score sizeofT A B cols k r c) (k / 2)
              (Z.to_nat (cols - k / 2 - k / 2))) as (i & Hi & Hscan).
  { lia. }
  { intros. by apply score_nonneg. }
  replace (k / 2 + Z.of_nat (Z.to_nat (cols - k / 2 - k / 2)))
    with (cols - k / 2) in Hi by lia.
  exists i. split; [done|]. unfold cell_value. rewrite Hscan. cbn [snd].
  destruct Hi as [Hi _]. rewrite size_t_small by nia. done.
Qed.

(** ** Scores that do not overflow *)

Lemma sumZ_bounds f from n lo hi :
  (∀ v, from ≤ v < from + Z.of_nat n → lo ≤ f v ≤ hi) →
  Z.of_nat n * lo ≤ sumZ from n f ≤ Z.of_nat n * hi.
Proof.
  revert from. induction n as [|n IH]; intros from H; [cbn; lia|].
  cbn [sumZ]. specialize (IH (from + 1)).
  pose proof (H from ltac:(lia)).
  assert (∀ v, from + 1 ≤ v < from + 1 + Z.of_nat n → lo ≤ f v ≤ hi) as H'
    by (intros; apply H; lia).
  specialize (IH H'). lia.
Qed.

Lemma pixel_bounds m mx cols r c :
  0 ≤ mx → Forall (λ v, 0 ≤ v ≤ mx) m → 0 ≤ pixel m cols r c ≤ mx.
Proof.
  intros Hmx Hall. unfold pixel.
  destruct (m !! Z.to_nat (r * cols + c)) as [v|] eqn:E; cbn; [|lia].
  by eapply (Forall_lookup_1 _ _ _ _ Hall E).
Qed.

Lemma correlation_bounds A B cols k r c i mx :
  0 ≤ k → 0 ≤ mx → Forall (λ v, 0 ≤ v ≤ mx) A → Forall (λ v, 0 ≤ v ≤ mx) B →
  0 ≤ correlation A B cols k r c i ≤ k * k * (mx * mx).
Proof.
  intros Hk Hmx HA HB. unfold correlation.
  pose proof (sumZ_bounds
    (λ j, sumZ 0 (Z.to_nat k) (λ m,
       pixel A cols j (m + (i - k / 2)) * pixel B cols j (c + m)))
    r (Z.to_nat k) 0 (k * (mx * mx))) as Hs.
  rewrite Z2Nat.id in Hs by done.
  enough (k * 0 ≤ sumZ r (Z.to_nat k)
            (λ j, sumZ 0 (Z.to_nat k) (λ m,
               pixel A cols j (m + (i - k / 2)) * pixel B cols j (c + m)))
          ≤ k * (k * (mx * mx))) by lia.
  apply Hs. intros j _.
  pose proof (sumZ_bounds
    (λ m, pixel A cols j (m + (i - k / 2)) * pixel B cols j (c + m))
    0 (Z.to_nat k) 0 (mx * mx)) as Hs'.
  rewrite Z2Nat.id in Hs' by done.
  enough (k * 0 ≤ sumZ 0 (Z.to_nat k)
            (λ m, pixel A cols j (m + (i - k / 2)) * pixel B cols j (c + m))
          ≤ k * (mx * mx)) by lia.
  apply Hs'. intros m _.
  pose proof (pixel_bounds A mx cols j (m + (i - k / 2)) Hmx HA).
  pose proof (pixel_bounds B mx cols j (c + m) Hmx HB). nia.
Qed.

Lemma score_exact sizeofT A B cols k r c i mx :
  0 ≤ k → 0 ≤ mx → Forall (λ v, 0 ≤ v ≤ mx) A → Forall (λ v, 0 ≤ v ≤ mx) B →
  k * k * (mx * mx) < 2 ^ (8 * sizeofT) →
  score sizeofT A B cols k r c i = correlation A B cols k r c i.
Proof.
  intros Hk Hmx HA HB Hfit. unfold score, castT.
  pose proof (correlation_bounds A B cols k r c i mx Hk Hmx HA HB).
  apply Z.mod_small. lia.
Qed.

Lemma last_argmax_ext f g lo hi i :
  (∀ v, lo ≤ v < hi → f v = g v) → last_argmax f lo hi i → last_argmax g lo hi i.
Proof.
  intros Hfg (Hi & Hmax & Hlast). split; [done|]. split.
  - intros i' Hi'. rewrite <- !Hfg by lia. by apply Hmax.
  - intros i' Hi'. rewrite <- !Hfg by lia. by apply Hlast.
Qed.

(** The score in the words of the specification, for the window whose
    centre is [k/2] columns to the right of the destination column [c],
    is the windowed dot product the kernel computes for the cell. *)
Lemma claimed_score_centre A B cols k r c i :
  claimed_score A B cols k r (c + k / 2) i = correlation A B cols k r c i.
Proof.
  unfold claimed_score, correlation. apply sumZ_ext. intros j _.
  apply sumZ_ext. intros m _. do 2 f_equal. lia.
Qed.

(** C1, as amended. For every valid input with a 3 × 3 window on which
    neither a score nor an offset exceeds the sample type (samples of
    at most [mx] with [k * k * mx * mx < 2 ^ (8 * sizeofT)], and at most
    [2 ^ (8 * sizeofT) + k/2 + 1] columns), and every thread whose cell
    [(r, c)] lies in the destination, the direct kernel scans the offsets
    [i] of [[k/2, cols - k/2)], scores each by the windowed dot product of
    the specification, [Σ_{j=r}^{r+k-1} Σ_{m=0}^{k-1}
    A[j, m + (i - k/2)] · B[j, c' - k/2 + m]] with [c' = c + k/2] the
    source column of the centre of the cell's window, and writes to the
    cell [(r, c)] the value [i - k/2], the first column of the winning
    window of [A], where [i] is the last offset of greatest score. *)
Theorem direct_kernel_stores_last_argmax_minus_shift
    sizeofT A B k rows cols mx blockDim blockIdx threadIdx :
  0 < sizeofT → valid_input k rows cols → k = 3 → rows * cols < 2 ^ 64 →
  Z.of_nat (length A) = rows * cols → Z.of_nat (length B) = rows * cols →
  Forall (λ v, 0 ≤ v ≤ mx) A → Forall (λ v, 0 ≤ v ≤ mx) B →
  k * k * (mx * mx) < 2 ^ (8 * sizeofT) →
  cols - k / 2 - 1 ≤ 2 ^ (8 * sizeofT) →
  global_row blockDim blockIdx threadIdx < rows - (k - 1) →
  global_col blockDim blockIdx threadIdx < cols - (k - 1) →
  ∃ i,
    last_argmax
      (claimed_score A B cols k (global_row blockDim blockIdx threadIdx)
         (global_col blockDim blockIdx threadIdx + k / 2))
      (k / 2) (cols - k / 2) i
    ∧ crossCorrelationKernel sizeofT A B k rows cols blockDim blockIdx threadIdx
      = Some (Some (global_row blockDim blockIdx threadIdx * (cols - (k - 1))
                    + global_col blockDim blockIdx threadIdx,
                    i - k / 2)).
Proof.
  intros HT Hvalid Hk Hfit HA HB HmA HmB Hno Hcols Hr Hc.
  pose proof Hvalid as (_ & H3 & Hkr & Hkc).
  assert (Hmx : 0 ≤ mx).
  { destruct A as [|a A']; [cbn in HA; nia|]. inversion HmA; lia. }
  rewrite crossCorrelationKernel_cell by done.
  destruct (cell_value_last_argmax sizeofT A B k rows cols
              (global_row blockDim blockIdx threadIdx)
              (global_col blockDim blockIdx threadIdx) HT Hvalid Hfit)
    as (i & Hi & Hcell).
  exists i. split.
  - eapply last_argmax_ext; [|exact Hi].
    intros v _. rewrite claimed_score_centre. by apply score_exact with mx; try lia.
  - rewrite Hcell. do 3 f_equal. subst k. change (3 / 2) with 1 in *.
    unfold castT. apply Z.mod_small. destruct Hi as [Hi _]. lia.
Qed.

Lemma direct_kernel_stores_last_argmax_minus_shift_witness :
  (0 < 1 ∧ valid_input 3 5 10 ∧ 3 = 3 ∧ 5 * 10 < 2 ^ 64
   ∧ Z.of_nat (length src3) = 5 * 10 ∧ Z.of_nat (length src4) = 5 * 10
   ∧ Forall (λ v, 0 ≤ v ≤ 1) src3 ∧ Forall (λ v, 0 ≤ v ≤ 1) src4
   ∧ 3 * 3 * (1 * 1) < 2 ^ (8 * 1)
   ∧ 10 - 3 / 2 - 1 ≤ 2 ^ (8 * 1)
   ∧ global_row (Dim3 4 2) (Dim3 0 0) (Dim3 3 0) < 5 - (3 - 1)
   ∧ global_col (Dim3 4 2) (Dim3 0 0) (Dim3 3 0) < 10 - (3 - 1))
  ∧ ∃ i,
      last_argmax
        (claimed_score src3 src4 10 3 (global_row (Dim3 4 2) (Dim3 0 0) (Dim3 3 0))
           (global_col (Dim3 4 2) (Dim3 0 0) (Dim3 3 0) + 3 / 2))
        (3 / 2) (10 - 3 / 2) i
      ∧ crossCorrelationKernel 1 src3 src4 3 5 10 (Dim3 4 2) (Dim3 0 0) (Dim3 3 0)
        = Some (Some (global_row (Dim3 4 2) (Dim3 0 0) (Dim3 3 0) * (10 - (3 - 1))
                      + global_col (Dim3 4 2) (Dim3 0 0) (Dim3 3 0),
                      i - 3 / 2)).
Proof.
  assert (Hv : valid_input 3 5 10) by (repeat split; lia).
  assert (H3 : Forall (λ v, 0 ≤ v ≤ 1) src3) by (repeat constructor; lia).
  assert (H4 : Forall (λ v, 0 ≤ v ≤ 1) src4) by (repeat constructor; lia).
  assert (Hr : global_row (Dim3 4 2) (Dim3 0 0) (Dim3 3 0) < 5 - (3 - 1))
    by (by vm_compute).
  assert (Hc : global_col (Dim3 4 2) (Dim3 0 0) (Dim3 3 0) < 10 - (3 - 1))
    by (by vm_compute).
  assert (Hb : 10 - 3 / 2 - 1 ≤ 2 ^ (8 * 1)) by (by vm_compute).
  split; [repeat split; (done || lia)|].
  apply (direct_kernel_stores_last_argmax_minus_shift 1 src3 src4 3 5 10 1
           (Dim3 4 2) (Dim3 0 0) (Dim3 3 0)); (done || lia).
Defined.

(** C1 as stated fails: the kernel does not store the winning offset
    itself.  On two all-zero 3 × 4 sources the offsets are 1 and 2, both
    of score 0, so the last one, 2, is the winning offset; the kernel
    stores 1 in the cell (0, 0).  On the sources of the example program
    the offsets 1 to 8 of the cell (0, 0), whose window has its centre in
    column 1, score 0, 0, 0, 0, 1, 1, 1 and 0 by the formula of the
    specification; the winning offset is 7, and the kernel stores 6.  No
    score of these inputs exceeds 3. *)
Lemma direct_kernel_does_not_store_offset_itself :
  (claimed_offset (zeros 12) (zeros 12) 3 4 0 (0 + 3 / 2) = 2
   ∧ crossCorrelationKernel 1 (zeros 12) (zeros 12) 3 3 4
       (Dim3 1 1) (Dim3 0 0) (Dim3 0 0) = Some (Some (0, 1)))
  ∧ (map (claimed_score src3 src4 10 3 0 (0 + 3 / 2)) (seqZ 1 8)
     = [0; 0; 0; 0; 1; 1; 1; 0]
     ∧ claimed_offset src3 src4 3 10 0 (0 + 3 / 2) = 7
     ∧ crossCorrelationKernel 1 src3 src4 3 5 10
         (Dim3 1 1) (Dim3 0 0) (Dim3 0 0) = Some (Some (0, 6))).
Proof. repeat split; reflexivity. Qed.

(** The example program's first destination cell: the offsets 5, 6 and 7
    share the greatest score, 7 is the last, and 6 is stored. *)
Example main_first_cell :
  crossCorrelationKernel 1 src3 src4 3 5 10 (Dim3 1 1) (Dim3 0 0) (Dim3 0 0)
  = Some (Some (0, 6))
  ∧ map (score 1 src3 src4 10 3 0 0) (seqZ 1 8) = [0; 0; 0; 0; 1; 1; 1; 0].
Proof. split; reflexivity. Qed.

(** ** All-zero sources *)

Lemma pixel_zeros n cols r c : pixel (zeros n) cols r c = 0.
Proof.
  unfold pixel, zeros.
  destruct (replicate _ _ !! _) as [v|] eqn:E; [|done].
  by apply lookup_replicate in E as [-> _].
Qed.

Lemma score_zeros sizeofT n n' cols k r c i :
  score sizeofT (zeros n) (zeros n') cols k r c i = 0.
Proof.
  unfold score, correlation. rewrite sumZ_zero; [done|].
  intros j _. apply sumZ_zero. intros m _. by rewrite !pixel_zeros.
Qed.

(** C5, as amended. For all-zero sources and any valid [(rows, cols, k)]
    with a 3 × 3 window, every thread whose cell lies in the destination
    writes the same value: every score is 0, each offset displaces the
    one before, and the last offset of the scan, [cols - k/2 - 1],
    decides; the value written is that offset minus [k/2], the first
    column of the window of [A] at that offset, converted to [T]. *)
Theorem zero_sources_store_final_offset_minus_shift
    sizeofT k rows cols blockDim blockIdx threadIdx :
  0 < sizeofT → valid_input k rows cols → k = 3 → rows * cols < 2 ^ 64 →
  global_row blockDim blockIdx threadIdx < rows - (k - 1) →
  global_col blockDim blockIdx threadIdx < cols - (k - 1) →
  crossCorrelationKernel sizeofT (zeros (rows * cols)) (zeros (rows * cols))
    k rows cols blockDim blockIdx threadIdx
  = Some (Some (global_row blockDim blockIdx threadIdx * (cols - (k - 1))
                + global_col blockDim blockIdx threadIdx,
                castT sizeofT (cols - k / 2 - 1 - k / 2))).
Proof.
  intros HT Hvalid Hk Hfit Hr Hc.
  pose proof Hvalid as (_ & H3 & Hkr & Hkc).
  assert (Hlen : Z.of_nat (length (zeros (rows * cols))) = rows * cols).
  { unfold zeros. rewrite length_replicate. nia. }
  rewrite crossCorrelationKernel_cell by done.
  destruct (cell_value_last_argmax sizeofT
              (zeros (rows * cols)) (zeros (rows * cols)) k rows cols
              (global_row blockDim blockIdx threadIdx)
              (global_col blockDim blockIdx threadIdx) HT Hvalid Hfit)
    as (i & (Hi & _ & Hlast) & ->).
  do 4 f_equal.
  assert (Hh : k / 2 = 1) by (by subst k).
  destruct (decide (i = cols - k / 2 - 1)) as [->|Hne]; [lia|].
  specialize (Hlast (cols - k / 2 - 1)). rewrite !score_zeros in Hlast. lia.
Qed.

Lemma zero_sources_store_final_offset_minus_shift_witness :
  (0 < 1 ∧ valid_input 3 5 10 ∧ 3 = 3 ∧ 5 * 10 < 2 ^ 64
   ∧ global_row (Dim3 4 2) (Dim3 1 1) (Dim3 3 0) < 5 - (3 - 1)
   ∧ global_col (Dim3 4 2) (Dim3 1 1) (Dim3 3 0) < 10 - (3 - 1))
  ∧ crossCorrelationKernel 1 (zeros (5 * 10)) (zeros (5 * 10)) 3 5 10
      (Dim3 4 2) (Dim3 1 1) (Dim3 3 0)
    = Some (Some (global_row (Dim3 4 2) (Dim3 1 1) (Dim3 3 0) * (10 - (3 - 1))
                  + global_col (Dim3 4 2) (Dim3 1 1) (Dim3 3 0),
                  castT 1 (10 - 3 / 2 - 1 - 3 / 2))).
Proof.
  assert (Hv : valid_input 3 5 10) by (repeat split; lia).
  split; [repeat split; (reflexivity || lia || apply Hv)|].
  apply (zero_sources_store_final_offset_minus_shift 1 3 5 10
           (Dim3 4 2) (Dim3 1 1) (Dim3 3 0));
    (reflexivity || lia || apply Hv).
Defined.

(** C5 as stated fails: for two all-zero 5 × 10 sources and a 3 × 3
    window the last offset of the scan is [10 - 3/2 - 1 = 8]; every cell
    of the destination that [crossCorrelation] returns holds 7.  With 300
    columns the last offset is 298 and a cell of [uint8_t] holds
    [297 mod 256 = 41]. *)
Lemma zero_sources_do_not_store_final_offset :
  (crossCorrelation ok 1 (zeros 50) (zeros 50) 3 5 10 2 4 start).1
  = Returned (replicate 24 (Some 7))
  ∧ (crossCorrelation ok 1 (zeros 50) (zeros 50) 3 5 10 2 4 start).1
    ≠ Returned (replicate 24 (Some (10 - 3 / 2 - 1)))
  ∧ crossCorrelationKernel 1 (zeros 900) (zeros 900) 3 3 300
      (Dim3 1 1) (Dim3 0 0) (Dim3 0 0) = Some (Some (0, 41)).
Proof. split; [by vm_compute|]. split; [|by vm_compute]. vm_compute. discriminate. Qed.

(** ** The border of the sources *)

Lemma score_ext sizeofT A B A' B' cols k r c i :
  0 ≤ k → 2 * (k / 2) = k - 1 → k / 2 ≤ i < cols - k / 2 →
  (∀ j col, r ≤ j < r + k → 0 ≤ col < cols →
            pixel A cols j col = pixel A' cols j col) →
  (∀ j col, r ≤ j < r + k → c ≤ col < c + k →
            pixel B cols j col = pixel B' cols j col) →
  score sizeofT A B cols k r c i = score sizeofT A' B' cols k r c i.
Proof.
  intros Hk Hh Hi HA HB. unfold score, correlation. f_equal.
  apply sumZ_ext. intros j Hj. apply sumZ_ext. intros m Hm.
  rewrite HA, HB by lia. done.
Qed.

Lemma scan_ext f g from n st :
  (∀ i, from ≤ i < from + Z.of_nat n → f i = g i) →
  scan f from n st = scan g from n st.
Proof.
  revert from st. induction n as [|n IH]; intros from st H; [done|].
  cbn [scan]. rewrite H by lia. apply IH. intros. apply H. lia.
Qed.

Lemma cell_value_ext sizeofT A B A' B' k cols r c :
  0 ≤ k → 2 * (k / 2) = k - 1 →
  (∀ j col, r ≤ j < r + k → 0 ≤ col < cols →
            pixel A cols j col = pixel A' cols j col) →
  (∀ j col, r ≤ j < r + k → c ≤ col < c + k →
            pixel B cols j col = pixel B' cols j col) →
  cell_value sizeofT A B k cols r c = cell_value sizeofT A' B' k cols r c.
Proof.
  intros Hk Hh HA HB. unfold cell_value. do 2 f_equal.
  apply scan_ext. intros i Hi. apply score_ext; (done || lia).
Qed.

(** [pixel] agrees on a rectangle, by enumeration. *)
Lemma pixels_agree_by_enumeration m m' cols r0 rn c0 cn :
  forallb (λ j, forallb (λ col, pixel m cols j col =? pixel m' cols j col)
                  (seqZ c0 cn)) (seqZ r0 rn) = true →
  ∀ j col, r0 ≤ j < r0 + rn → c0 ≤ col < c0 + cn →
           pixel m cols j col = pixel m' cols j col.
Proof.
  intros H j col Hj Hcol. rewrite forallb_forall in H.
  specialize (H j). rewrite <- list_elem_of_In, elem_of_seqZ in H.
  specialize (H Hj). rewrite forallb_forall in H.
  specialize (H col). rewrite <- list_elem_of_In, elem_of_seqZ in H.
  specialize (H Hcol). lia.
Qed.

Lemma destination_lookup sizeofT A B k rows cols r c :
  0 ≤ r < rows - (k - 1) → 0 ≤ c < cols - (k - 1) →
  destination sizeofT A B k rows cols !! Z.to_nat (r * (cols - (k - 1)) + c)
  = Some (Some (cell_value sizeofT A B k cols r c)).
Proof.
  intros Hr Hc. unfold destination. rewrite list_lookup_fmap.
  rewrite lookup_seqZ_lt by nia. cbn [fmap option_fmap option_map].
  rewrite Z.add_0_l, Z2Nat.id by nia.
  rewrite Z.div_add_l, Z.div_small, Z.add_0_r by lia.
  rewrite Z.add_comm, Z.mod_add, Z.mod_small by lia. done.
Qed.

(** C6, as amended. Two runs of [crossCorrelation] whose sources agree on
    the rows [r .. r + k - 1] of [A] and on the [k × k] window of [B] with
    top-left corner [(r, c)] give the same value in the destination cell
    [(r, c)], whatever the sources hold elsewhere; the pixels within
    [k/2] of an edge are among those the cell depends on. *)
Theorem destination_cell_depends_on_its_window
    rt sizeofT A B A' B' k rows cols bdx bdy r c :
  (∀ n, rt n = cudaSuccess) → 0 < sizeofT → valid_input k rows cols →
  rows * cols * sizeofT < 2 ^ 64 →
  Z.of_nat (length A) = rows * cols → Z.of_nat (length B) = rows * cols →
  Z.of_nat (length A') = rows * cols → Z.of_nat (length B') = rows * cols →
  (rows - (k - 1)) * (cols - (k - 1)) * sizeofT < 2 ^ 24 →
  0 < bdx < 2 ^ 24 → 0 < bdy < 2 ^ 24 →
  0 ≤ r < rows - (k - 1) → 0 ≤ c < cols - (k - 1) →
  (∀ j col, r ≤ j < r + k → 0 ≤ col < cols →
            pixel A cols j col = pixel A' cols j col) →
  (∀ j col, r ≤ j < r + k → c ≤ col < c + k →
            pixel B cols j col = pixel B' cols j col) →
  ∃ d d',
    (crossCorrelation rt sizeofT A B k rows cols bdx bdy start).1 = Returned d
    ∧ (crossCorrelation rt sizeofT A' B' k rows cols bdx bdy start).1 = Returned d'
    ∧ d !! Z.to_nat (r * (cols - (k - 1)) + c)
      = d' !! Z.to_nat (r * (cols - (k - 1)) + c)
    ∧ is_Some (d !! Z.to_nat (r * (cols - (k - 1)) + c)).
Proof.
  intros Hrt HT Hvalid Hfit HA HB HA' HB' Hsmall Hbx Hby Hr Hc HAA HBB.
  exists (destination sizeofT A B k rows cols),
         (destination sizeofT A' B' k rows cols).
  rewrite !crossCorrelation_run by done. cbn [fst].
  split; [done|]. split; [done|].
  rewrite !destination_lookup by done.
  split; [|done]. do 2 f_equal.
  pose proof (half_bounds k rows cols Hvalid) as [_ Hh].
  apply cell_value_ext; [|done..]. destruct Hvalid as (_ & ? & _). lia.
Qed.

Lemma destination_cell_depends_on_its_window_witness :
  ((∀ n, ok n = cudaSuccess) ∧ 0 < 1 ∧ valid_input 3 5 10
   ∧ 5 * 10 * 1 < 2 ^ 64
   ∧ Z.of_nat (length src3) = 5 * 10 ∧ Z.of_nat (length src4) = 5 * 10
   ∧ Z.of_nat (length (<[45%nat := 9]> src3)) = 5 * 10
   ∧ Z.of_nat (length (<[7%nat := 5]> src4)) = 5 * 10
   ∧ (5 - (3 - 1)) * (10 - (3 - 1)) * 1 < 2 ^ 24
   ∧ 0 < 2 < 2 ^ 24 ∧ 0 < 4 < 2 ^ 24
   ∧ 0 ≤ 0 < 5 - (3 - 1) ∧ 0 ≤ 0 < 10 - (3 - 1))
  ∧ ∃ d d',
      (crossCorrelation ok 1 src3 src4 3 5 10 2 4 start).1 = Returned d
      ∧ (crossCorrelation ok 1 (<[45%nat := 9]> src3) (<[7%nat := 5]> src4)
           3 5 10 2 4 start).1 = Returned d'
      ∧ d !! Z.to_nat (0 * (10 - (3 - 1)) + 0)
        = d' !! Z.to_nat (0 * (10 - (3 - 1)) + 0)
      ∧ is_Some (d !! Z.to_nat (0 * (10 - (3 - 1)) + 0)).
Proof.
  assert (Hv : valid_input 3 5 10) by (repeat split; lia).
  split; [repeat split; (reflexivity || lia || apply Hv)|].
  apply (destination_cell_depends_on_its_window ok 1
           src3 src4 (<[45%nat := 9]> src3) (<[7%nat := 5]> src4) 3 5 10 2 4 0 0);
    try (reflexivity || lia || apply Hv).
  - apply (pixels_agree_by_enumeration _ _ 10 0 3 0 10). by vm_compute.
  - apply (pixels_agree_by_enumeration _ _ 10 0 3 0 3). by vm_compute.
Defined.

(** C6 as stated fails: the two pairs of 3 × 4 sources below agree on
    every pixel at distance at least 1 from the four edges and differ in
    the corner pixel (0, 0) only, and [crossCorrelation] returns different
    destinations for them. *)
Lemma border_pixels_change_the_destination :
  agree_inside (3 / 2) 3 4 (zeros 12) (one_at 12 0)
  ∧ (crossCorrelation ok 1 (zeros 12) (zeros 12) 3 3 4 1 1 start).1
    = Returned [Some 1; Some 1]
  ∧ (crossCorrelation ok 1 (one_at 12 0) (one_at 12 0) 3 3 4 1 1 start).1
    = Returned [Some 0; Some 1].
Proof.
  split; [|split; by vm_compute].
  intros r c Hr Hc. change (3 / 2) with 1 in *.
  assert (r = 1) as -> by lia.
  assert (c = 1 ∨ c = 2) as [-> | ->] by lia; reflexivity.
Qed.

(** ** The block shape *)

(** Where the sizes and the grid are computed exactly, the claim of C10
    holds: for a valid input whose destination takes fewer than 2^24
    bytes, with every runtime call succeeding, any two block shapes whose
    dimensions lie between 1 and 2^24 give the same destination matrix,
    the one of the cells' values. *)
Theorem destination_independent_of_block_shape
    rt sizeofT A B k rows cols bdx bdy bdx' bdy' :
  (∀ n, rt n = cudaSuccess) → 0 < sizeofT → valid_input k rows cols →
  rows * cols * sizeofT < 2 ^ 64 →
  Z.of_nat (length A) = rows * cols → Z.of_nat (length B) = rows * cols →
  (rows - (k - 1)) * (cols - (k - 1)) * sizeofT < 2 ^ 24 →
  0 < bdx < 2 ^ 24 → 0 < bdy < 2 ^ 24 →
  0 < bdx' < 2 ^ 24 → 0 < bdy' < 2 ^ 24 →
  (crossCorrelation rt sizeofT A B k rows cols bdx bdy start).1
  = (crossCorrelation rt sizeofT A B k rows cols bdx' bdy' start).1
  ∧ (crossCorrelation rt sizeofT A B k rows cols bdx bdy start).1
    = Returned (destination sizeofT A B k rows cols).
Proof.
  intros Hrt HT Hvalid Hfit HA HB Hsmall Hbx Hby Hbx' Hby'.
  by rewrite !crossCorrelation_run.
Qed.

Lemma destination_independent_of_block_shape_witness :
  ((∀ n, ok n = cudaSuccess) ∧ 0 < 1 ∧ valid_input 3 5 10
   ∧ 5 * 10 * 1 < 2 ^ 64
   ∧ Z.of_nat (length src3) = 5 * 10 ∧ Z.of_nat (length src4) = 5 * 10
   ∧ (5 - (3 - 1)) * (10 - (3 - 1)) * 1 < 2 ^ 24
   ∧ 0 < 2 < 2 ^ 24 ∧ 0 < 4 < 2 ^ 24 ∧ 0 < 3 < 2 ^ 24 ∧ 0 < 1 < 2 ^ 24)
  ∧ (crossCorrelation ok 1 src3 src4 3 5 10 2 4 start).1
    = (crossCorrelation ok 1 src3 src4 3 5 10 3 1 start).1
  ∧ (crossCorrelation ok 1 src3 src4 3 5 10 2 4 start).1
    = Returned (destination 1 src3 src4 3 5 10).
Proof.
  assert (Hv : valid_input 3 5 10) by (repeat split; lia).
  split; [repeat split; (reflexivity || lia || apply Hv)|].
  apply (destination_independent_of_block_shape ok 1 src3 src4 3 5 10 2 4 3 1);
    (reflexivity || lia || apply Hv).
Defined.

(** C10: the destination depends on the block shape.  For sources of
    3 × 25165830 samples of [uint8_t] and a 3 × 3 window the destination
    is one row of 25165828 cells.  With blocks of 1 × 1 threads the grid
    has 25165828 blocks and every cell is written.  With
    [block_dim_y = 3] the number of blocks is [ceil(dest_cols / block_dim_y)]
    in [float]: 25165828 / 3 is not a binary32 number and rounds down to
    8388609, the blocks cover the columns 0 to 25165826, and the last
    cell comes back as the fresh buffer held it.  So the two block shapes
    give different destinations, whatever the sources hold. *)
Theorem rounded_grid_misses_the_last_column A B :
  Z.of_nat (length A) = 3 * 25165830 → Z.of_nat (length B) = 3 * 25165830 →
  dimGrid 3 3 25165830 1 1 = Dim3 25165828 1
  ∧ dimGrid 3 3 25165830 1 3 = Dim3 8388609 1
  ∧ (crossCorrelation ok 1 A B 3 3 25165830 1 1 start).1
    = Returned (destination 1 A B 3 3 25165830)
  ∧ (crossCorrelation ok 1 A B 3 3 25165830 1 3 start).1
    = Returned (<[Z.to_nat 25165827 := None]> (destination 1 A B 3 3 25165830))
  ∧ destination 1 A B 3 3 25165830 !! Z.to_nat 25165827
    = Some (Some (cell_value 1 A B 3 25165830 0 25165827))
  ∧ (crossCorrelation ok 1 A B 3 3 25165830 1 1 start).1
    ≠ (crossCorrelation ok 1 A B 3 3 25165830 1 3 start).1.
Proof.
  intros HA HB.
  assert (Hv : valid_input 3 3 25165830) by (repeat split; lia).
  assert (Hg1 : dimGrid 3 3 25165830 1 1 = Dim3 25165828 1) by (by vm_compute).
  assert (Hg3 : dimGrid 3 3 25165830 1 3 = Dim3 8388609 1) by (by vm_compute).
  assert (Hs : dest_size 1 3 3 25165830 = (3 - (3 - 1)) * (25165830 - (3 - 1)) * 1)
    by (by vm_compute).
  assert (Hok : ∀ n, ok n = cudaSuccess) by (intros n; reflexivity).
  assert (Hq : ∀ q, 0 ≤ q < 25165828 → q / 25165828 = 0 ∧ q mod 25165828 = q).
  { intros q Hq. split; [apply Z.div_small; lia|apply Z.mod_small; lia]. }
  assert (Hlast : destination 1 A B 3 3 25165830 !! Z.to_nat 25165827
                  = Some (Some (cell_value 1 A B 3 25165830 0 25165827))).
  { unfold destination.
    replace ((3 - (3 - 1)) * (25165830 - (3 - 1))) with 25165828 by lia.
    replace (25165830 - (3 - 1)) with 25165828 by lia.
    rewrite list_lookup_fmap, lookup_seqZ_lt by lia.
    cbn [fmap option_fmap option_map].
    replace (0 + Z.of_nat (Z.to_nat 25165827)) with 25165827 by lia.
    destruct (Hq 25165827) as [-> ->]; [lia|]. reflexivity. }
  split; [exact Hg1|]. split; [exact Hg3|].
  rewrite (crossCorrelation_run_grid ok 1 A B 3 3 25165830 1 1 25165828 1
             Hok ltac:(lia) Hv ltac:(lia) HA HB Hs Hg1
             ltac:(lia) ltac:(lia) ltac:(lia) ltac:(lia)).
  rewrite (crossCorrelation_run_grid ok 1 A B 3 3 25165830 1 3 8388609 1
             Hok ltac:(lia) Hv ltac:(lia) HA HB Hs Hg3
             ltac:(lia) ltac:(lia) ltac:(lia) ltac:(lia)).
  assert (H1 : (λ q, if decide (q / (25165830 - (3 - 1)) < 1 * 1
                                ∧ q mod (25165830 - (3 - 1)) < 25165828 * 1)
                     then Some (cell_value 1 A B 3 25165830
                                  (q / (25165830 - (3 - 1)))
                                  (q mod (25165830 - (3 - 1))))
                     else None)
               <$> seqZ 0 ((3 - (3 - 1)) * (25165830 - (3 - 1)))
               = destination 1 A B 3 3 25165830).
  { unfold destination. apply list_fmap_ext. intros n q Hn.
    apply lookup_seqZ in Hn as [-> Hn].
    replace (25165830 - (3 - 1)) with 25165828 by lia.
    destruct (Hq (0 + Z.of_nat n)) as [-> ->]; [lia|].
    rewrite decide_True by lia. reflexivity. }
  assert (H3 : (λ q, if decide (q / (25165830 - (3 - 1)) < 1 * 1
                                ∧ q mod (25165830 - (3 - 1)) < 8388609 * 3)
                     then Some (cell_value 1 A B 3 25165830
                                  (q / (25165830 - (3 - 1)))
                                  (q mod (25165830 - (3 - 1))))
                     else None)
               <$> seqZ 0 ((3 - (3 - 1)) * (25165830 - (3 - 1)))
               = <[Z.to_nat 25165827 := None]> (destination 1 A B 3 3 25165830)).
  { unfold destination.
    replace ((3 - (3 - 1)) * (25165830 - (3 - 1))) with 25165828 by lia.
    replace (25165830 - (3 - 1)) with 25165828 by lia.
    apply list_eq. intros n.
    destruct (decide (n = Z.to_nat 25165827)) as [->|Hne].
    - rewrite list_lookup_insert_eq by (rewrite length_fmap, length_seqZ; lia).
      rewrite list_lookup_fmap, lookup_seqZ_lt by lia.
      cbn [fmap option_fmap option_map].
      replace (0 + Z.of_nat (Z.to_nat 25165827)) with 25165827 by lia.
      destruct (Hq 25165827) as [-> ->]; [lia|].
      rewrite decide_False by lia. reflexivity.
    - rewrite list_lookup_insert_ne by (intros Heq; apply Hne; symmetry; exact Heq).
      rewrite !list_lookup_fmap.
      destruct (decide (Z.of_nat n < 25165828)) as [Hn|Hn].
      + rewrite lookup_seqZ_lt by lia. cbn [fmap option_fmap option_map].
        destruct (Hq (0 + Z.of_nat n)) as [-> ->]; [lia|].
        rewrite decide_True by lia. reflexivity.
      + rewrite lookup_seqZ_ge by lia. reflexivity. }
  rewrite H1, H3.
  split; [reflexivity|]. split; [reflexivity|]. split; [exact Hlast|].
  intros Heq.
  apply (f_equal (λ r, match r with
                       | Returned l => l !! Z.to_nat 25165827
                       | _ => None
                       end)) in Heq.
  cbv beta iota in Heq. rewrite Hlast in Heq.
  rewrite list_lookup_insert_eq in Heq
    by (unfold destination; rewrite length_fmap, length_seqZ; lia).
  discriminate Heq.
Qed.

Lemma rounded_grid_misses_the_last_column_witness :
  (Z.of_nat (length (zeros (3 * 25165830))) = 3 * 25165830
   ∧ Z.of_nat (length (ones (3 * 25165830))) = 3 * 25165830)
  ∧ dimGrid 3 3 25165830 1 1 = Dim3 25165828 1
  ∧ dimGrid 3 3 25165830 1 3 = Dim3 8388609 1
  ∧ (crossCorrelation ok 1 (zeros (3 * 25165830)) (ones (3 * 25165830))
       3 3 25165830 1 1 start).1
    = Returned (destination 1 (zeros (3 * 25165830)) (ones (3 * 25165830))
                  3 3 25165830)
  ∧ (crossCorrelation ok 1 (zeros (3 * 25165830)) (ones (3 * 25165830))
       3 3 25165830 1 3 start).1
    = Returned (<[Z.to_nat 25165827 := None]>
                  (destination 1 (zeros (3 * 25165830)) (ones (3 * 25165830))
                     3 3 25165830))
  ∧ destination 1 (zeros (3 * 25165830)) (ones (3 * 25165830)) 3 3 25165830
      !! Z.to_nat 25165827
    = Some (Some (cell_value 1 (zeros (3 * 25165830)) (ones (3 * 25165830))
                    3 25165830 0 25165827))
  ∧ (crossCorrelation ok 1 (zeros (3 * 25165830)) (ones (3 * 25165830))
       3 3 25165830 1 1 start).1
    ≠ (crossCorrelation ok 1 (zeros (3 * 25165830)) (ones (3 * 25165830))
         3 3 25165830 1 3 start).1.
Proof.
  assert (H0 : Z.of_nat (length (zeros (3 * 25165830))) = 3 * 25165830).
  { unfold zeros. rewrite length_replicate. lia. }
  assert (H1 : Z.of_nat (length (ones (3 * 25165830))) = 3 * 25165830).
  { unfold ones. rewrite length_replicate. lia. }
  split; [split; [exact H0|exact H1]|].
  exact (rounded_grid_misses_the_last_column
           (zeros (3 * 25165830)) (ones (3 * 25165830)) H0 H1).
Defined.

(** ** The launch grid *)

(** C7, as amended. For a valid input whose destination has fewer than
    2^24 rows and columns, and tile dimensions between 1 and 2^24, the
    three functions that launch the direct kernel (plain, timed with
    transfers, timed without) launch it with the grid
    [ceil(dest_cols / tile_h) × ceil(dest_rows / tile_w)] and no other,
    and have done so when they return; the shared-memory function, for
    sources of fewer than 2^24 rows and columns, launches its kernel with
    the grid [ceil(cols / tile_h) × ceil(rows / tile_w)], one thread per
    source pixel. *)
Theorem launch_grids
    rt sizeofT elapsedTime h_src1 h_src2 k rows cols tile_w tile_h :
  valid_input k rows cols → rows < 2 ^ 24 → cols < 2 ^ 24 →
  0 < tile_w < 2 ^ 24 → 0 < tile_h < 2 ^ 24 →
  launches_grid
    (Dim3 ((cols - (k - 1) + tile_h - 1) / tile_h)
          ((rows - (k - 1) + tile_w - 1) / tile_w))
    (crossCorrelation rt sizeofT h_src1 h_src2 k rows cols tile_w tile_h)
  ∧ launches_grid
      (Dim3 ((cols - (k - 1) + tile_h - 1) / tile_h)
            ((rows - (k - 1) + tile_w - 1) / tile_w))
      (crossCorrelationTimeWithAllocation rt sizeofT elapsedTime
         h_src1 h_src2 k rows cols tile_w tile_h)
  ∧ launches_grid
      (Dim3 ((cols - (k - 1) + tile_h - 1) / tile_h)
            ((rows - (k - 1) + tile_w - 1) / tile_w))
      (crossCorrelationTimeWithoutAllocation rt sizeofT elapsedTime
         h_src1 h_src2 k rows cols tile_w tile_h)
  ∧ launches_grid
      (Dim3 ((cols + tile_h - 1) / tile_h) ((rows + tile_w - 1) / tile_w))
      (sharedMemoryCrossCorrelation rt sizeofT h_src1 h_src2 k rows cols
         tile_w tile_h).
Proof.
  intros Hvalid Hr Hc Hw Hh. pose proof Hvalid as (_ & H3 & Hkr & Hkc).
  rewrite <- (dimGrid_exact k rows cols Hvalid tile_w tile_h) by lia.
  rewrite <- (sharedMemory_dimGrid_exact k rows cols Hvalid tile_w tile_h) by lia.
  split; [apply crossCorrelation_launches|].
  split; [apply crossCorrelationTimeWithAllocation_launches|].
  split; [apply crossCorrelationTimeWithoutAllocation_launches|].
  apply sharedMemoryCrossCorrelation_launches.
Qed.

Lemma launch_grids_witness :
  (valid_input 3 5 10 ∧ 5 < 2 ^ 24 ∧ 10 < 2 ^ 24
   ∧ 0 < 2 < 2 ^ 24 ∧ 0 < 4 < 2 ^ 24)
  ∧ launches_grid (Dim3 ((10 - (3 - 1) + 4 - 1) / 4) ((5 - (3 - 1) + 2 - 1) / 2))
      (crossCorrelation ok 1 src3 src4 3 5 10 2 4)
  ∧ launches_grid (Dim3 ((10 - (3 - 1) + 4 - 1) / 4) ((5 - (3 - 1) + 2 - 1) / 2))
      (crossCorrelationTimeWithAllocation ok 1 (Float 1 0) src3 src4 3 5 10 2 4)
  ∧ launches_grid (Dim3 ((10 - (3 - 1) + 4 - 1) / 4) ((5 - (3 - 1) + 2 - 1) / 2))
      (crossCorrelationTimeWithoutAllocation ok 1 (Float 1 0) src3 src4 3 5 10 2 4)
  ∧ launches_grid (Dim3 ((10 + 4 - 1) / 4) ((5 + 2 - 1) / 2))
      (sharedMemoryCrossCorrelation ok 1 src3 src4 3 5 10 2 4).
Proof.
  assert (Hv : valid_input 3 5 10) by (repeat split; lia).
  split; [repeat split; (reflexivity || lia || apply Hv)|].
  apply (launch_grids ok 1 (Float 1 0) src3 src4 3 5 10 2 4);
    (reflexivity || lia || apply Hv).
Defined.

(** C7 as stated fails for the shared-memory function: on 6 × 5 sources,
    a 5 × 5 window and 2 × 1 tiles the destination is 2 × 1 and the
    claimed grid [ceil(1 / 1) × ceil(2 / 2)] is 1 × 1, but the function
    launches its kernel with the grid 5 × 3.  For the other functions it
    fails from 2^24 on, where the [float] division rounds: 25165828
    destination columns in tiles of height 3 need 8388610 blocks and get
    8388609. *)
Lemma shared_memory_grid_is_not_the_claimed_one :
  (trace (sharedMemoryCrossCorrelation ok 1 (zeros 30) (zeros 30) 5 6 5 2 1 start).2
     !! 5%nat
   = Some (launch_call (Dim3 5 3) (Dim3 1 2) 50, cudaSuccess)
   ∧ Dim3 5 3 ≠ Dim3 ((5 - (5 - 1) + 1 - 1) / 1) ((6 - (5 - 1) + 2 - 1) / 2)
   ∧ ¬ launches_grid
         (Dim3 ((5 - (5 - 1) + 1 - 1) / 1) ((6 - (5 - 1) + 2 - 1) / 2))
         (sharedMemoryCrossCorrelation ok 1 (zeros 30) (zeros 30) 5 6 5 2 1))
  ∧ (dimGrid 3 3 25165830 1 3 = Dim3 8388609 1
     ∧ (25165830 - (3 - 1) + 3 - 1) / 3 = 8388610).
Proof.
  split; [|split; by vm_compute].
  split; [by vm_compute|]. split; [by vm_compute|].
  intros [Hsafe _]. specialize (Hsafe start).
  assert (Hin : (launch_call (Dim3 5 3) (Dim3 1 2) 50, cudaSuccess)
                ∈ trace (sharedMemoryCrossCorrelation ok 1 (zeros 30) (zeros 30)
                           5 6 5 2 1 start).2).
  { apply list_elem_of_lookup. exists 5%nat. by vm_compute. }
  apply Hsafe in Hin; [by vm_compute in Hin|].
  intros g' b s err Hnil. cbn in Hnil. by apply not_elem_of_nil in Hnil.
Qed.

(** ** The checks of the runtime calls *)

Lemma quiet_start : quiet_after 0 start.
Proof.
  split; [|done]. split; [|done]. intros c err Hin. by apply not_elem_of_nil in Hin.
Qed.

(** C8, as amended. Whatever statuses the runtime returns, each of the
    four host functions examines the status of every allocation
    ([cudaMalloc]) and of every copy ([cudaMemcpy]): when one fails, it is
    the last call the process makes, [std::cerr] receives the name of the
    operation, the runtime's description of the error, the file and the
    line of the check that follows the failed call in the source (the
    sites of each function are listed above), and the process exits with
    [EXIT_FAILURE]; the function returns only when all of them succeeded,
    and then has written nothing to [std::cerr]. The statuses of the
    kernel launch, of the synchronization, of the event calls and of
    [cudaFree] are not examined. *)
Theorem allocations_and_copies_are_checked
    rt sizeofT elapsedTime h_src1 h_src2 k rows cols bdx bdy :
  hoare (λ p, p = start)
    (crossCorrelation rt sizeofT h_src1 h_src2 k rows cols bdx bdy)
    (λ _, quiet) (reported crossCorrelation_check_sites) quiet
  ∧ hoare (λ p, p = start)
      (sharedMemoryCrossCorrelation rt sizeofT h_src1 h_src2 k rows cols bdx bdy)
      (λ _, quiet) (reported sharedMemoryCrossCorrelation_check_sites) quiet
  ∧ hoare (λ p, p = start)
      (crossCorrelationTimeWithAllocation rt sizeofT elapsedTime
         h_src1 h_src2 k rows cols bdx bdy)
      (λ _, quiet) (reported crossCorrelationTimeWithAllocation_check_sites) quiet
  ∧ hoare (λ p, p = start)
      (crossCorrelationTimeWithoutAllocation rt sizeofT elapsedTime
         h_src1 h_src2 k rows cols bdx bdy)
      (λ _, quiet) (reported crossCorrelationTimeWithoutAllocation_check_sites)
      quiet.
Proof.
  repeat split; intros p ->.
  - apply crossCorrelation_checks, quiet_start.
  - apply sharedMemoryCrossCorrelation_checks, quiet_start.
  - apply crossCorrelationTimeWithAllocation_checks, quiet_start.
  - apply crossCorrelationTimeWithoutAllocation_checks, quiet_start.
Qed.

(** A failed allocation, as the process shows it. *)
Example third_call_fails :
  crossCorrelation (λ n, if decide (n = 2%nat) then 2 else cudaSuccess)
    1 src3 src4 3 5 10 2 4 start
  = (Exited EXIT_FAILURE,
     Process [(cudaMalloc_call 50, 0); (cudaMemcpy_call 50, 0);
              (cudaMalloc_call 50, 2)]
             (diagnostic "cudaMalloc" 2 171)).
Proof. by vm_compute. Qed.

(** C8 as stated fails: when the kernel launch fails (status 9, an
    invalid configuration) and every other call succeeds,
    [crossCorrelation] reports nothing, does not exit, and returns what
    the destination buffer held before the launch; and it reports
    nothing when the synchronization (status 700) and the three
    [cudaFree] (status 1) fail. *)
Lemma launch_failure_is_not_checked :
  crossCorrelation (λ n, if decide (n = 5%nat) then 9 else cudaSuccess)
    1 (zeros 12) (zeros 12) 3 3 4 1 1 start
  = (Returned [None; None],
     Process [(cudaMalloc_call 12, 0); (cudaMemcpy_call 12, 0);
              (cudaMalloc_call 12, 0); (cudaMemcpy_call 12, 0);
              (cudaMalloc_call 2, 0);
              (launch_call (Dim3 2 1) (Dim3 1 1) 0, 9);
              (cudaDeviceSynchronize_call, 0);
              (cudaMemcpy_call 2, 0);
              (cudaFree_call, 0); (cudaFree_call, 0); (cudaFree_call, 0)]
             [])
  ∧ crossCorrelation
      (λ n, if decide (n = 6%nat) then 700
            else if decide (8 ≤ n)%nat then 1 else cudaSuccess)
      1 (zeros 12) (zeros 12) 3 3 4 1 1 start
    = (Returned [Some 1; Some 1],
       Process [(cudaMalloc_call 12, 0); (cudaMemcpy_call 12, 0);
                (cudaMalloc_call 12, 0); (cudaMemcpy_call 12, 0);
                (cudaMalloc_call 2, 0);
                (launch_call (Dim3 2 1) (Dim3 1 1) 0, 0);
                (cudaDeviceSynchronize_call, 700);
                (cudaMemcpy_call 2, 0);
                (cudaFree_call, 1); (cudaFree_call, 1); (cudaFree_call, 1)]
               []).
Proof. split; by vm_compute. Qed.

(** ** The shared-memory kernel *)

(** C2: the two kernels differ. On the 5 × 4 sources with a single 1 in
    the last row, a 3 × 3 window and one block of 4 × 5 threads, every
    access of the shared-memory kernel is inside its arrays and lands on
    a staged cell, and the destinations differ: the shared-memory kernel
    sums over the 5 staged rows of the block for every cell, the direct
    kernel over the 3 rows of the cell's window. *)
Theorem shared_memory_kernel_differs :
  (crossCorrelation ok 1 (one_at 20 16) (one_at 20 16) 3 5 4 5 4 start).1
  = Returned [Some 1; Some 1; Some 1; Some 1; Some 0; Some 1]
  ∧ (sharedMemoryCrossCorrelation ok 1 (one_at 20 16) (one_at 20 16) 3 5 4 5 4 start).1
    = Returned [Some 0; Some 1; Some 0; Some 1; Some 0; Some 1].
Proof. split; by vm_compute. Qed.

(** With blocks as the benchmarks choose them (8 × 8 on 8 × 8 sources) the
    staging of the last rows reads past the end of the sources. *)
Example shared_memory_kernel_reads_out_of_bounds :
  (sharedMemoryCrossCorrelation ok 1 (zeros 64) (zeros 64) 3 8 8 8 8 start).1
  = Undefined.
Proof. by vm_compute. Qed.

(** With 2 × 1 tiles on 6 × 5 sources the grid has a block (1, 0), which
    stages nothing; its thread (0, 0) dumps the shared arrays and reads
    cells that no thread has written. *)
Example shared_memory_kernel_dumps_unstaged_cells :
  sharedMemoryCrossCorrelationKernel 1 (zeros 30) (zeros 30) 5 6 5 50
    (Dim3 1 2) (Dim3 1 0) (Dim3 0 0) = None
  ∧ (sharedMemoryCrossCorrelation ok 1 (zeros 30) (zeros 30) 5 6 5 2 1 start).1
    = Undefined.
Proof. split; by vm_compute. Qed.

(** C4: the shared-memory kernel does not write every cell. On 6 × 5
    sources and a 5 × 5 window the destination has the two cells (0, 0)
    and (1, 0).  With 6 × 5 tiles the grid is one block of 5 × 6 threads,
    one per source pixel: every thread stages its pixel, inside the
    sources and inside the 90 shared cells, no block dumps the shared
    arrays, and no thread passes the guard, which asks for
    [2 ≤ sCol ≤ 1]; so none writes, and the destination comes back as the
    fresh buffer was.  The direct kernel writes each of the two cells
    once. *)
Theorem shared_memory_kernel_writes_no_cell :
  sharedMemory_dimGrid 6 5 6 5 = Dim3 1 1
  ∧ launch_writes
      (sharedMemoryCrossCorrelationKernel 1 (zeros 30) (zeros 30) 5 6 5 90)
      (sharedMemory_dimGrid 6 5 6 5) (dimBlock 6 5)
    = Some []
  ∧ (sharedMemoryCrossCorrelation ok 1 (zeros 30) (zeros 30) 5 6 5 6 5 start).1
    = Returned [None; None]
  ∧ launch_writes (crossCorrelationKernel 1 (zeros 30) (zeros 30) 5 6 5)
      (dimGrid 5 6 5 6 5) (dimBlock 6 5)
    = Some [(0, 1); (1, 1)]
  ∧ (crossCorrelation ok 1 (zeros 30) (zeros 30) 5 6 5 6 5 start).1
    = Returned [Some 1; Some 1].
Proof. repeat split; by vm_compute. Qed.

(** ** The size of the destination buffer *)

(** C3: the byte count of the destination buffer is computed in [float].
    For 4099 × 4099 sources of [uint8_t] and a 3 × 3 window the
    destination has 4097 × 4097 = 16785409 cells; the product is not a
    binary32 number and rounds to 16785408, the size that is allocated
    and copied back, one cell short: whatever the runtime answers,
    [crossCorrelation] allocates the 16801801 bytes of a source or these
    16785408 bytes, never 16785409. *)
Theorem dest_size_rounds :
  dest_size 1 3 4099 4099 = 16785408
  ∧ (4099 - (3 - 1)) * (4099 - (3 - 1)) * 1 = 16785409
  ∧ Fmult (dest_rows 3 4099) (dest_cols 3 4099) = Float 8392704 1
  ∧ ∀ rt h_src1 h_src2 bdx bdy,
      allocates_only [16801801; 16785408]
        (trace (crossCorrelation rt 1 h_src1 h_src2 3 4099 4099 bdx bdy start).2).
Proof.
  split; [by vm_compute|]. split; [by vm_compute|]. split; [by vm_compute|].
  intros rt h_src1 h_src2 bdx bdy.
  pose proof (crossCorrelation_allocates rt 1 h_src1 h_src2 3 4099 4099 bdx bdy
                start) as Hk.
  change (src_size 1 4099 4099) with 16801801 in Hk.
  replace (dest_size 1 3 4099 4099) with 16785408 in Hk by (by vm_compute).
  destruct (crossCorrelation rt 1 h_src1 h_src2 3 4099 4099 bdx bdy start)
    as [[a| |] p'] eqn:E; cbn [snd]; apply Hk;
    intros size err Hin; by apply not_elem_of_nil in Hin.
Qed.

(** * Further properties of the code *)

(** ** The threads of the direct kernel *)

(** X1: every thread of the direct kernel is safe, whatever the grid and
    the block: on valid inputs it makes no access outside the sources,
    and it either fails the guard and writes nothing, or its cell lies in
    the destination and it writes one value of the sample type at the
    index of that cell, inside the destination buffer. *)
Theorem direct_kernel_thread_is_safe
    sizeofT A B k rows cols blockDim blockIdx threadIdx :
  0 < sizeofT → valid_input k rows cols → rows * cols < 2 ^ 64 →
  Z.of_nat (length A) = rows * cols → Z.of_nat (length B) = rows * cols →
  match crossCorrelationKernel sizeofT A B k rows cols blockDim blockIdx threadIdx with
  | Some (Some (p, v)) =>
      global_row blockDim blockIdx threadIdx < rows - (k - 1)
      ∧ global_col blockDim blockIdx threadIdx < cols - (k - 1)
      ∧ p = global_row blockDim blockIdx threadIdx * (cols - (k - 1))
            + global_col blockDim blockIdx threadIdx
      ∧ 0 ≤ p < (rows - (k - 1)) * (cols - (k - 1))
      ∧ 0 ≤ v < 2 ^ (8 * sizeofT)
  | Some None =>
      ¬ (global_row blockDim blockIdx threadIdx < rows - (k - 1)
         ∧ global_col blockDim blockIdx threadIdx < cols - (k - 1))
  | None => False
  end.
Proof.
  intros HT Hvalid Hfit HA HB.
  pose proof (crossCorrelationKernel_spec sizeofT A B k rows cols
                Hvalid Hfit HA HB blockDim blockIdx threadIdx) as Hk.
  cbv zeta in Hk. rewrite Hk. clear Hk.
  fold (global_row blockDim blockIdx threadIdx).
  fold (global_col blockDim blockIdx threadIdx).
  pose proof (uint_range (uint (y blockDim * y blockIdx) + y threadIdx)) as Hr.
  pose proof (uint_range (uint (x blockDim * x blockIdx) + x threadIdx)) as Hc.
  fold (global_row blockDim blockIdx threadIdx) in Hr.
  fold (global_col blockDim blockIdx threadIdx) in Hc.
  set (r := global_row blockDim blockIdx threadIdx) in *.
  set (c := global_col blockDim blockIdx threadIdx) in *.
  pose proof Hvalid as (_ & H3 & Hkr & Hkc).
  case_decide as Hg; [|done]. destruct Hg as [Hgr Hgc].
  assert (0 ≤ r * (cols - (k - 1)) ≤ (rows - (k - 1) - 1) * (cols - (k - 1))).
  { split; [apply Z.mul_nonneg_nonneg; lia|].
    apply Z.mul_le_mono_nonneg_r; lia. }
  assert ((rows - (k - 1) - 1) * (cols - (k - 1)) + (cols - (k - 1))
          = (rows - (k - 1)) * (cols - (k - 1))) by ring.
  repeat split; try lia; unfold cell_value; by apply castT_range.
Qed.

Lemma direct_kernel_thread_is_safe_witness :
  (0 < 1 ∧ valid_input 3 5 10 ∧ 5 * 10 < 2 ^ 64
   ∧ Z.of_nat (length src3) = 5 * 10 ∧ Z.of_nat (length src4) = 5 * 10)
  ∧ match crossCorrelationKernel 1 src3 src4 3 5 10 (Dim3 4 2) (Dim3 0 0) (Dim3 3 0) with
    | Some (Some (p, v)) =>
        global_row (Dim3 4 2) (Dim3 0 0) (Dim3 3 0) < 5 - (3 - 1)
        ∧ global_col (Dim3 4 2) (Dim3 0 0) (Dim3 3 0) < 10 - (3 - 1)
        ∧ p = global_row (Dim3 4 2) (Dim3 0 0) (Dim3 3 0) * (10 - (3 - 1))
              + global_col (Dim3 4 2) (Dim3 0 0) (Dim3 3 0)
        ∧ 0 ≤ p < (5 - (3 - 1)) * (10 - (3 - 1))
        ∧ 0 ≤ v < 2 ^ (8 * 1)
    | Some None =>
        ¬ (global_row (Dim3 4 2) (Dim3 0 0) (Dim3 3 0) < 5 - (3 - 1)
           ∧ global_col (Dim3 4 2) (Dim3 0 0) (Dim3 3 0) < 10 - (3 - 1))
    | None => False
    end.
Proof.
  assert (Hv : valid_input 3 5 10) by (repeat split; lia).
  split; [repeat split; (done || lia)|].
  apply (direct_kernel_thread_is_safe 1 src3 src4 3 5 10
           (Dim3 4 2) (Dim3 0 0) (Dim3 3 0)); (done || lia).
Defined.

(** X2: launched as the host functions launch it, the direct kernel
    writes every cell of the destination exactly once and nothing else:
    the launch makes as many writes as the destination has cells, no two
    to the same index, and every index of the destination is written. *)
Theorem direct_launch_writes_each_cell_once
    sizeofT A B k rows cols bdx bdy :
  0 < sizeofT → valid_input k rows cols → rows * cols * sizeofT < 2 ^ 64 →
  Z.of_nat (length A) = rows * cols → Z.of_nat (length B) = rows * cols →
  (rows - (k - 1)) * (cols - (k - 1)) * sizeofT < 2 ^ 24 →
  0 < bdx < 2 ^ 24 → 0 < bdy < 2 ^ 24 →
  ∃ ws,
    launch_writes (crossCorrelationKernel sizeofT A B k rows cols)
      (dimGrid k rows cols bdx bdy) (dimBlock bdx bdy) = Some ws
    ∧ NoDup ws.*1
    ∧ (∀ p, p ∈ ws.*1 ↔ 0 ≤ p < (rows - (k - 1)) * (cols - (k - 1)))
    ∧ Z.of_nat (length ws) = (rows - (k - 1)) * (cols - (k - 1)).
Proof.
  intros HT Hvalid Hfit HA HB Hsmall Hbx Hby.
  destruct (direct_kernel_writes_each_cell_once sizeofT A B k rows cols bdx bdy
              HT Hvalid Hfit HA HB Hsmall Hbx Hby) as (ws & Hws & Hnd & Hdom).
  exists ws. split; [done|]. split; [done|]. split; [done|].
  pose proof Hvalid as (_ & H3 & Hkr & Hkc).
  assert (Hdd : 0 ≤ (rows - (k - 1)) * (cols - (k - 1)))
    by (apply Z.mul_nonneg_nonneg; lia).
  rewrite <- (length_fmap fst ws).
  assert (Hperm : ws.*1 ≡ₚ seqZ 0 ((rows - (k - 1)) * (cols - (k - 1)))).
  { apply NoDup_Permutation; [done|apply NoDup_seqZ|].
    intros p. rewrite Hdom, elem_of_seqZ. lia. }
  rewrite Hperm, length_seqZ. lia.
Qed.

Lemma direct_launch_writes_each_cell_once_witness :
  (0 < 1 ∧ valid_input 3 5 10 ∧ 5 * 10 * 1 < 2 ^ 64
   ∧ Z.of_nat (length src3) = 5 * 10 ∧ Z.of_nat (length src4) = 5 * 10
   ∧ (5 - (3 - 1)) * (10 - (3 - 1)) * 1 < 2 ^ 24
   ∧ 0 < 2 < 2 ^ 24 ∧ 0 < 4 < 2 ^ 24)
  ∧ ∃ ws,
      launch_writes (crossCorrelationKernel 1 src3 src4 3 5 10)
        (dimGrid 3 5 10 2 4) (dimBlock 2 4) = Some ws
      ∧ NoDup ws.*1
      ∧ (∀ p, p ∈ ws.*1 ↔ 0 ≤ p < (5 - (3 - 1)) * (10 - (3 - 1)))
      ∧ Z.of_nat (length ws) = (5 - (3 - 1)) * (10 - (3 - 1)).
Proof.
  assert (Hv : valid_input 3 5 10) by (repeat split; lia).
  split; [repeat split; (done || lia)|].
  apply (direct_launch_writes_each_cell_once 1 src3 src4 3 5 10 2 4);
    (done || lia).
Defined.

(** ** The exact arg-max *)

(** X3: when the samples are at most [mx] and [k * k * mx * mx] fits the
    sample type, no score wraps around, and when the sources have at most
    [2 ^ (8 * sizeofT) + k/2 + 1] columns neither does the stored value:
    the direct kernel then stores [i - 1] for the last offset [i] that
    maximises the exact windowed dot product.  For 0/1 images of
    [uint8_t] this covers every window up to 15 × 15. *)
Theorem exact_argmax_without_overflow
    sizeofT A B k rows cols mx blockDim blockIdx threadIdx :
  0 < sizeofT → valid_input k rows cols → rows * cols < 2 ^ 64 →
  Z.of_nat (length A) = rows * cols → Z.of_nat (length B) = rows * cols →
  Forall (λ v, 0 ≤ v ≤ mx) A → Forall (λ v, 0 ≤ v ≤ mx) B →
  k * k * (mx * mx) < 2 ^ (8 * sizeofT) →
  cols - k / 2 - 1 ≤ 2 ^ (8 * sizeofT) →
  global_row blockDim blockIdx threadIdx < rows - (k - 1) →
  global_col blockDim blockIdx threadIdx < cols - (k - 1) →
  ∃ i,
    last_argmax
      (correlation A B cols k (global_row blockDim blockIdx threadIdx)
         (global_col blockDim blockIdx threadIdx))
      (k / 2) (cols - k / 2) i
    ∧ crossCorrelationKernel sizeofT A B k rows cols blockDim blockIdx threadIdx
      = Some (Some (global_row blockDim blockIdx threadIdx * (cols - (k - 1))
                    + global_col blockDim blockIdx threadIdx,
                    i - 1)).
Proof.
  intros HT Hvalid Hfit HA HB HmA HmB Hno Hcols Hr Hc.
  pose proof (half_bounds k rows cols Hvalid) as [Hh1 Hh2].
  pose proof Hvalid as (_ & H3 & Hkr & Hkc).
  assert (Hmx : 0 ≤ mx).
  { destruct A as [|a A']; [cbn in HA; nia|]. inversion HmA; lia. }
  rewrite crossCorrelationKernel_cell by done.
  destruct (cell_value_last_argmax sizeofT A B k rows cols
              (global_row blockDim blockIdx threadIdx)
              (global_col blockDim blockIdx threadIdx) HT Hvalid Hfit)
    as (i & Hi & Hcell).
  exists i. split.
  - eapply last_argmax_ext; [|exact Hi].
    intros v _. by apply score_exact with mx; try lia.
  - rewrite Hcell. do 3 f_equal. unfold castT. apply Z.mod_small.
    destruct Hi as [Hi _]. lia.
Qed.

Lemma exact_argmax_without_overflow_witness :
  (0 < 1 ∧ valid_input 3 5 10 ∧ 5 * 10 < 2 ^ 64
   ∧ Z.of_nat (length src3) = 5 * 10 ∧ Z.of_nat (length src4) = 5 * 10
   ∧ Forall (λ v, 0 ≤ v ≤ 1) src3 ∧ Forall (λ v, 0 ≤ v ≤ 1) src4
   ∧ 3 * 3 * (1 * 1) < 2 ^ (8 * 1)
   ∧ 10 - 3 / 2 - 1 ≤ 2 ^ (8 * 1)
   ∧ global_row (Dim3 4 2) (Dim3 0 0) (Dim3 3 0) < 5 - (3 - 1)
   ∧ global_col (Dim3 4 2) (Dim3 0 0) (Dim3 3 0) < 10 - (3 - 1))
  ∧ ∃ i,
      last_argmax
        (correlation src3 src4 10 3 (global_row (Dim3 4 2) (Dim3 0 0) (Dim3 3 0))
           (global_col (Dim3 4 2) (Dim3 0 0) (Dim3 3 0)))
        (3 / 2) (10 - 3 / 2) i
      ∧ crossCorrelationKernel 1 src3 src4 3 5 10 (Dim3 4 2) (Dim3 0 0) (Dim3 3 0)
        = Some (Some (global_row (Dim3 4 2) (Dim3 0 0) (Dim3 3 0) * (10 - (3 - 1))
                      + global_col (Dim3 4 2) (Dim3 0 0) (Dim3 3 0),
                      i - 1)).
Proof.
  assert (Hv : valid_input 3 5 10) by (repeat split; lia).
  assert (H3 : Forall (λ v, 0 ≤ v ≤ 1) src3) by (repeat constructor; lia).
  assert (H4 : Forall (λ v, 0 ≤ v ≤ 1) src4) by (repeat constructor; lia).
  assert (Hr : global_row (Dim3 4 2) (Dim3 0 0) (Dim3 3 0) < 5 - (3 - 1))
    by (by vm_compute).
  assert (Hc : global_col (Dim3 4 2) (Dim3 0 0) (Dim3 3 0) < 10 - (3 - 1))
    by (by vm_compute).
  assert (Hb : 10 - 3 / 2 - 1 ≤ 2 ^ (8 * 1)) by (by vm_compute).
  split; [repeat split; (done || lia)|].
  apply (exact_argmax_without_overflow 1 src3 src4 3 5 10 1
           (Dim3 4 2) (Dim3 0 0) (Dim3 3 0)); (done || lia).
Defined.

(** ** Blank windows *)

Lemma score_zero_window sizeofT A B cols k r c i :
  0 ≤ k →
  (∀ j m, r ≤ j < r + k → 0 ≤ m < k →
     pixel A cols j (m + (i - k / 2)) = 0 ∨ pixel B cols j (c + m) = 0) →
  score sizeofT A B cols k r c i = 0.
Proof.
  intros Hk H0. unfold score, correlation. rewrite sumZ_zero; [done|].
  intros j Hj. apply sumZ_zero. intros m Hm.
  destruct (H0 j m) as [-> | ->]; lia.
Qed.

(** X4: a cell whose window of [B] is all zero, or whose rows of [A] are
    all zero, carries no information: every offset scores 0, the last
    offset of the scan wins, and the direct kernel stores
    [cols - k/2 - 2] converted to [T], whatever the other source
    holds. *)
Theorem blank_window_stores_final_offset_minus_one
    sizeofT A B k rows cols blockDim blockIdx threadIdx :
  0 < sizeofT → valid_input k rows cols → rows * cols < 2 ^ 64 →
  Z.of_nat (length A) = rows * cols → Z.of_nat (length B) = rows * cols →
  global_row blockDim blockIdx threadIdx < rows - (k - 1) →
  global_col blockDim blockIdx threadIdx < cols - (k - 1) →
  (∀ j col,
     global_row blockDim blockIdx threadIdx ≤ j
       < global_row blockDim blockIdx threadIdx + k →
     0 ≤ col < cols → pixel A cols j col = 0)
  ∨ (∀ j col,
       global_row blockDim blockIdx threadIdx ≤ j
         < global_row blockDim blockIdx threadIdx + k →
       global_col blockDim blockIdx threadIdx ≤ col
         < global_col blockDim blockIdx threadIdx + k →
       pixel B cols j col = 0) →
  crossCorrelationKernel sizeofT A B k rows cols blockDim blockIdx threadIdx
  = Some (Some (global_row blockDim blockIdx threadIdx * (cols - (k - 1))
                + global_col blockDim blockIdx threadIdx,
                castT sizeofT (cols - k / 2 - 1 - 1))).
Proof.
  intros HT Hvalid Hfit HA HB Hr Hc H0.
  pose proof Hvalid as (_ & H3 & Hkr & Hkc).
  rewrite crossCorrelationKernel_cell by done.
  destruct (cell_value_last_argmax sizeofT A B k rows cols
              (global_row blockDim blockIdx threadIdx)
              (global_col blockDim blockIdx threadIdx) HT Hvalid Hfit)
    as (i & (Hi & _ & Hlast) & ->).
  do 4 f_equal.
  destruct (decide (i = cols - k / 2 - 1)) as [->|Hne]; [done|].
  specialize (Hlast (cols - k / 2 - 1)).
  pose proof (half_bounds k rows cols Hvalid) as [Hh1 Hh2].
  rewrite !score_zero_window in Hlast; [lia| lia | | lia |].
  all: intros j m Hj Hm; destruct H0 as [HA0|HB0];
    [left; apply HA0; lia|right; apply HB0; lia].
Qed.

Lemma blank_window_stores_final_offset_minus_one_witness :
  (0 < 1 ∧ valid_input 3 5 10 ∧ 5 * 10 < 2 ^ 64
   ∧ Z.of_nat (length src3) = 5 * 10
   ∧ Z.of_nat (length (one_at 50 49)) = 5 * 10
   ∧ global_row (Dim3 4 2) (Dim3 0 0) (Dim3 0 0) < 5 - (3 - 1)
   ∧ global_col (Dim3 4 2) (Dim3 0 0) (Dim3 0 0) < 10 - (3 - 1)
   ∧ ((∀ j col,
         global_row (Dim3 4 2) (Dim3 0 0) (Dim3 0 0) ≤ j
           < global_row (Dim3 4 2) (Dim3 0 0) (Dim3 0 0) + 3 →
         0 ≤ col < 10 → pixel src3 10 j col = 0)
      ∨ (∀ j col,
           global_row (Dim3 4 2) (Dim3 0 0) (Dim3 0 0) ≤ j
             < global_row (Dim3 4 2) (Dim3 0 0) (Dim3 0 0) + 3 →
           global_col (Dim3 4 2) (Dim3 0 0) (Dim3 0 0) ≤ col
             < global_col (Dim3 4 2) (Dim3 0 0) (Dim3 0 0) + 3 →
           pixel (one_at 50 49) 10 j col = 0)))
  ∧ crossCorrelationKernel 1 src3 (one_at 50 49) 3 5 10
      (Dim3 4 2) (Dim3 0 0) (Dim3 0 0)
    = Some (Some (global_row (Dim3 4 2) (Dim3 0 0) (Dim3 0 0) * (10 - (3 - 1))
                  + global_col (Dim3 4 2) (Dim3 0 0) (Dim3 0 0),
                  castT 1 (10 - 3 / 2 - 1 - 1))).
Proof.
  assert (Hv : valid_input 3 5 10) by (repeat split; lia).
  assert (Hr : global_row (Dim3 4 2) (Dim3 0 0) (Dim3 0 0) < 5 - (3 - 1))
    by (by vm_compute).
  assert (Hc : global_col (Dim3 4 2) (Dim3 0 0) (Dim3 0 0) < 10 - (3 - 1))
    by (by vm_compute).
  assert (HB : ∀ j col,
             global_row (Dim3 4 2) (Dim3 0 0) (Dim3 0 0) ≤ j
               < global_row (Dim3 4 2) (Dim3 0 0) (Dim3 0 0) + 3 →
             global_col (Dim3 4 2) (Dim3 0 0) (Dim3 0 0) ≤ col
               < global_col (Dim3 4 2) (Dim3 0 0) (Dim3 0 0) + 3 →
             pixel (one_at 50 49) 10 j col = 0).
  { intros j col Hj Hcol. rewrite <- (pixel_zeros 50 10 j col).
    by apply (pixels_agree_by_enumeration (one_at 50 49) (zeros 50) 10 0 3 0 3). }
  split; [repeat split; (done || lia || by right)|].
  apply (blank_window_stores_final_offset_minus_one 1 src3 (one_at 50 49) 3 5 10
           (Dim3 4 2) (Dim3 0 0) (Dim3 0 0)); (done || lia || by right).
Defined.

(** ** The host functions when every runtime call succeeds *)

(** One call of a successful run, with the state it leaves. *)
Ltac run_step Hrt :=
  first [ rewrite cudaMalloc_ok by exact Hrt
        | rewrite checkCudaError_ok
        | rewrite cudaMemcpyHostToDevice_ok by (exact Hrt || assumption)
        | rewrite cudaMemcpyDeviceToHost_ok by (exact Hrt || assumption)
        | erewrite launch_ok by (exact Hrt || eassumption)
        | rewrite api_ok by exact Hrt ];
  cbv beta iota; cbn [fst snd trace stderr].

Section TimedRuns.

Variable rt : nat → Z.
Variables (sizeofT : Z) (elapsedTime : float) (A B : list Z) (k rows cols bdx bdy : Z).
Hypothesis Hrt : ∀ n, rt n = cudaSuccess.
Hypothesis HT : 0 < sizeofT.
Hypothesis Hvalid : valid_input k rows cols.
Hypothesis Hfit : rows * cols * sizeofT < 2 ^ 64.
Hypothesis HA : Z.of_nat (length A) = rows * cols.
Hypothesis HB : Z.of_nat (length B) = rows * cols.
Hypothesis Hsmall : (rows - (k - 1)) * (cols - (k - 1)) * sizeofT < 2 ^ 24.
Hypothesis Hbx : 0 < bdx < 2 ^ 24.
Hypothesis Hby : 0 < bdy < 2 ^ 24.

(** The locals of the three functions that launch the direct kernel, and
    the sizes of the buffers in elements. *)
Lemma direct_locals :
  src_size sizeofT rows cols = rows * cols * sizeofT
  ∧ dest_size sizeofT k rows cols = (rows - (k - 1)) * (cols - (k - 1)) * sizeofT
  ∧ dimGrid k rows cols bdx bdy
    = Dim3 ((cols - (k - 1) + bdy - 1) / bdy) ((rows - (k - 1) + bdx - 1) / bdx)
  ∧ dimBlock bdx bdy = Dim3 bdy bdx
  ∧ rows * cols * sizeofT / sizeofT = Z.of_nat (length A)
  ∧ rows * cols * sizeofT / sizeofT = Z.of_nat (length B)
  ∧ (rows - (k - 1)) * (cols - (k - 1)) * sizeofT / sizeofT
    = Z.of_nat (length (destination sizeofT A B k rows cols))
  ∧ Z.to_nat ((rows - (k - 1)) * (cols - (k - 1)) * sizeofT / sizeofT)
    = Z.to_nat ((rows - (k - 1)) * (cols - (k - 1))).
Proof using HT Hvalid Hfit HA HB Hsmall Hbx Hby.
  pose proof Hvalid as (_ & H3 & Hkr & Hkc).
  destruct (product_bounds rows cols sizeofT (2 ^ 64)) as (Hrows & Hcols & Hrc);
    [lia..|].
  destruct (product_bounds (rows - (k - 1)) (cols - (k - 1)) sizeofT (2 ^ 24))
    as (Hdr24 & Hdc24 & Hdd24); [lia..|].
  assert (Hdd : 0 < (rows - (k - 1)) * (cols - (k - 1)))
    by (apply Z.mul_pos_pos; lia).
  split; [by apply (src_size_exact sizeofT k rows cols)|].
  split; [by apply dest_size_exact|].
  split; [by apply dimGrid_exact|].
  split; [unfold dimBlock; by rewrite !uint_small by lia|].
  rewrite !Z.div_mul by lia.
  split; [lia|]. split; [lia|]. split; [|done].
  unfold destination. rewrite length_fmap, length_seqZ. lia.
Qed.

Lemma crossCorrelationTimeWithAllocation_run p :
  (crossCorrelationTimeWithAllocation rt sizeofT elapsedTime
     A B k rows cols bdx bdy p).1
  = Returned (destination sizeofT A B k rows cols, elapsedTime).
Proof using All.
  destruct direct_locals as (Hs & Hd & Hg & Hb & HlA & HlB & Hld & Hn).
  pose proof (direct_run_grid sizeofT A B k rows cols bdx bdy
                HT Hvalid Hfit HA HB Hsmall Hbx Hby) as Hrun.
  unfold crossCorrelationTimeWithAllocation.
  rewrite Hs, Hd, Hg, Hb. unfold bind.
  do 12 run_step Hrt. rewrite Hn. repeat run_step Hrt. done.
Qed.

Lemma crossCorrelationTimeWithoutAllocation_run p :
  (crossCorrelationTimeWithoutAllocation rt sizeofT elapsedTime
     A B k rows cols bdx bdy p).1
  = Returned (destination sizeofT A B k rows cols, elapsedTime).
Proof using All.
  destruct direct_locals as (Hs & Hd & Hg & Hb & HlA & HlB & Hld & Hn).
  pose proof (direct_run_grid sizeofT A B k rows cols bdx bdy
                HT Hvalid Hfit HA HB Hsmall Hbx Hby) as Hrun.
  unfold crossCorrelationTimeWithoutAllocation.
  rewrite Hs, Hd, Hg, Hb. unfold bind.
  do 13 run_step Hrt. rewrite Hn. repeat run_step Hrt. done.
Qed.

End TimedRuns.

(** X5: [crossCorrelation], from the host's side.  When every runtime
    call succeeds and the sizes are in range, it returns a destination
    of [(rows - (k - 1)) * (cols - (k - 1))] elements and reports
    nothing; the element of the cell [(r, c)], at index
    [r * (cols - (k - 1)) + c], is [i - 1] converted to [T] for the last
    offset [i] of greatest score of that cell. *)
Theorem crossCorrelation_computes_last_argmax
    rt sizeofT A B k rows cols bdx bdy :
  (∀ n, rt n = cudaSuccess) → 0 < sizeofT → valid_input k rows cols →
  rows * cols * sizeofT < 2 ^ 64 →
  Z.of_nat (length A) = rows * cols → Z.of_nat (length B) = rows * cols →
  (rows - (k - 1)) * (cols - (k - 1)) * sizeofT < 2 ^ 24 →
  0 < bdx < 2 ^ 24 → 0 < bdy < 2 ^ 24 →
  ∃ d,
    (crossCorrelation rt sizeofT A B k rows cols bdx bdy start).1 = Returned d
    ∧ stderr (crossCorrelation rt sizeofT A B k rows cols bdx bdy start).2 = []
    ∧ Z.of_nat (length d) = (rows - (k - 1)) * (cols - (k - 1))
    ∧ ∀ r c, 0 ≤ r < rows - (k - 1) → 0 ≤ c < cols - (k - 1) →
        ∃ i, last_argmax (score sizeofT A B cols k r c) (k / 2) (cols - k / 2) i
             ∧ d !! Z.to_nat (r * (cols - (k - 1)) + c)
               = Some (Some (castT sizeofT (i - 1))).
Proof.
  intros Hrt HT Hvalid Hfit HA HB Hsmall Hbx Hby.
  pose proof Hvalid as (_ & H3 & Hkr & Hkc).
  destruct (product_bounds rows cols sizeofT (2 ^ 64)) as (_ & _ & Hrc);
    [lia..|].
  exists (destination sizeofT A B k rows cols).
  rewrite !crossCorrelation_run by done. cbn [fst snd stderr start].
  split; [done|]. split; [done|]. split.
  { unfold destination. rewrite length_fmap, length_seqZ.
    assert (0 ≤ (rows - (k - 1)) * (cols - (k - 1)))
      by (apply Z.mul_nonneg_nonneg; lia). lia. }
  intros r c Hr Hc.
  destruct (cell_value_last_argmax sizeofT A B k rows cols r c HT Hvalid Hrc)
    as (i & Hi & Hcell).
  exists i. split; [done|].
  rewrite destination_lookup by done. by rewrite Hcell.
Qed.

Lemma crossCorrelation_computes_last_argmax_witness :
  ((∀ n, ok n = cudaSuccess) ∧ 0 < 1 ∧ valid_input 3 5 10
   ∧ 5 * 10 * 1 < 2 ^ 64
   ∧ Z.of_nat (length src3) = 5 * 10 ∧ Z.of_nat (length src4) = 5 * 10
   ∧ (5 - (3 - 1)) * (10 - (3 - 1)) * 1 < 2 ^ 24
   ∧ 0 < 2 < 2 ^ 24 ∧ 0 < 4 < 2 ^ 24)
  ∧ ∃ d,
      (crossCorrelation ok 1 src3 src4 3 5 10 2 4 start).1 = Returned d
      ∧ stderr (crossCorrelation ok 1 src3 src4 3 5 10 2 4 start).2 = []
      ∧ Z.of_nat (length d) = (5 - (3 - 1)) * (10 - (3 - 1))
      ∧ ∀ r c, 0 ≤ r < 5 - (3 - 1) → 0 ≤ c < 10 - (3 - 1) →
          ∃ i, last_argmax (score 1 src3 src4 10 3 r c) (3 / 2) (10 - 3 / 2) i
               ∧ d !! Z.to_nat (r * (10 - (3 - 1)) + c)
                 = Some (Some (castT 1 (i - 1))).
Proof.
  assert (Hv : valid_input 3 5 10) by (repeat split; lia).
  split; [repeat split; (done || lia)|].
  apply (crossCorrelation_computes_last_argmax ok 1 src3 src4 3 5 10 2 4);
    (done || lia).
Defined.

(** X6: the two timed variants compute the matrix [crossCorrelation]
    computes.  When every runtime call succeeds and the sizes are in
    range, the three functions leave the same destination, and a timed
    variant returns the elapsed time the runtime measured. *)
Theorem timed_variants_return_the_destination
    rt sizeofT elapsedTime A B k rows cols bdx bdy :
  (∀ n, rt n = cudaSuccess) → 0 < sizeofT → valid_input k rows cols →
  rows * cols * sizeofT < 2 ^ 64 →
  Z.of_nat (length A) = rows * cols → Z.of_nat (length B) = rows * cols →
  (rows - (k - 1)) * (cols - (k - 1)) * sizeofT < 2 ^ 24 →
  0 < bdx < 2 ^ 24 → 0 < bdy < 2 ^ 24 →
  ∃ d,
    (crossCorrelation rt sizeofT A B k rows cols bdx bdy start).1 = Returned d
    ∧ (crossCorrelationTimeWithAllocation rt sizeofT elapsedTime
         A B k rows cols bdx bdy start).1 = Returned (d, elapsedTime)
    ∧ (crossCorrelationTimeWithoutAllocation rt sizeofT elapsedTime
         A B k rows cols bdx bdy start).1 = Returned (d, elapsedTime).
Proof.
  intros Hrt HT Hvalid Hfit HA HB Hsmall Hbx Hby.
  exists (destination sizeofT A B k rows cols).
  rewrite crossCorrelation_run by done.
  rewrite crossCorrelationTimeWithAllocation_run by done.
  rewrite crossCorrelationTimeWithoutAllocation_run by done.
  done.
Qed.

Lemma timed_variants_return_the_destination_witness :
  ((∀ n, ok n = cudaSuccess) ∧ 0 < 1 ∧ valid_input 3 5 10
   ∧ 5 * 10 * 1 < 2 ^ 64
   ∧ Z.of_nat (length src3) = 5 * 10 ∧ Z.of_nat (length src4) = 5 * 10
   ∧ (5 - (3 - 1)) * (10 - (3 - 1)) * 1 < 2 ^ 24
   ∧ 0 < 2 < 2 ^ 24 ∧ 0 < 4 < 2 ^ 24)
  ∧ ∃ d,
      (crossCorrelation ok 1 src3 src4 3 5 10 2 4 start).1 = Returned d
      ∧ (crossCorrelationTimeWithAllocation ok 1 (Float 3 0)
           src3 src4 3 5 10 2 4 start).1 = Returned (d, Float 3 0)
      ∧ (crossCorrelationTimeWithoutAllocation ok 1 (Float 3 0)
           src3 src4 3 5 10 2 4 start).1 = Returned (d, Float 3 0).
Proof.
  assert (Hv : valid_input 3 5 10) by (repeat split; lia).
  split; [repeat split; (done || lia)|].
  apply (timed_variants_return_the_destination ok 1 (Float 3 0)
           src3 src4 3 5 10 2 4); (done || lia).
Defined.

(** X7: below 2^24 bytes the byte counts are exact.  For a destination of
    fewer than 2^24 bytes, [src_size] is [rows * cols * sizeof(T)],
    [dest_size] is [(rows - (k - 1)) * (cols - (k - 1)) * sizeof(T)], and
    whatever the runtime answers [crossCorrelation] allocates buffers of
    these two sizes and of no other. *)
Theorem allocations_are_exact_below_2_24
    rt sizeofT h_src1 h_src2 k rows cols bdx bdy :
  0 < sizeofT → valid_input k rows cols → rows * cols * sizeofT < 2 ^ 64 →
  (rows - (k - 1)) * (cols - (k - 1)) * sizeofT < 2 ^ 24 →
  src_size sizeofT rows cols = rows * cols * sizeofT
  ∧ dest_size sizeofT k rows cols = (rows - (k - 1)) * (cols - (k - 1)) * sizeofT
  ∧ allocates_only
      [rows * cols * sizeofT; (rows - (k - 1)) * (cols - (k - 1)) * sizeofT]
      (trace (crossCorrelation rt sizeofT h_src1 h_src2 k rows cols bdx bdy start).2).
Proof.
  intros HT Hvalid Hfit Hsmall.
  pose proof Hvalid as (_ & H3 & Hkr & Hkc).
  destruct (product_bounds rows cols sizeofT (2 ^ 64)) as (Hrows & Hcols & Hrc);
    [lia..|].
  assert (Hs : src_size sizeofT rows cols = rows * cols * sizeofT)
    by (by apply (src_size_exact sizeofT k rows cols)).
  assert (Hd : dest_size sizeofT k rows cols
               = (rows - (k - 1)) * (cols - (k - 1)) * sizeofT)
    by (by apply dest_size_exact).
  split; [done|]. split; [done|].
  rewrite <- Hs, <- Hd.
  pose proof (crossCorrelation_allocates rt sizeofT h_src1 h_src2 k rows cols
                bdx bdy start) as Hk.
  destruct (crossCorrelation rt sizeofT h_src1 h_src2 k rows cols bdx bdy start)
    as [[a| |] p'] eqn:E; cbn [snd]; apply Hk;
    intros size err Hin; by apply not_elem_of_nil in Hin.
Qed.

Lemma allocations_are_exact_below_2_24_witness :
  (0 < 1 ∧ valid_input 3 5 10 ∧ 5 * 10 * 1 < 2 ^ 64
   ∧ (5 - (3 - 1)) * (10 - (3 - 1)) * 1 < 2 ^ 24)
  ∧ src_size 1 5 10 = 5 * 10 * 1
  ∧ dest_size 1 3 5 10 = (5 - (3 - 1)) * (10 - (3 - 1)) * 1
  ∧ allocates_only [5 * 10 * 1; (5 - (3 - 1)) * (10 - (3 - 1)) * 1]
      (trace (crossCorrelation ok 1 src3 src4 3 5 10 2 4 start).2).
Proof.
  assert (Hv : valid_input 3 5 10) by (repeat split; lia).
  split; [repeat split; (done || lia)|].
  apply (allocations_are_exact_below_2_24 ok 1 src3 src4 3 5 10 2 4);
    (done || lia).
Defined.

(** ** The host functions under any runtime *)

Lemma launches_after_spec P pre tr :
  launches_after P pre tr →
  ∀ tr1 c err tr2, tr = tr1 ++ (c, err) :: tr2 → is_launch c = true →
    P (pre ++ tr1).
Proof.
  revert pre. induction tr as [|[c0 e0] tr IH]; intros pre H tr1 c err tr2 Heq Hc.
  - by destruct tr1.
  - destruct H as [H0 H]. destruct tr1 as [|ce tr1]; simplify_eq/=.
    + rewrite app_nil_r. by apply H0.
    + rewrite cons_middle, assoc_L by apply _. by eapply IH.
Qed.

Lemma launch_after_setup_intro tr :
  launches_after setup_done [] tr → launch_after_setup tr.
Proof.
  intros H tr1 c err tr2 Heq Hc.
  apply (launches_after_spec setup_done [] tr H tr1 c err tr2 Heq Hc).
Qed.

Lemma all_checked_ok_nil : all_checked_ok [].
Proof. intros c err Hin. by apply not_elem_of_nil in Hin. Qed.

Lemma all_checked_ok_cons c err tr :
  (is_Some (checked c) → err = cudaSuccess) → all_checked_ok tr →
  all_checked_ok ((c, err) :: tr).
Proof.
  intros Hc Htr c' err' [Heq|Hin]%elem_of_cons Hch.
  - simplify_eq. by apply Hc.
  - by eapply Htr.
Qed.

(** The runs of a host function from [start], by the statuses the
    function examines: those of the allocations, the copies and the
    launch. *)
Ltac run_cases rt :=
  repeat first
    [ progress cbn [trace stderr length app fst snd start]
    | progress cbv beta iota
    | match goal with
      | |- context [decide (rt ?n = cudaSuccess)] =>
          let e := fresh "err" in
          generalize (rt n); intros e;
          destruct (decide (e = cudaSuccess)) as [->|?]
      | |- context [decide (rt ?n ≠ cudaSuccess)] =>
          let e := fresh "err" in
          generalize (rt n); intros e;
          destruct (decide (e = cudaSuccess)) as [->|?]
      | |- context [decide (cudaSuccess = cudaSuccess)] =>
          rewrite (decide_True (P := cudaSuccess = cudaSuccess)) by reflexivity
      | |- context [decide (cudaSuccess ≠ cudaSuccess)] =>
          rewrite (decide_False (P := cudaSuccess ≠ cudaSuccess)) by (intros ?; done)
      | H : ?e ≠ cudaSuccess |- context [decide (?e = cudaSuccess)] =>
          rewrite (decide_False (P := e = cudaSuccess)) by exact H
      | H : ?e ≠ cudaSuccess |- context [decide (?e ≠ cudaSuccess)] =>
          rewrite (decide_True (P := e ≠ cudaSuccess)) by exact H
      | |- context [decide (?a ≤ ?b)] => destruct (decide (a ≤ b))
      | |- context [run_grid ?k ?g ?b ?d] => destruct (run_grid k g b d)
      end ].

Ltac unfold_calls :=
  unfold bind, cudaMalloc, cudaMemcpyHostToDevice, cudaMemcpyDeviceToHost,
    launch, checkCudaError, api, ret, exit, undefined, cerr, bind.

Ltac setup_ok :=
  apply launch_after_setup_intro; cbn [launches_after app is_launch];
  repeat lazymatch goal with
    | |- _ ∧ _ => split
    | |- True => exact I
    | |- false = true → _ => intros [=]
    | |- true = true → _ =>
        intros _; split; [reflexivity|]; split; [reflexivity|];
        split; [reflexivity|];
        repeat (apply all_checked_ok_cons;
                  [first [(by intros _) | (by intros [? [=]])]|]);
        apply all_checked_ok_nil
    end.

Section Protocol.

Variable rt : nat → Z.
Variable sizeofT : Z.
Variable elapsedTime : float.
Variables (h_src1 h_src2 : list Z) (k rows cols bdx bdy : Z).

Lemma crossCorrelation_frees :
  from_start (crossCorrelation rt sizeofT h_src1 h_src2 k rows cols bdx bdy)
    (λ _ tr, count is_malloc tr = 3 ∧ count is_free tr = 3)
    (λ tr, count is_free tr = 0).
Proof using Type.
  unfold from_start, crossCorrelation. cbv zeta.
  generalize (src_size sizeofT rows cols) (dest_size sizeofT k rows cols)
             (dimGrid k rows cols bdx bdy) (dimBlock bdx bdy).
  intros ss ds g b. unfold_calls. run_cases rt; by cbn.
Qed.

Lemma sharedMemoryCrossCorrelation_frees :
  from_start (sharedMemoryCrossCorrelation rt sizeofT h_src1 h_src2 k rows cols bdx bdy)
    (λ _ tr, count is_malloc tr = 3 ∧ count is_free tr = 3)
    (λ tr, count is_free tr = 0).
Proof using Type.
  unfold from_start, sharedMemoryCrossCorrelation. cbv zeta.
  generalize (src_size sizeofT rows cols) (dest_size sizeofT k rows cols)
             (sharedMemory_dimGrid rows cols bdx bdy) (dimBlock bdx bdy)
             (size_t (size_t (2 * size_t (size_t (bdy + size_t (2 * (k / 2))) * cols))
                      * sizeofT)).
  intros ss ds g b sh. unfold_calls. run_cases rt; by cbn.
Qed.

Lemma crossCorrelationTimeWithAllocation_frees :
  from_start (crossCorrelationTimeWithAllocation rt sizeofT elapsedTime
                h_src1 h_src2 k rows cols bdx bdy)
    (λ _ tr, count is_malloc tr = 3 ∧ count is_free tr = 3)
    (λ tr, count is_free tr = 0).
Proof using Type.
  unfold from_start, crossCorrelationTimeWithAllocation. cbv zeta.
  generalize (src_size sizeofT rows cols) (dest_size sizeofT k rows cols)
             (dimGrid k rows cols bdx bdy) (dimBlock bdx bdy).
  intros ss ds g b. unfold_calls. run_cases rt; by cbn.
Qed.

Lemma crossCorrelationTimeWithoutAllocation_frees :
  from_start (crossCorrelationTimeWithoutAllocation rt sizeofT elapsedTime
                h_src1 h_src2 k rows cols bdx bdy)
    (λ _ tr, count is_malloc tr = 3 ∧ count is_free tr = 3)
    (λ tr, count is_free tr = 0).
Proof using Type.
  unfold from_start, crossCorrelationTimeWithoutAllocation. cbv zeta.
  generalize (src_size sizeofT rows cols) (dest_size sizeofT k rows cols)
             (dimGrid k rows cols bdx bdy) (dimBlock bdx bdy).
  intros ss ds g b. unfold_calls. run_cases rt; by cbn.
Qed.

Lemma crossCorrelation_setup :
  from_start (crossCorrelation rt sizeofT h_src1 h_src2 k rows cols bdx bdy)
    (λ _ tr, launch_after_setup tr ∧ count is_launch tr = 1) launch_after_setup.
Proof using Type.
  unfold from_start, crossCorrelation. cbv zeta.
  generalize (src_size sizeofT rows cols) (dest_size sizeofT k rows cols)
             (dimGrid k rows cols bdx bdy) (dimBlock bdx bdy).
  intros ss ds g b. unfold_calls.
  run_cases rt; try (split; [|reflexivity]); setup_ok.
Qed.

Lemma sharedMemoryCrossCorrelation_setup :
  from_start (sharedMemoryCrossCorrelation rt sizeofT h_src1 h_src2 k rows cols bdx bdy)
    (λ _ tr, launch_after_setup tr ∧ count is_launch tr = 1) launch_after_setup.
Proof using Type.
  unfold from_start, sharedMemoryCrossCorrelation. cbv zeta.
  generalize (src_size sizeofT rows cols) (dest_size sizeofT k rows cols)
             (sharedMemory_dimGrid rows cols bdx bdy) (dimBlock bdx bdy)
             (size_t (size_t (2 * size_t (size_t (bdy + size_t (2 * (k / 2))) * cols))
                      * sizeofT)).
  intros ss ds g b sh. unfold_calls.
  run_cases rt; try (split; [|reflexivity]); setup_ok.
Qed.

Lemma crossCorrelationTimeWithAllocation_setup :
  from_start (crossCorrelationTimeWithAllocation rt sizeofT elapsedTime
                h_src1 h_src2 k rows cols bdx bdy)
    (λ _ tr, launch_after_setup tr ∧ count is_launch tr = 1) launch_after_setup.
Proof using Type.
  unfold from_start, crossCorrelationTimeWithAllocation. cbv zeta.
  generalize (src_size sizeofT rows cols) (dest_size sizeofT k rows cols)
             (dimGrid k rows cols bdx bdy) (dimBlock bdx bdy).
  intros ss ds g b. unfold_calls.
  run_cases rt; try (split; [|reflexivity]); setup_ok.
Qed.

Lemma crossCorrelationTimeWithoutAllocation_setup :
  from_start (crossCorrelationTimeWithoutAllocation rt sizeofT elapsedTime
                h_src1 h_src2 k rows cols bdx bdy)
    (λ _ tr, launch_after_setup tr ∧ count is_launch tr = 1) launch_after_setup.
Proof using Type.
  unfold from_start, crossCorrelationTimeWithoutAllocation. cbv zeta.
  generalize (src_size sizeofT rows cols) (dest_size sizeofT k rows cols)
             (dimGrid k rows cols bdx bdy) (dimBlock bdx bdy).
  intros ss ds g b. unfold_calls.
  run_cases rt; try (split; [|reflexivity]); setup_ok.
Qed.

End Protocol.

(** X8: the device buffers are freed only when the function returns.
    Whatever the runtime answers and whatever the arguments are, a run of
    any of the four host functions that returns has made three
    allocations and three [cudaFree] calls; a run that stops in
    [checkCudaError], or at an access outside an array, has freed none
    of the buffers it had allocated. *)
Theorem buffers_are_freed_only_on_return
    rt sizeofT elapsedTime h_src1 h_src2 k rows cols bdx bdy :
  from_start (crossCorrelation rt sizeofT h_src1 h_src2 k rows cols bdx bdy)
    (λ _ tr, count is_malloc tr = 3 ∧ count is_free tr = 3)
    (λ tr, count is_free tr = 0)
  ∧ from_start
      (sharedMemoryCrossCorrelation rt sizeofT h_src1 h_src2 k rows cols bdx bdy)
      (λ _ tr, count is_malloc tr = 3 ∧ count is_free tr = 3)
      (λ tr, count is_free tr = 0)
  ∧ from_start
      (crossCorrelationTimeWithAllocation rt sizeofT elapsedTime
         h_src1 h_src2 k rows cols bdx bdy)
      (λ _ tr, count is_malloc tr = 3 ∧ count is_free tr = 3)
      (λ tr, count is_free tr = 0)
  ∧ from_start
      (crossCorrelationTimeWithoutAllocation rt sizeofT elapsedTime
         h_src1 h_src2 k rows cols bdx bdy)
      (λ _ tr, count is_malloc tr = 3 ∧ count is_free tr = 3)
      (λ tr, count is_free tr = 0).
Proof.
  split; [apply crossCorrelation_frees|].
  split; [apply sharedMemoryCrossCorrelation_frees|].
  split; [apply crossCorrelationTimeWithAllocation_frees|].
  apply crossCorrelationTimeWithoutAllocation_frees.
Qed.

(** X9: the kernel is launched only on buffers that are ready.  In every
    run of any of the four host functions, whatever the runtime answers,
    a kernel launch comes after exactly three allocations and two copies,
    all of which succeeded, and after no other launch; a run that
    returns has launched exactly once. *)
Theorem kernel_is_launched_once_after_setup
    rt sizeofT elapsedTime h_src1 h_src2 k rows cols bdx bdy :
  from_start (crossCorrelation rt sizeofT h_src1 h_src2 k rows cols bdx bdy)
    (λ _ tr, launch_after_setup tr ∧ count is_launch tr = 1) launch_after_setup
  ∧ from_start
      (sharedMemoryCrossCorrelation rt sizeofT h_src1 h_src2 k rows cols bdx bdy)
      (λ _ tr, launch_after_setup tr ∧ count is_launch tr = 1) launch_after_setup
  ∧ from_start
      (crossCorrelationTimeWithAllocation rt sizeofT elapsedTime
         h_src1 h_src2 k rows cols bdx bdy)
      (λ _ tr, launch_after_setup tr ∧ count is_launch tr = 1) launch_after_setup
  ∧ from_start
      (crossCorrelationTimeWithoutAllocation rt sizeofT elapsedTime
         h_src1 h_src2 k rows cols bdx bdy)
      (λ _ tr, launch_after_setup tr ∧ count is_launch tr = 1) launch_after_setup.
Proof.
  split; [apply crossCorrelation_setup|].
  split; [apply sharedMemoryCrossCorrelation_setup|].
  split; [apply crossCorrelationTimeWithAllocation_setup|].
  apply crossCorrelationTimeWithoutAllocation_setup.
Qed.

(** X10: a failed kernel launch is silent.  When the launch, the sixth
    runtime call of [crossCorrelation], is the only one that fails, the
    function still returns, reports nothing on [std::cerr], and hands
    back the destination buffer as it was allocated: no thread ran, and
    no element holds a computed value. *)
Theorem failed_launch_is_silent rt sizeofT A B k rows cols bdx bdy :
  (∀ n, n ≠ 5%nat → rt n = cudaSuccess) → rt 5%nat ≠ cudaSuccess →
  0 < sizeofT → valid_input k rows cols →
  rows * cols * sizeofT < 2 ^ 64 →
  Z.of_nat (length A) = rows * cols → Z.of_nat (length B) = rows * cols →
  (rows - (k - 1)) * (cols - (k - 1)) * sizeofT < 2 ^ 24 →
  0 < bdx < 2 ^ 24 → 0 < bdy < 2 ^ 24 →
  (crossCorrelation rt sizeofT A B k rows cols bdx bdy start).1
  = Returned (replicate (Z.to_nat ((rows - (k - 1)) * (cols - (k - 1)))) None)
  ∧ stderr (crossCorrelation rt sizeofT A B k rows cols bdx bdy start).2 = []
  ∧ ∃ g b,
      trace (crossCorrelation rt sizeofT A B k rows cols bdx bdy start).2 !! 5%nat
      = Some (launch_call g b 0, rt 5%nat).
Proof.
  intros Hrt H5 HT Hvalid Hfit HA HB Hsmall Hbx Hby.
  destruct (direct_locals sizeofT A B k rows cols bdx bdy
              HT Hvalid Hfit HA HB Hsmall Hbx Hby)
    as (Hs & Hd & Hg & Hb & HlA & HlB & Hld & Hn).
  unfold crossCorrelation. rewrite Hs, Hd, Hg, Hb. unfold_calls.
  repeat first
    [ progress cbn [trace stderr length app fst snd start]
    | progress cbv beta iota
    | match goal with
      | |- context [decide (rt 5%nat = cudaSuccess)] =>
          rewrite (decide_False (P := rt 5%nat = cudaSuccess)) by exact H5
      | |- context [rt ?n] => rewrite (Hrt n) by discriminate
      | |- context [decide (cudaSuccess = cudaSuccess)] =>
          rewrite (decide_True (P := cudaSuccess = cudaSuccess)) by reflexivity
      | |- context [decide (cudaSuccess ≠ cudaSuccess)] =>
          rewrite (decide_False (P := cudaSuccess ≠ cudaSuccess)) by (intros ?; done)
      | |- context [decide (?a ≤ ?b)] => rewrite (decide_True (P := a ≤ b))
      end ].
  - rewrite Hn, firstn_all2 by (rewrite length_replicate; lia).
    split; [done|]. split; [done|]. by eexists _, _.
  - rewrite length_replicate. lia.
  - lia.
  - lia.
Qed.

Lemma failed_launch_is_silent_witness :
  ((∀ n, n ≠ 5%nat → launch_fails 9 n = cudaSuccess)
   ∧ launch_fails 9 5%nat ≠ cudaSuccess
   ∧ 0 < 1 ∧ valid_input 3 5 10 ∧ 5 * 10 * 1 < 2 ^ 64
   ∧ Z.of_nat (length src3) = 5 * 10 ∧ Z.of_nat (length src4) = 5 * 10
   ∧ (5 - (3 - 1)) * (10 - (3 - 1)) * 1 < 2 ^ 24
   ∧ 0 < 2 < 2 ^ 24 ∧ 0 < 4 < 2 ^ 24)
  ∧ (crossCorrelation (launch_fails 9) 1 src3 src4 3 5 10 2 4 start).1
    = Returned (replicate (Z.to_nat ((5 - (3 - 1)) * (10 - (3 - 1)))) None)
  ∧ stderr (crossCorrelation (launch_fails 9) 1 src3 src4 3 5 10 2 4 start).2 = []
  ∧ ∃ g b,
      trace (crossCorrelation (launch_fails 9) 1 src3 src4 3 5 10 2 4 start).2
        !! 5%nat
      = Some (launch_call g b 0, launch_fails 9 5%nat).
Proof.
  assert (Hv : valid_input 3 5 10) by (repeat split; lia).
  assert (Hok : ∀ n, n ≠ 5%nat → launch_fails 9 n = cudaSuccess).
  { intros n Hn. unfold launch_fails. by rewrite decide_False. }
  assert (H5 : launch_fails 9 5%nat ≠ cudaSuccess) by (by vm_compute).
  split; [repeat split; (done || lia)|].
  apply (failed_launch_is_silent (launch_fails 9) 1 src3 src4 3 5 10 2 4);
    (done || lia).
Defined.

(** X11: what the timed variants time.  In a run that returns,
    [crossCorrelationTimeWithAllocation] has between its two
    [cudaEventRecord] calls the two copies to the device, the launch and
    the copy back, and [crossCorrelationTimeWithoutAllocation] the launch
    alone.  In no run of either, whatever the runtime answers, is there
    an allocation after the first [cudaEventRecord]: the three
    [cudaMalloc] calls are outside the time that either variant
    returns. *)
Theorem timed_regions rt sizeofT elapsedTime h_src1 h_src2 k rows cols bdx bdy :
  from_start
    (crossCorrelationTimeWithAllocation rt sizeofT elapsedTime
       h_src1 h_src2 k rows cols bdx bdy)
    (λ _ tr,
       timed_region tr
       = [cudaMemcpy_call (src_size sizeofT rows cols);
          cudaMemcpy_call (src_size sizeofT rows cols);
          launch_call (dimGrid k rows cols bdx bdy) (dimBlock bdx bdy) 0;
          cudaMemcpy_call (dest_size sizeofT k rows cols)]
       ∧ count is_malloc (after_event 3 tr) = 0)
    (λ tr, count is_malloc (after_event 3 tr) = 0)
  ∧ from_start
      (crossCorrelationTimeWithoutAllocation rt sizeofT elapsedTime
         h_src1 h_src2 k rows cols bdx bdy)
      (λ _ tr,
         timed_region tr
         = [launch_call (dimGrid k rows cols bdx bdy) (dimBlock bdx bdy) 0]
         ∧ count is_malloc (after_event 3 tr) = 0)
      (λ tr, count is_malloc (after_event 3 tr) = 0).
Proof.
  split.
  - unfold from_start, crossCorrelationTimeWithAllocation. cbv zeta.
    generalize (src_size sizeofT rows cols) (dest_size sizeofT k rows cols)
               (dimGrid k rows cols bdx bdy) (dimBlock bdx bdy).
    intros ss ds g b. unfold_calls. run_cases rt; by cbn.
  - unfold from_start, crossCorrelationTimeWithoutAllocation. cbv zeta.
    generalize (src_size sizeofT rows cols) (dest_size sizeofT k rows cols)
               (dimGrid k rows cols bdx bdy) (dimBlock bdx bdy).
    intros ss ds g b. unfold_calls. run_cases rt; by cbn.
Qed.

(** ** The shared-memory kernel *)

(** X12: where the shared-memory kernel writes.  A thread of the
    shared-memory kernel that writes has a row and a column of the grid
    between [k/2] and the number of rows and of columns of the
    destination; it writes one value of the sample type, at the cell
    [(row - k/2, col - k/2)], inside the destination buffer.  So the
    last [k/2 - 1] rows and columns of the destination are never
    written. *)
Theorem shared_memory_kernel_write_location
    sizeofT d_src1 d_src2 k rows cols shared blockDim blockIdx threadIdx p v :
  0 < sizeofT → valid_input k rows cols → rows * cols < 2 ^ 64 →
  sharedMemoryCrossCorrelationKernel sizeofT d_src1 d_src2 k rows cols shared
    blockDim blockIdx threadIdx = Some (Some (p, v)) →
  k / 2 ≤ global_row blockDim blockIdx threadIdx ≤ rows - (k - 1)
  ∧ k / 2 ≤ global_col blockDim blockIdx threadIdx ≤ cols - (k - 1)
  ∧ p = (global_row blockDim blockIdx threadIdx - k / 2) * (cols - (k - 1))
        + (global_col blockDim blockIdx threadIdx - k / 2)
  ∧ 0 ≤ p < (rows - (k - 1)) * (cols - (k - 1))
  ∧ 0 ≤ v < 2 ^ (8 * sizeofT).
Proof.
  intros HT Hvalid Hfit Hk.
  pose proof (half_bounds k rows cols Hvalid) as [Hh1 Hh2].
  pose proof Hvalid as (_ & H3 & Hkr & Hkc).
  assert (Hrows : rows < 2 ^ 64) by nia.
  assert (Hcols : cols < 2 ^ 64) by nia.
  unfold sharedMemoryCrossCorrelationKernel in Hk.
  destruct (stage_block _ _ _ _ _ _ _ _) as [shmem|]; [|done].
  destruct (dump _ _ _ _ _ _) as [out|]; [|done].
  unfold search in Hk.
  change (sRow blockDim blockIdx threadIdx)
    with (global_row blockDim blockIdx threadIdx) in Hk.
  change (sCol blockDim blockIdx threadIdx)
    with (global_col blockDim blockIdx threadIdx) in Hk.
  set (r := global_row blockDim blockIdx threadIdx) in *.
  set (c := global_col blockDim blockIdx threadIdx) in *.
  rewrite (size_t_small (k - 1)) in Hk by lia.
  rewrite (size_t_small (rows - (k - 1))), (size_t_small (cols - (k - 1))) in Hk by lia.
  case_decide as Hg; [|done]. destruct Hg as (Hr1 & Hc1 & Hr0 & Hc0).
  destruct (for_lt _ _ _ _) as [[mx idx]|]; [|done].
  rewrite (size_t_small (r - k / 2)), (size_t_small (c - k / 2)) in Hk by lia.
  assert (0 ≤ (r - k / 2) * (cols - (k - 1)) ≤ (rows - (k - 1) - 1) * (cols - (k - 1))).
  { split; [apply Z.mul_nonneg_nonneg; lia|].
    apply Z.mul_le_mono_nonneg_r; lia. }
  assert ((rows - (k - 1) - 1) * (cols - (k - 1)) + (cols - (k - 1))
          = (rows - (k - 1)) * (cols - (k - 1))) by ring.
  assert ((rows - (k - 1)) * (cols - (k - 1)) ≤ rows * cols)
    by (apply Z.mul_le_mono_nonneg; lia).
  rewrite (size_t_small ((r - k / 2) * (cols - (k - 1)))) in Hk by lia.
  rewrite (size_t_small ((r - k / 2) * (cols - (k - 1)) + (c - k / 2))) in Hk by lia.
  simplify_eq. repeat split; try lia; by apply castT_range.
Qed.

Lemma shared_memory_kernel_write_location_witness :
  (0 < 1 ∧ valid_input 3 5 4 ∧ 5 * 4 < 2 ^ 64
   ∧ sharedMemoryCrossCorrelationKernel 1 (one_at 20 16) (one_at 20 16) 3 5 4 48
       (Dim3 4 5) (Dim3 0 0) (Dim3 2 3) = Some (Some (5, 1)))
  ∧ 3 / 2 ≤ global_row (Dim3 4 5) (Dim3 0 0) (Dim3 2 3) ≤ 5 - (3 - 1)
  ∧ 3 / 2 ≤ global_col (Dim3 4 5) (Dim3 0 0) (Dim3 2 3) ≤ 4 - (3 - 1)
  ∧ 5 = (global_row (Dim3 4 5) (Dim3 0 0) (Dim3 2 3) - 3 / 2) * (4 - (3 - 1))
        + (global_col (Dim3 4 5) (Dim3 0 0) (Dim3 2 3) - 3 / 2)
  ∧ 0 ≤ 5 < (5 - (3 - 1)) * (4 - (3 - 1))
  ∧ 0 ≤ 1 < 2 ^ (8 * 1).
Proof.
  assert (Hv : valid_input 3 5 4) by (repeat split; lia).
  assert (Hk : sharedMemoryCrossCorrelationKernel 1 (one_at 20 16) (one_at 20 16)
                 3 5 4 48 (Dim3 4 5) (Dim3 0 0) (Dim3 2 3) = Some (Some (5, 1)))
    by (by vm_compute).
  split; [repeat split; (done || lia)|].
  apply (shared_memory_kernel_write_location 1 (one_at 20 16) (one_at 20 16)
           3 5 4 48 (Dim3 4 5) (Dim3 0 0) (Dim3 2 3) 5 1); (done || lia).
Defined.

Lemma merge_shared_fresh a : merge_shared a (replicate (length a) None) = Some a.
Proof.
  induction a as [|va a IH]; [done|]. cbn [length replicate merge_shared].
  rewrite IH. by destruct va.
Qed.

Lemma load_shared_fresh n idx : load_shared (replicate n None) idx = None.
Proof.
  unfold load_shared. case_decide; [|done].
  destruct (replicate n None !! Z.to_nat idx) as [v|] eqn:E; [|done].
  by apply lookup_replicate in E as [-> _].
Qed.

Lemma for_loop_first_fails {St} (body : Z → St → option St) from n s :
  (0 < n)%nat → body from s = None → for_loop body from n s = None.
Proof. intros Hn Hb. destruct n; [lia|]. cbn [for_loop]. by rewrite Hb. Qed.

Section MiddleBlock.

Variables d_src1 d_src2 : list Z.
Variables k cols : Z.
Variables blockDim blockIdx : dim3.
Hypothesis Hfirst : x blockIdx ≠ 0.
Hypothesis Hlast : x blockIdx ≠ uint (x blockDim - 1).

(** In a block that is neither the first of its row nor the one with
    index [blockDim.x - 1], the staging code of a thread copies
    nothing. *)
Lemma stage_middle threadIdx shmem :
  stage d_src1 d_src2 k cols blockDim blockIdx threadIdx shmem = Some shmem.
Proof using Hfirst Hlast. unfold stage. by rewrite !decide_False. Qed.

Lemma stage_block_middle ts shmem :
  stage_block d_src1 d_src2 k cols blockDim blockIdx ts shmem = Some shmem.
Proof using Hfirst Hlast.
  revert shmem. induction ts as [|t ts IH]; intros shmem; [done|].
  cbn [stage_block]. rewrite stage_middle, merge_shared_fresh. apply IH.
Qed.

End MiddleBlock.

(** X13: the blocks the staging code leaves out.  Only the blocks with
    [blockIdx.x = 0] or [blockIdx.x = blockDim.x - 1] copy the sources to
    shared memory.  In any other block no thread stages anything, and a
    thread that passes the guard computes its first product from shared
    cells that nobody has written: its result is undefined.  *)
Theorem shared_memory_kernel_middle_blocks_read_unstaged_memory
    sizeofT d_src1 d_src2 k rows cols shared blockDim blockIdx threadIdx :
  valid_input k rows cols → rows * cols < 2 ^ 64 →
  x blockIdx ≠ 0 → x blockIdx ≠ uint (x blockDim - 1) → 0 < y blockDim →
  k / 2 ≤ global_row blockDim blockIdx threadIdx ≤ rows - (k - 1) →
  k / 2 ≤ global_col blockDim blockIdx threadIdx ≤ cols - (k - 1) →
  sharedMemoryCrossCorrelationKernel sizeofT d_src1 d_src2 k rows cols shared
    blockDim blockIdx threadIdx = None.
Proof.
  intros Hvalid Hfit Hfirst Hlast Hy Hr Hc.
  pose proof (half_bounds k rows cols Hvalid) as [Hh1 Hh2].
  pose proof Hvalid as (_ & H3 & Hkr & Hkc).
  assert (Hrows : rows < 2 ^ 64) by nia.
  assert (Hcols : cols < 2 ^ 64) by nia.
  unfold sharedMemoryCrossCorrelationKernel.
  rewrite stage_block_middle by done.
  destruct (dump _ _ _ _ _ _) as [out|]; [|done].
  unfold search.
  change (sRow blockDim blockIdx threadIdx)
    with (global_row blockDim blockIdx threadIdx).
  change (sCol blockDim blockIdx threadIdx)
    with (global_col blockDim blockIdx threadIdx).
  set (r := global_row blockDim blockIdx threadIdx) in *.
  set (c := global_col blockDim blockIdx threadIdx) in *.
  rewrite (size_t_small (k - 1)) by lia.
  rewrite (size_t_small (rows - (k - 1))), (size_t_small (cols - (k - 1))) by lia.
  rewrite decide_True by lia.
  rewrite (size_t_small (cols - k / 2)) by lia.
  unfold for_lt at 1. rewrite for_loop_first_fails; [done|lia|].
  unfold search_step, window_sum_shared.
  change (sCol blockDim blockIdx threadIdx) with c.
  unfold for_lt. rewrite for_loop_first_fails; [done|lia|].
  rewrite (size_t_small (c - k / 2)), (size_t_small (c + k / 2)) by lia.
  unfold for_le. rewrite for_loop_first_fails; [done|lia|].
  unfold accumulate_shared. by rewrite load_shared_fresh.
Qed.

Lemma shared_memory_kernel_middle_blocks_read_unstaged_memory_witness :
  (valid_input 3 4 8 ∧ 4 * 8 < 2 ^ 64
   ∧ x (Dim3 1 0) ≠ 0 ∧ x (Dim3 1 0) ≠ uint (x (Dim3 3 2) - 1) ∧ 0 < y (Dim3 3 2)
   ∧ 3 / 2 ≤ global_row (Dim3 3 2) (Dim3 1 0) (Dim3 0 1) ≤ 4 - (3 - 1)
   ∧ 3 / 2 ≤ global_col (Dim3 3 2) (Dim3 1 0) (Dim3 0 1) ≤ 8 - (3 - 1))
  ∧ sharedMemoryCrossCorrelationKernel 1 (ones 32) (ones 32) 3 4 8 64
      (Dim3 3 2) (Dim3 1 0) (Dim3 0 1) = None.
Proof.
  assert (Hv : valid_input 3 4 8) by (repeat split; lia).
  assert (Hr : 3 / 2 ≤ global_row (Dim3 3 2) (Dim3 1 0) (Dim3 0 1) ≤ 4 - (3 - 1))
    by (vm_compute; split; discriminate).
  assert (Hc : 3 / 2 ≤ global_col (Dim3 3 2) (Dim3 1 0) (Dim3 0 1) ≤ 8 - (3 - 1))
    by (vm_compute; split; discriminate).
  split; [repeat split; (done || lia)|].
  apply (shared_memory_kernel_middle_blocks_read_unstaged_memory
           1 (ones 32) (ones 32) 3 4 8 64 (Dim3 3 2) (Dim3 1 0) (Dim3 0 1));
    (done || lia).
Defined.

(** ** The sweeps of the benchmark programs *)

(** A loop whose state keeps [Inv] and whose measure [μ] decreases ends
    within [fuel] iterations, and every call it makes satisfies [P]. *)
Lemma for_each_spec (Inv : Z → Prop) (μ : Z → nat) (P : benchmark_args → Prop)
    cond next body fuel v :
  Inv v → (μ v < fuel)%nat →
  (∀ v, Inv v → cond v = true →
        Inv (next v) ∧ (μ (next v) < μ v)%nat
        ∧ ∃ l, body v = Some l ∧ Forall P l) →
  ∃ l, for_each fuel cond next v body = Some l ∧ Forall P l.
Proof.
  intros HInv Hμ Hstep. revert v HInv Hμ.
  induction fuel as [|fuel IH]; intros v HInv Hμ; [lia|].
  cbn [for_each]. destruct (cond v) eqn:Hc; [|by exists []].
  destruct (Hstep v HInv Hc) as (HInv' & Hμ' & l & -> & Hl).
  destruct (IH (next v) HInv') as (l' & -> & Hl'); [lia|].
  exists (l ++ l'). split; [done|]. by apply Forall_app.
Qed.

Lemma for_each_false fuel cond next v body :
  cond v = false → for_each (S fuel) cond next v body = Some [].
Proof. intros H. cbn [for_each]. by rewrite H. Qed.

(** More fuel does not change the calls of a loop that ends. *)
Lemma for_each_fuel fuel fuel' cond next v body l :
  (fuel ≤ fuel')%nat → for_each fuel cond next v body = Some l →
  for_each fuel' cond next v body = Some l.
Proof.
  revert fuel' v l. induction fuel as [|fuel IH]; intros fuel' v l Hle H; [done|].
  destruct fuel' as [|fuel']; [lia|]. cbn [for_each] in *.
  destruct (cond v); [|done]. destruct (body v) as [l1|]; [|done].
  destruct (for_each fuel cond next (next v) body) as [l2|] eqn:E; [|done].
  by rewrite (IH fuel' (next v) l2) by (done || lia).
Qed.

(** A [size_t] counter that doubles is 0 after 64 steps, and stays 0. *)
Lemma doubling_reaches_zero v :
  Nat.iter 64 (λ v, size_t (v * 2)) v = 0 ∧ size_t (0 * 2) = 0.
Proof.
  split; [|done].
  assert (H : ∀ n, Nat.iter (S n) (λ v, size_t (v * 2)) v
                   = size_t (v * 2 ^ Z.of_nat (S n))).
  { induction n as [|n IH]; [cbn [Nat.iter]; by rewrite Z.pow_1_r|].
    rewrite Nat.iter_succ, IH. unfold size_t.
    rewrite Z.mul_mod_idemp_l by done. f_equal.
    rewrite (Nat2Z.inj_succ (S n)), Z.pow_succ_r by lia. lia. }
  rewrite (H 63%nat). unfold size_t. change (Z.of_nat 64) with 64.
  apply Z.mod_mul. done.
Qed.

(** The loop over the window sizes. *)
Lemma kernel_loop_spec (P : benchmark_args → Prop) cond body :
  (∀ ks, cond ks = true → ks ≤ 11) →
  (∀ ks, Z.odd ks = true → 3 ≤ ks → cond ks = true →
         ∃ l, body ks = Some l ∧ Forall P l) →
  ∃ l, for_each loop_fuel cond (λ ks, size_t (ks + 2)) 3 body = Some l
       ∧ Forall P l.
Proof.
  intros Hcond Hbody.
  apply (for_each_spec (λ ks, Z.odd ks = true ∧ 3 ≤ ks ≤ 13)
           (λ ks, Z.to_nat (14 - ks))).
  - done.
  - unfold loop_fuel. lia.
  - intros ks [Hodd Hks] Hc. pose proof (Hcond ks Hc) as H11.
    rewrite size_t_small by lia. split; [|split; [lia|]].
    + split; [|lia]. rewrite Z.odd_add. by rewrite Hodd.
    + apply Hbody; (done || lia).
Qed.

(** A loop over the powers of two from [2 ^ j0], left below 2^63. *)
Lemma doubling_loop_spec (P : benchmark_args → Prop) cond body j0 :
  0 ≤ j0 ≤ 63 →
  (∀ j, j0 ≤ j → cond (2 ^ j) = true →
        2 ^ j < 2 ^ 63 ∧ ∃ l, body (2 ^ j) = Some l ∧ Forall P l) →
  ∃ l, for_each loop_fuel cond (λ b, size_t (b * 2)) (2 ^ j0) body = Some l
       ∧ Forall P l.
Proof.
  intros Hj0 Hbody.
  apply (for_each_spec (λ b, ∃ j, j0 ≤ j ≤ 63 ∧ b = 2 ^ j)
           (λ b, Z.to_nat (64 - Z.log2 b))).
  - exists j0. lia.
  - rewrite Z.log2_pow2 by lia. unfold loop_fuel. lia.
  - intros b (j & Hj & ->) Hc.
    destruct (Hbody j ltac:(lia) Hc) as (Hlt & Hl).
    apply pow2_lt_inv in Hlt; [|lia].
    assert (Hpow : 2 ^ j * 2 = 2 ^ (j + 1)) by (rewrite Z.pow_add_r; lia).
    rewrite Hpow. rewrite size_t_small.
    2: { split; [apply Z.pow_nonneg; lia|]. apply Z.pow_lt_mono_r; lia. }
    split; [exists (j + 1); lia|].
    rewrite !Z.log2_pow2 by lia. split; [lia|done].
Qed.

Lemma for_formats_spec (P : benchmark_args → Prop) form body :
  (∀ f, f ∈ form → ∃ l, body f = Some l ∧ Forall P l) →
  ∃ l, for_formats form body = Some l ∧ Forall P l.
Proof.
  induction form as [|f form IH]; intros H; [by exists []|].
  cbn [for_formats].
  destruct (H f) as (l & -> & Hl); [apply elem_of_cons; by left|].
  destruct IH as (l' & -> & Hl').
  { intros f' Hf'. apply H, elem_of_cons. by right. }
  exists (l ++ l'). split; [done|]. by apply Forall_app.
Qed.

Lemma Forall_False_nil {X} (l : list X) : Forall (λ _, False) l → l = [].
Proof. by destruct 1. Qed.

(** The calls of benchmark.cu, for any [max_thread_per_block]. *)
Lemma benchmark_main_spec max_thread_per_block :
  ∃ l, benchmark.main max_thread_per_block = Some l
       ∧ Forall (λ a,
           (∃ j, 5 ≤ j ≤ 9 ∧ b_rows a = 2 ^ j)
           ∧ swept max_thread_per_block (b_rows a) (b_rows a)
               "results/32-512_formats" 10 a) l.
Proof.
  unfold benchmark.main.
  change benchmark.MIN_SIZE with (2 ^ 5).
  apply doubling_loop_spec; [lia|].
  intros j Hj Hc%bool_decide_eq_true. unfold benchmark.MAX_SIZE in Hc.
  assert (Hj9 : j < 10) by (apply pow2_lt_inv; lia).
  assert (H32 : 2 ^ 5 ≤ 2 ^ j) by (apply Z.pow_le_mono_r; lia).
  split; [lia|].
  change benchmark.BLOCK_DIM_MIN with (2 ^ 3).
  apply doubling_loop_spec; [lia|].
  intros j' Hj' Hc'.
  apply andb_true_iff in Hc' as [Hbr%bool_decide_eq_true Hbm%bool_decide_eq_true].
  split; [lia|].
  change benchmark.KERNEL_SIZE_MIN with 3.
  apply kernel_loop_spec.
  - intros ks [_ H11%bool_decide_eq_true]%andb_true_iff.
    by unfold benchmark.KERNEL_SIZE_MAX in H11.
  - intros ks Hodd H3 [Hkr%bool_decide_eq_true H11%bool_decide_eq_true]%andb_true_iff.
    unfold benchmark.KERNEL_SIZE_MAX in H11.
    eexists. split; [done|]. apply Forall_singleton. cbn [b_rows].
    split; [exists j; lia|].
    unfold swept, valid_input. cbn.
    repeat split; try (done || lia). exists j'. lia.
Qed.

(** X14: the sweep of benchmark.cu.  For every [max_thread_per_block] the
    three loops end, and every call of [benchmark] is for a square matrix
    of side 32, 64, 128, 256 or 512, an odd window size between 3 and 11
    that fits it, and a square block whose side is a power of two, at
    least 8, no larger than the matrix side nor than
    [max_thread_per_block], with the folder "results/32-512_formats" and
    10 iterations. *)
Theorem benchmark_main_sweep max_thread_per_block :
  ∃ l, benchmark.main max_thread_per_block = Some l
       ∧ ∀ a, a ∈ l →
           b_rows a = b_cols a
           ∧ (∃ j, 5 ≤ j ≤ 9 ∧ b_rows a = 2 ^ j)
           ∧ swept max_thread_per_block (b_rows a) (b_cols a)
               "results/32-512_formats" 10 a.
Proof.
  destruct (benchmark_main_spec max_thread_per_block) as (l & Hl & HP).
  exists l. split; [done|]. intros a Ha.
  apply (proj1 (list.Forall_forall _ _) HP) in Ha as (Hj & Hsw).
  pose proof Hsw as (_ & Hc & _).
  split; [done|]. split; [done|]. by rewrite Hc.
Qed.

(** X15: every configuration of the sweep of benchmark.cu is one for
    which the timed functions are exact.  With sources of the swept size
    and a runtime whose calls succeed, both timed variants return the
    destination of the direct kernel for the swept arguments: the sizes
    stay below the bounds beyond which the [float] computations round. *)
Theorem benchmark_configurations_are_exact
    max_thread_per_block a rt elapsedTime A B :
  a ∈ default [] (benchmark.main max_thread_per_block) →
  (∀ n, rt n = cudaSuccess) →
  Z.of_nat (length A) = b_rows a * b_cols a →
  Z.of_nat (length B) = b_rows a * b_cols a →
  (crossCorrelationTimeWithAllocation rt 1 elapsedTime A B
     (b_kernel_size a) (b_rows a) (b_cols a) (b_block_dim_x a) (b_block_dim_y a)
     start).1
  = Returned (destination 1 A B (b_kernel_size a) (b_rows a) (b_cols a), elapsedTime)
  ∧ (crossCorrelationTimeWithoutAllocation rt 1 elapsedTime A B
       (b_kernel_size a) (b_rows a) (b_cols a) (b_block_dim_x a) (b_block_dim_y a)
       start).1
    = Returned (destination 1 A B (b_kernel_size a) (b_rows a) (b_cols a), elapsedTime).
Proof.
  intros Ha Hrt HA HB.
  destruct (benchmark_main_spec max_thread_per_block) as (l & Hl & HP).
  rewrite Hl in Ha. cbn [default] in Ha.
  apply (proj1 (list.Forall_forall _ _) HP) in Ha as ((j & Hj & Hrows) & Hsw).
  destruct Hsw as (_ & Hcols & Hvalid & Hk11 & Hxy & (j' & Hj' & Hbx) & Hbr & Hbc & _).
  rewrite <- Hxy. rewrite Hcols in HA, HB |- *.
  assert (Hr : 32 ≤ b_rows a ≤ 512).
  { rewrite Hrows. split.
    - change 32 with (2 ^ 5). apply Z.pow_le_mono_r; lia.
    - change 512 with (2 ^ 9). apply Z.pow_le_mono_r; lia. }
  assert (Hb : 8 ≤ b_block_dim_x a).
  { rewrite Hbx. change 8 with (2 ^ 3). apply Z.pow_le_mono_r; lia. }
  pose proof Hvalid as (_ & H3 & Hkr & _).
  assert (Hd : (b_rows a - (b_kernel_size a - 1)) * (b_rows a - (b_kernel_size a - 1)) * 1
               < 2 ^ 24).
  { rewrite Z.mul_1_r.
    assert ((b_rows a - (b_kernel_size a - 1)) * (b_rows a - (b_kernel_size a - 1))
            ≤ 512 * 512) by (apply Z.mul_le_mono_nonneg; lia).
    lia. }
  assert (Hf : b_rows a * b_rows a * 1 < 2 ^ 64).
  { rewrite Z.mul_1_r.
    assert (b_rows a * b_rows a ≤ 512 * 512) by (apply Z.mul_le_mono_nonneg; lia).
    lia. }
  split.
  - apply crossCorrelationTimeWithAllocation_run; (done || lia).
  - apply crossCorrelationTimeWithoutAllocation_run; (done || lia).
Qed.

Lemma benchmark_configurations_are_exact_witness :
  (BenchmarkArgs 32 32 3 8 8 "results/32-512_formats" 10
     ∈ default [] (benchmark.main 8)
   ∧ (∀ n, ok n = cudaSuccess)
   ∧ Z.of_nat (length (zeros 1024)) = 32 * 32
   ∧ Z.of_nat (length (ones 1024)) = 32 * 32)
  ∧ (crossCorrelationTimeWithAllocation ok 1 (Float 1 0) (zeros 1024) (ones 1024)
       3 32 32 8 8 start).1
    = Returned (destination 1 (zeros 1024) (ones 1024) 3 32 32, Float 1 0)
  ∧ (crossCorrelationTimeWithoutAllocation ok 1 (Float 1 0) (zeros 1024) (ones 1024)
       3 32 32 8 8 start).1
    = Returned (destination 1 (zeros 1024) (ones 1024) 3 32 32, Float 1 0).
Proof.
  assert (Hin : BenchmarkArgs 32 32 3 8 8 "results/32-512_formats" 10
                  ∈ default [] (benchmark.main 8)).
  { vm_compute. constructor. }
  split; [repeat split; (exact Hin || done)|].
  apply (benchmark_configurations_are_exact 8
           (BenchmarkArgs 32 32 3 8 8 "results/32-512_formats" 10)
           ok (Float 1 0) (zeros 1024) (ones 1024)); (exact Hin || done).
Defined.

(** The block and window loops of standard_formats_benchmark.cu, for one
    format. *)
Lemma standard_format_spec max_thread_per_block rows cols :
  rows < 2 ^ 63 ∨ cols < 2 ^ 63 ∨ max_thread_per_block < 2 ^ 63 →
  ∃ l,
    for_each loop_fuel
      (λ block_dim_x_y,
         bool_decide (block_dim_x_y ≤ rows) && bool_decide (block_dim_x_y ≤ cols)
         && bool_decide (block_dim_x_y ≤ max_thread_per_block))
      (λ block_dim_x_y, size_t (block_dim_x_y * 2))
      standard_formats_benchmark.BLOCK_DIM_MIN
      (λ block_dim_x_y,
         for_each loop_fuel
           (λ kernel_size,
              bool_decide (kernel_size ≤ rows) && bool_decide (kernel_size ≤ cols)
              && bool_decide (kernel_size ≤ standard_formats_benchmark.KERNEL_SIZE_MAX))
           (λ kernel_size, size_t (kernel_size + 2))
           standard_formats_benchmark.KERNEL_SIZE_MIN
           (λ kernel_size,
              Some [BenchmarkArgs rows cols kernel_size
                      block_dim_x_y block_dim_x_y
                      "results/standard_formats"
                      standard_formats_benchmark.ITERATIONS]))
    = Some l
    ∧ Forall (swept max_thread_per_block rows cols "results/standard_formats" 5) l.
Proof.
  intros Hbound.
  change standard_formats_benchmark.BLOCK_DIM_MIN with (2 ^ 3).
  apply doubling_loop_spec; [lia|].
  intros j Hj Hc.
  apply andb_true_iff in Hc as [Hc Hbm%bool_decide_eq_true].
  apply andb_true_iff in Hc as [Hbr%bool_decide_eq_true Hbc%bool_decide_eq_true].
  split; [lia|].
  change standard_formats_benchmark.KERNEL_SIZE_MIN with 3.
  apply kernel_loop_spec.
  - intros ks [_ H11%bool_decide_eq_true]%andb_true_iff.
    by unfold standard_formats_benchmark.KERNEL_SIZE_MAX in H11.
  - intros ks Hodd H3 [Hk H11%bool_decide_eq_true]%andb_true_iff.
    apply andb_true_iff in Hk as [Hkr%bool_decide_eq_true Hkc%bool_decide_eq_true].
    unfold standard_formats_benchmark.KERNEL_SIZE_MAX in H11.
    eexists. split; [done|]. apply Forall_singleton.
    unfold swept, valid_input. cbn.
    repeat split; try (done || lia). exists j. lia.
Qed.

(** X16: the sweep of standard_formats_benchmark.cu.  When
    [max_thread_per_block] or a side of every format is below 2^63 the
    loops end, and every call of [benchmark] is for one of the formats,
    an odd window size between 3 and 11 that fits it, and a square block
    whose side is a power of two, at least 8, no larger than either side
    of the format nor than [max_thread_per_block], with the folder
    "results/standard_formats" and 5 iterations. *)
Theorem standard_formats_main_sweep form max_thread_per_block :
  max_thread_per_block < 2 ^ 63 ∨ (∀ f, f ∈ form → f.1 < 2 ^ 63 ∨ f.2 < 2 ^ 63) →
  ∃ l, standard_formats_benchmark.main form max_thread_per_block = Some l
       ∧ ∀ a, a ∈ l →
           (b_rows a, b_cols a) ∈ form
           ∧ swept max_thread_per_block (b_rows a) (b_cols a)
               "results/standard_formats" 5 a.
Proof.
  intros H.
  assert (∃ l, standard_formats_benchmark.main form max_thread_per_block = Some l
               ∧ Forall (λ a, (b_rows a, b_cols a) ∈ form
                              ∧ swept max_thread_per_block (b_rows a) (b_cols a)
                                  "results/standard_formats" 5 a) l)
    as (l & Hl & HP).
  { unfold standard_formats_benchmark.main. apply for_formats_spec.
    intros [rows cols] Hf. cbn [fst snd]. cbv zeta.
    destruct (standard_format_spec max_thread_per_block rows cols)
      as (l & Hl & HP).
    { destruct H as [H|H]; [auto|]. destruct (H _ Hf); auto. }
    exists l. split; [done|]. eapply Forall_impl; [|exact HP].
    intros a Ha. pose proof Ha as (Hr & Hc & _). by rewrite Hr, Hc. }
  exists l. split; [done|]. by apply list.Forall_forall.
Qed.

Lemma standard_formats_main_sweep_witness :
  (32 < 2 ^ 63 ∨ (∀ f, f ∈ [(480, 640)] → f.1 < 2 ^ 63 ∨ f.2 < 2 ^ 63))
  ∧ ∃ l, standard_formats_benchmark.main [(480, 640)] 32 = Some l
         ∧ ∀ a, a ∈ l →
             (b_rows a, b_cols a) ∈ [(480, 640)]
             ∧ swept 32 (b_rows a) (b_cols a) "results/standard_formats" 5 a.
Proof.
  split; [left; lia|].
  apply (standard_formats_main_sweep [(480, 640)] 32). left. lia.
Defined.

(** X17: sweeps that run nothing.  A device whose
    [max_thread_per_block] is below [BLOCK_DIM_MIN] = 8 gets no benchmark
    at all from either program, and standard_formats_benchmark.cu skips
    every format with a side below 8: [main] then ends without a call
    to [benchmark]. *)
Theorem small_sweeps_are_empty max_thread_per_block form :
  max_thread_per_block < 8 ∨ (∀ f, f ∈ form → f.1 < 8 ∨ f.2 < 8) →
  standard_formats_benchmark.main form max_thread_per_block = Some []
  ∧ (max_thread_per_block < 8 → benchmark.main max_thread_per_block = Some []).
Proof.
  intros H. split.
  - assert (∃ l, standard_formats_benchmark.main form max_thread_per_block = Some l
                 ∧ Forall (λ _, False) l) as (l & Hl & HP).
    { unfold standard_formats_benchmark.main. apply for_formats_spec.
      intros [rows cols] Hf. exists []. split; [|done]. cbv zeta. cbn [fst snd].
      apply for_each_false. unfold standard_formats_benchmark.BLOCK_DIM_MIN.
      apply andb_false_iff.
      destruct H as [H|H].
      - right. apply bool_decide_eq_false_2. lia.
      - left. apply andb_false_iff.
        destruct (H _ Hf) as [H8|H8]; cbn [fst snd] in H8;
          [left|right]; apply bool_decide_eq_false_2; lia. }
    by rewrite (Forall_False_nil l HP) in Hl.
  - intros Hm.
    assert (∃ l, benchmark.main max_thread_per_block = Some l
                 ∧ Forall (λ _, False) l) as (l & Hl & HP).
    { unfold benchmark.main. change benchmark.MIN_SIZE with (2 ^ 5).
      apply doubling_loop_spec; [lia|].
      intros j Hj Hc%bool_decide_eq_true. unfold benchmark.MAX_SIZE in Hc.
      split; [lia|]. exists []. split; [|done].
      apply for_each_false. unfold benchmark.BLOCK_DIM_MIN.
      apply andb_false_iff. right. apply bool_decide_eq_false_2. lia. }
    by rewrite (Forall_False_nil l HP) in Hl.
Qed.

Lemma small_sweeps_are_empty_witness :
  (7 < 8 ∨ (∀ f, f ∈ [(480, 640)] → f.1 < 8 ∨ f.2 < 8))
  ∧ standard_formats_benchmark.main [(480, 640)] 7 = Some []
  ∧ (7 < 8 → benchmark.main 7 = Some []).
Proof.
  split; [left; lia|]. apply (small_sweeps_are_empty 7 [(480, 640)]). left. lia.
Defined.

(** ** The object points of the calibration *)

Lemma for_loop_push {X} (f : Z → X) from n (s : list X) :
  for_loop (λ j s, Some (s ++ [f j])) from n s
  = Some (s ++ (f <$> seqZ from (Z.of_nat n))).
Proof.
  revert from s. induction n as [|n IH]; intros from s.
  - cbn. by rewrite app_nil_r.
  - cbn [for_loop]. rewrite IH. f_equal.
    rewrite Nat2Z.inj_succ, (seqZ_cons from) by lia. cbn [fmap list_fmap].
    replace (Z.pred (Z.succ (Z.of_nat n))) with (Z.of_nat n) by lia.
    replace (Z.succ from) with (from + 1) by lia.
    by rewrite <- (assoc_L (++)).
Qed.

Lemma for_loop_extend {X} (g : Z → list X) from n (s : list X) :
  for_loop (λ i s, Some (s ++ g i)) from n s
  = Some (s ++ (seqZ from (Z.of_nat n) ≫= g)).
Proof.
  revert from s. induction n as [|n IH]; intros from s.
  - cbn. by rewrite app_nil_r.
  - cbn [for_loop]. rewrite IH. f_equal.
    rewrite Nat2Z.inj_succ, (seqZ_cons from) by lia. cbn [mbind list_bind].
    replace (Z.pred (Z.succ (Z.of_nat n))) with (Z.of_nat n) by lia.
    replace (Z.succ from) with (from + 1) by lia.
    by rewrite <- (assoc_L (++)).
Qed.

Lemma lookup_rows {X} (f : Z → Z → X) rows from n i j :
  0 ≤ rows → from ≤ i < from + n → 0 ≤ j < rows →
  (seqZ from n ≫= λ i, f i <$> seqZ 0 rows) !! Z.to_nat ((i - from) * rows + j)
  = Some (f i j).
Proof.
  intros Hrows Hi Hj.
  assert (Hn : n = Z.of_nat (Z.to_nat n)) by lia. rewrite Hn in Hi |- *.
  generalize (Z.to_nat n) Hi. clear Hn Hi. intros m. revert from.
  induction m as [|m IH]; intros from Hi; [lia|].
  rewrite Nat2Z.inj_succ, (seqZ_cons from) by lia. cbn [mbind list_bind].
  replace (Z.pred (Z.succ (Z.of_nat m))) with (Z.of_nat m) by lia.
  destruct (decide (i = from)) as [->|Hne].
  - rewrite lookup_app_l by (rewrite length_fmap, length_seqZ; lia).
    rewrite list_lookup_fmap, lookup_seqZ_lt by lia. cbn. do 2 f_equal. lia.
  - rewrite lookup_app_r by (rewrite length_fmap, length_seqZ; nia).
    rewrite length_fmap, length_seqZ.
    replace (Z.to_nat ((i - from) * rows + j) - Z.to_nat rows)%nat
      with (Z.to_nat ((i - Z.succ from) * rows + j)) by nia.
    apply IH. lia.
Qed.

Lemma length_rows {X} (f : Z → Z → X) rows from n :
  0 ≤ rows →
  length (seqZ from (Z.of_nat n) ≫= λ i, f i <$> seqZ 0 rows)
  = (n * Z.to_nat rows)%nat.
Proof.
  intros Hrows. revert from. induction n as [|n IH]; intros from; [done|].
  rewrite Nat2Z.inj_succ, (seqZ_cons from) by lia. cbn [mbind list_bind].
  rewrite length_app, length_fmap, length_seqZ.
  replace (Z.pred (Z.succ (Z.of_nat n))) with (Z.of_nat n) by lia.
  rewrite IH. lia.
Qed.

(** X18: the object points are the grid of corners.  For any two [int]
    arguments the loops of [calibrateSingleCamera] build
    [checkerboard_cols * checkerboard_rows] points (none when an argument
    is not positive); the point of index [i * checkerboard_rows + j] has
    [x = j], [y = i] and [z = 0]: [x] runs over [checkerboard_rows]
    values, fastest, and [y] over [checkerboard_cols]. *)
Theorem objp_is_the_grid_of_corners checkerboard_rows checkerboard_cols :
  ∃ l, objp checkerboard_rows checkerboard_cols = Some l
       ∧ length l = (Z.to_nat checkerboard_cols * Z.to_nat checkerboard_rows)%nat
       ∧ ∀ i j, 0 ≤ i < checkerboard_cols → 0 ≤ j < checkerboard_rows →
           l !! Z.to_nat (i * checkerboard_rows + j)
           = Some (Point3f_ (float_of_Z j) (float_of_Z i) (float_of_Z 0)).
Proof.
  set (f := λ i j, Point3f_ (float_of_Z j) (float_of_Z i) (float_of_Z 0)).
  exists (seqZ 0 (Z.of_nat (Z.to_nat checkerboard_cols))
            ≫= λ i, f i <$> seqZ 0 (Z.of_nat (Z.to_nat checkerboard_rows))).
  split; [|split].
  - unfold objp, for_lt. rewrite !Z.sub_0_r.
    rewrite <- (app_nil_l (_ ≫= _)).
    rewrite <- (for_loop_extend
                  (λ i, f i <$> seqZ 0 (Z.of_nat (Z.to_nat checkerboard_rows)))).
    apply for_loop_ext. intros i s _. apply for_loop_push.
  - rewrite length_rows by lia. lia.
  - intros i j Hi Hj. rewrite !Z2Nat.id by lia.
    replace (i * checkerboard_rows + j) with ((i - 0) * checkerboard_rows + j) by lia.
    apply (lookup_rows f); lia.
Qed.
